(** * ladderweb: match outcome analytics

    A shallow embedding of the computational parts of
    [ladderweb/__init__.py] (the resampler, the leaderboard builder, the
    player history analyzer and the global statistics aggregator), and the
    properties of them that the design document states.

    Conventions of the embedding:
    - Python [int] is [Z]; Python [float] is [Q], with exact arithmetic
      (rounding error of IEEE doubles is not modelled);
    - a raised exception is the [Raise] case of [result];
    - a [dict] is an insertion-ordered association list ([PyDict]);
    - a SQLite cursor is the list of its rows, and each query is a function
      from the database to such a list;
    - a calendar date is its proleptic Gregorian ordinal
      ([date.toordinal]), the ISO rendering of dates being a bijection that
      preserves the order. *)

From Stdlib Require Import String Ascii.
From Stdlib Require Import List ZArith QArith Qround Lia Lqa Bool.
From Stdlib Require Import Permutation Sorted.
From Equations.Prop Require Import Equations Logic.
Import ListNotations.

Local Open Scope Z_scope.

(** ** Exceptions *)

Inductive exn : Type :=
| ValueError
| ZeroDivisionError.

Inductive result (A : Type) : Type :=
| Ok (a : A)
| Raise (e : exn).
Arguments Ok {A} a.
Arguments Raise {A} e.

Definition bind {A B : Type} (r : result A) (k : A -> result B) : result B :=
  match r with
  | Ok a => k a
  | Raise e => Raise e
  end.

Notation "x <- r ;; k" := (bind r (fun x => k))
  (at level 61, r at next level, right associativity).

(** ** Python builtins *)

(** [range(n)] for an integer [n]: empty when [n <= 0]. *)
Definition range (n : Z) : list Z :=
  map Z.of_nat (seq 0 (Z.to_nat n)).

Definition len {A : Type} (l : list A) : Z := Z.of_nat (length l).

Definition sum (l : list Z) : Z := fold_left Z.add l 0.

(** [int(x)] of a float: truncation towards zero. *)
Definition py_int (x : Q) : Z :=
  if Qle_bool 0 x then Qfloor x else Qceiling x.

(** [a, b = zip] of the unpacked [hist], a list of pairs: the transposition has two
    rows when [hist] is not empty and none when it is, in which case the
    unpacking raises. *)
Definition unzip2 {A B : Type} (hist : list (A * B)) : result (list A * list B) :=
  match hist with
  | [] => Raise ValueError
  | _ => Ok (map fst hist, map snd hist)
  end.

(** [sorted(l)] and SQL's [ORDER BY], as a stable insertion sort under a
    boolean order. *)
Section Sorting.
Context {A : Type} (leb : A -> A -> bool).

Fixpoint insert_sorted (x : A) (l : list A) : list A :=
  match l with
  | [] => [x]
  | y :: l' => if leb x y then x :: l else y :: insert_sorted x l'
  end.

Fixpoint sorted (l : list A) : list A :=
  match l with
  | [] => []
  | x :: l' => insert_sorted x (sorted l')
  end.
End Sorting.

(** ** Dictionaries

    A [dict] keeps its keys in insertion order; assigning to a key that is
    present overwrites the value in place. *)
Module PyDict.
Section Dict.
Context {K V : Type} (eqb : K -> K -> bool).

Definition t : Type := list (K * V).

Fixpoint get (d : t) (k : K) : option V :=
  match d with
  | [] => None
  | (k', v) :: d' => if eqb k' k then Some v else get d' k
  end.

(** [d.get(k, default)] *)
Definition get_default (d : t) (k : K) (default : V) : V :=
  match get d k with
  | Some v => v
  | None => default
  end.

(** [d[k] = v] *)
Fixpoint set (d : t) (k : K) (v : V) : t :=
  match d with
  | [] => [(k, v)]
  | (k', v') :: d' => if eqb k' k then (k', v) :: d' else (k', v') :: set d' k v
  end.

(** [d.update(other)] *)
Definition update (d other : t) : t :=
  fold_left (fun acc kv => set acc (fst kv) (snd kv)) other d.

(** [{k: v for (k, v) in rows}] *)
Definition of_rows (rows : list (K * V)) : t := update [] rows.

Definition keys (d : t) : list K := map fst d.
Definition values (d : t) : list V := map snd d.
End Dict.
End PyDict.

(** [a / b] on integers (true division). *)
Definition truediv (a b : Z) : result Q :=
  if b =? 0 then Raise ZeroDivisionError else Ok (inject_Z a / inject_Z b)%Q.

(** [round(x)] of a float: to the nearest integer, halves to the even one. *)
Definition py_round (x : Q) : Z :=
  let f := Qfloor x in
  match (x - inject_Z f ?= 1 # 2)%Q with
  | Lt => f
  | Gt => f + 1
  | Eq => if Z.even f then f else f + 1
  end.

(** ** Time-series resampler *)

Definition Qltb (x y : Q) : bool := negb (Qle_bool y x).

(** [min(a)] and [max(a)] of a non-empty sequence: the first smallest and
    the first largest element. *)
Definition py_min (a : list Q) : Q :=
  match a with
  | [] => 0%Q
  | x :: l => fold_left (fun best y => if Qltb y best then y else best) l x
  end.

Definition py_max (a : list Q) : Q :=
  match a with
  | [] => 0%Q
  | x :: l => fold_left (fun best y => if Qltb best y then y else best) l x
  end.

(** The interior case of [numpy.interp]: [xp] starts at or below [x].
    Walks to the segment [xp[j] <= x < xp[j+1]]; at the last sample point
    the sample value itself is returned. *)
Fixpoint interp_from (x : Q) (xp fp : list Q) : Q :=
  match xp, fp with
  | x0 :: ((x1 :: _) as xp'), y0 :: ((y1 :: _) as fp') =>
      if Qltb x x1 then
        if Qeq_bool x0 x then y0
        else ((y1 - y0) / (x1 - x0) * (x - x0) + y0)%Q
      else interp_from x xp' fp'
  | _, y0 :: _ => y0
  | _, [] => 0%Q
  end.

(** [numpy.interp(x, xp, fp)] at one query point, with the default [left]
    and [right] values: queries outside the sample range take the first or
    the last sample value. *)
Definition interp1 (x : Q) (xp fp : list Q) : Q :=
  if Qltb x (hd 0%Q xp) then hd 0%Q fp
  else if Qltb (last xp 0%Q) x then last fp 0%Q
  else interp_from x xp fp.

Definition np_interp (xs xp fp : list Q) : result (list Q) :=
  match xp with
  | [] => Raise ValueError
  | _ => if (length xp =? length fp)%nat then Ok (map (fun x => interp1 x xp fp) xs)
         else Raise ValueError
  end.

Definition _scaled (a : list Q) (m : Z) : result (list Z) :=
  let n := len a in
  let nr := map inject_Z (range n) in
  let mr := map (fun x => (inject_Z (x * n) / inject_Z m)%Q) (range m) in
  ys <- np_interp mr nr a ;;
  Ok (map py_round ys).

(** ** The ledger *)

Record player : Type := {
  profile_id : Z;
  profile_name : string;
  avatar_url : string;
  wins : Z;
  losses : Z;
  prv_rating : Q;
  rating : Q;
  banned : bool
}.

(** Timestamps are in seconds, counted so that [t / 86400] is the ordinal
    of the calendar day. *)
Record outcome : Type := {
  hash : string;
  start_time : Z;
  end_time : Z;
  profile_id0 : Z;
  profile_id1 : Z;
  rating_0 : Q;
  rating_0_prv : Q;
  rating_1 : Q;
  rating_1_prv : Q;
  selected_faction_0 : string;
  selected_faction_1 : string;
  map_title : string;
  filename : string
}.

Record db : Type := {
  players : list player;
  outcomes : list outcome
}.

(** ** SQL operators *)

(** [SELECT COUNT( * ), key ... GROUP BY key]: one row per distinct key,
    here in order of first occurrence. *)
Section GroupBy.
Context {K : Type} (eqb : K -> K -> bool).

Fixpoint bump (rows : list (K * Z)) (k : K) : list (K * Z) :=
  match rows with
  | [] => [(k, 1)]
  | (k', c) :: rows' =>
      if eqb k' k then (k', c + 1) :: rows' else (k', c) :: bump rows' k
  end.

Definition group_count (keys : list K) : list (K * Z) :=
  fold_left bump keys [].

(** Number of occurrences of a key among the grouped values. *)
Definition occurrences (k : K) (keys : list K) : Z :=
  len (filter (eqb k) keys).
End GroupBy.

(** [l LEFT JOIN r ON on]: every row of [l] paired with each matching row
    of [r], or with NULL when there is none. *)
Definition left_join {A B : Type} (on : A -> B -> bool)
    (l : list A) (r : list B) : list (A * option B) :=
  flat_map (fun a =>
    match filter (on a) r with
    | [] => [(a, None)]
    | bs => map (fun b => (a, Some b)) bs
    end) l.

(** [date(t)] *)
Definition sql_date (t : Z) : Z := t / 86400.

(** [strftime('%M:%S', julianday(e) - julianday(s))]: the minute and second
    fields of the elapsed time. *)
Definition sql_duration (s e : Z) : Z * Z :=
  (((e - s) / 60) mod 60, (e - s) mod 60).

(** Truth value of a joined [banned] column (NULL is false). *)
Definition truthy (b : option bool) : bool :=
  match b with
  | Some true => true
  | _ => false
  end.

(** ** Calendar ([datetime._ymd2ord]) *)

Definition _is_leap (year : Z) : bool :=
  (year mod 4 =? 0) && (negb (year mod 100 =? 0) || (year mod 400 =? 0)).

Definition _days_before_year (year : Z) : Z :=
  let y := year - 1 in
  y * 365 + y / 4 - y / 100 + y / 400.

Definition _DAYS_BEFORE_MONTH : list Z :=
  [-1; 0; 31; 59; 90; 120; 151; 181; 212; 243; 273; 304; 334].

Definition _days_before_month (year month : Z) : Z :=
  nth (Z.to_nat month) _DAYS_BEFORE_MONTH 0
  + (if (2 <? month) && _is_leap year then 1 else 0).

Definition _ymd2ord (year month day : Z) : Z :=
  _days_before_year year + _days_before_month year month + day.

(** ** Palette generator *)

Definition ONE_THIRD : Q := 1 # 3.
Definition ONE_SIXTH : Q := 1 # 6.
Definition TWO_THIRD : Q := 2 # 3.

(** [colorsys._v] *)
Definition _v (m1 m2 hue : Q) : Q :=
  let hue := (hue - inject_Z (Qfloor hue))%Q in
  if Qltb hue ONE_SIXTH then (m1 + (m2 - m1) * hue * 6)%Q
  else if Qltb hue (1 # 2) then m2
  else if Qltb hue TWO_THIRD then (m1 + (m2 - m1) * (TWO_THIRD - hue) * 6)%Q
  else m1.

(** [colorsys.hls_to_rgb] *)
Definition hls_to_rgb (h l s : Q) : Q * Q * Q :=
  if Qeq_bool s 0 then (l, l, l)
  else
    let m2 := if Qle_bool l (1 # 2) then (l * (1 + s))%Q else (l + s - l * s)%Q in
    let m1 := (2 * l - m2)%Q in
    (_v m1 m2 (h + ONE_THIRD), _v m1 m2 h, _v m1 m2 (h - ONE_THIRD)).

Definition hex_digit (n : Z) : ascii :=
  nth (Z.to_nat n)
    ["0"; "1"; "2"; "3"; "4"; "5"; "6"; "7"; "8"; "9";
     "A"; "B"; "C"; "D"; "E"; "F"]%char "?"%char.

(** ['%02X' % n] for a channel value [0 <= n < 256]. *)
Definition hex2 (n : Z) : string :=
  String (hex_digit (n / 16)) (String (hex_digit (n mod 16)) EmptyString).

Definition _hexc (fc : Q * Q * Q) : string :=
  let '(r, g, b) := fc in
  ("#" ++ hex2 (py_int (r * 255)) ++ hex2 (py_int (g * 255))
       ++ hex2 (py_int (b * 255)))%string.

Definition _get_colors (n : Z) : list string :=
  map (fun i => _hexc (hls_to_rgb (inject_Z i / inject_Z n) (4 # 10) (6 # 10)))
      (range n).

(** ** Map-title display stripping

    [_tag_regex] is [\s*\[[^\]]*\]].  Whitespace never is a bracket and the
    tag body never holds a closing bracket, so backtracking into either star
    cannot turn a failed match into a successful one: an attempt at a given
    position consumes all the whitespace, one opening bracket, and
    everything up to the first closing bracket. *)

(** [str.isspace] of one character, which is also the class [\s]; the
    characters are the code points below 256. *)
Definition py_isspace (c : ascii) : bool :=
  let n := nat_of_ascii c in
  ((9 <=? n) && (n <=? 13) || (28 <=? n) && (n <=? 32)
   || (n =? 133) || (n =? 160))%nat.

Definition is_open (c : ascii) : bool := Ascii.eqb c "[".
Definition is_close (c : ascii) : bool := Ascii.eqb c "]".

(** [\s*] *)
Fixpoint skip_spaces (s : list ascii) : list ascii :=
  match s with
  | c :: s' => if py_isspace c then skip_spaces s' else s
  | [] => []
  end.

(** [[^\]]*\]] *)
Fixpoint skip_to_close (s : list ascii) : option (list ascii) :=
  match s with
  | c :: s' => if is_close c then Some s' else skip_to_close s'
  | [] => None
  end.

(** One attempt of [_tag_regex] at the head of [s]: the text after the
    match, if there is one. *)
Definition match_tag (s : list ascii) : option (list ascii) :=
  match skip_spaces s with
  | c :: s' => if is_open c then skip_to_close s' else None
  | [] => None
  end.

Lemma skip_spaces_length (s : list ascii) :
  (length (skip_spaces s) <= length s)%nat.
Proof.
  induction s as [|c s IH]; simpl; [lia|].
  destruct (py_isspace c); simpl; lia.
Qed.

Lemma skip_to_close_length (s rest : list ascii) :
  skip_to_close s = Some rest -> (length rest < length s)%nat.
Proof.
  revert rest; induction s as [|c s IH]; simpl; intros rest H; [discriminate|].
  destruct (is_close c).
  - injection H as <-. lia.
  - apply IH in H. lia.
Qed.

Lemma match_tag_length (s rest : list ascii) :
  match_tag s = Some rest -> (length rest < length s)%nat.
Proof.
  unfold match_tag. intros H.
  pose proof (skip_spaces_length s) as Hs.
  destruct (skip_spaces s) as [|c s']; [discriminate|].
  destruct (is_open c); [|discriminate].
  apply skip_to_close_length in H. simpl in Hs. lia.
Qed.

(** [_tag_regex.sub('', s)]: scanning from the left, a match is dropped
    and the scan resumes after it; where there is none, one character is
    kept. *)
Equations tag_sub (s : list ascii) : list ascii by wf (length s) lt :=
  tag_sub [] := [];
  tag_sub (c :: s') with inspect (match_tag (c :: s')) := {
    | exist _ (Some rest) _ := tag_sub rest;
    | exist _ None _ := c :: tag_sub s' }.
Next Obligation. apply match_tag_length in e. exact e. Qed.

(** [str.strip()] *)
Definition lstrip (s : list ascii) : list ascii := skip_spaces s.
Definition rstrip (s : list ascii) : list ascii := rev (skip_spaces (rev s)).
Definition strip (s : list ascii) : list ascii := rstrip (lstrip s).

Definition stripped_chars (s : list ascii) : list ascii := strip (tag_sub s).

(** A text holds a tag when an opening bracket is followed, anywhere
    later, by a closing one. *)
Definition has_tag (s : list ascii) : Prop :=
  exists u v w, s = u ++ "["%char :: v ++ "]"%char :: w.

(** A text is trimmed when neither its first nor its last character is
    whitespace. *)
Definition trimmed (s : list ascii) : Prop :=
  (forall c, hd_error s = Some c -> py_isspace c = false)
  /\ (forall c, hd_error (rev s) = Some c -> py_isspace c = false).

Definition _stripped_map_name (map_name : string) : string :=
  string_of_list_ascii (stripped_chars (list_ascii_of_string map_name)).

(** ** Histograms *)

Record histogram (K : Type) : Type := {
  names : list K;
  data : list Z;
  total : Z;
  colors : list string
}.
Arguments names {K} h.
Arguments data {K} h.
Arguments total {K} h.
Arguments colors {K} h.

(** What the global histogram builders return: the triple [[], [], []]
    when there is nothing to count, a histogram otherwise. *)
Inductive stats (K : Type) : Type :=
| EmptyTriple
| Stats (h : histogram K).
Arguments EmptyTriple {K}.
Arguments Stats {K} h.

Definition make_histogram {K : Type} (hist : list (K * Z)) : result (histogram K) :=
  nd <- unzip2 hist ;;
  Ok {| names := fst nd;
        data := snd nd;
        total := sum (snd nd);
        colors := _get_colors (len hist) |}.

(** *** Player faction histogram *)

Definition involves (pid : Z) (o : outcome) : bool :=
  (pid =? profile_id0 o) || (pid =? profile_id1 o).

(** The [CASE] expression of the query; it has no [ELSE]. *)
Definition own_faction (pid : Z) (o : outcome) : option string :=
  if profile_id0 o =? pid then Some (selected_faction_0 o)
  else if profile_id1 o =? pid then Some (selected_faction_1 o)
  else None.

Definition option_string_eqb (a b : option string) : bool :=
  match a, b with
  | Some x, Some y => String.eqb x y
  | None, None => true
  | _, _ => false
  end.

Definition player_faction_query (d : db) (pid : Z) : list (option string * Z) :=
  let joined :=
    left_join (fun o p => (profile_id p =? profile_id0 o)
                          || (profile_id p =? profile_id1 o))
              (outcomes d) (players d) in
  let selected := filter (fun op => involves pid (fst op)) joined in
  map (fun kc => (fst kc, Z.quot (snd kc) 2))
      (group_count option_string_eqb
         (map (fun op => own_faction pid (fst op)) selected)).

Definition _get_player_faction_stats (d : db) (pid : Z)
    : result (histogram (option string)) :=
  let hist := player_faction_query d pid in
  make_histogram hist.

(** *** Player map histogram *)

Record map_stats : Type := {
  map_names : list string;
  win_data : list Z;
  loss_data : list Z
}.

Definition map_wins_query (d : db) (pid : Z) : list (string * Z) :=
  group_count String.eqb
    (map map_title (filter (fun o => profile_id0 o =? pid) (outcomes d))).

Definition map_losses_query (d : db) (pid : Z) : list (string * Z) :=
  map (fun kc => (fst kc, - snd kc))
    (group_count String.eqb
       (map map_title (filter (fun o => profile_id1 o =? pid) (outcomes d)))).

(** [set(a) | set(b)] followed by [sorted]: the distinct elements, in
    increasing order. *)
Definition sorted_union (a b : list string) : list string :=
  sorted String.leb (nodup string_dec (a ++ b)).

Definition _get_player_map_stats (d : db) (pid : Z) : map_stats :=
  let hist_wins := PyDict.of_rows String.eqb (map_wins_query d pid) in
  let hist_losses := PyDict.of_rows String.eqb (map_losses_query d pid) in
  let map_names := sorted_union (PyDict.keys hist_wins) (PyDict.keys hist_losses) in
  let map_win_data := map (fun m => PyDict.get_default String.eqb hist_wins m 0) map_names in
  let map_loss_data := map (fun m => PyDict.get_default String.eqb hist_losses m 0) map_names in
  {| map_names := map_names;
     win_data := map_win_data;
     loss_data := map_loss_data |}.

(** *** Global histograms *)

Definition selected_faction (i : Z) (o : outcome) : string :=
  if i =? 0 then selected_faction_0 o else selected_faction_1 o.

Definition global_faction_query (d : db) (i : Z) : list (string * Z) :=
  group_count String.eqb (map (selected_faction i) (outcomes d)).

(** The dictionary [hist] after the loop over the two slots. *)
Definition global_faction_hist (d : db) : list (string * Z) :=
  fold_left (fun hist i =>
               PyDict.update String.eqb hist
                 (PyDict.of_rows String.eqb (global_faction_query d i)))
            (range 2) [].

Definition _get_global_faction_stats (d : db) : result (stats string) :=
  let hist := global_faction_hist d in
  match hist with
  | [] => Ok EmptyTriple
  | _ => h <- make_histogram hist ;; Ok (Stats h)
  end.

Definition _get_global_map_stats (d : db) : result (stats string) :=
  let hist := group_count String.eqb (map map_title (outcomes d)) in
  match hist with
  | [] => Ok EmptyTriple
  | _ => h <- make_histogram hist ;; Ok (Stats h)
  end.

(** *** Activity timeline *)

Module Activity.
Record t : Type := {
  dates : option (list Z);
  data : option (list Z);
  games_per_day : Q
}.
End Activity.

(** [date(end_time)] of every outcome. *)
Definition outcome_days (d : db) : list Z :=
  map (fun o => sql_date (end_time o)) (outcomes d).

Definition activity_query (d : db) : list (Z * Z) :=
  sorted (fun a b => fst a <=? fst b) (group_count Z.eqb (outcome_days d)).

(** [today] stands for [date.today()]. *)
Definition _get_activity_stats (today : Z) (d : db) : result Activity.t :=
  let outcomes_per_day := activity_query d in
  match outcomes_per_day with
  | [] => Ok {| Activity.dates := None; Activity.data := None;
                Activity.games_per_day := 0 |}
  | first :: _ =>
      let start_date := fst first in
      let end_date := today in
      let nb_days := end_date - start_date in
      let all_days := map (fun n => start_date + n) (range (nb_days + 1)) in
      let db_records := PyDict.of_rows Z.eqb outcomes_per_day in
      let records :=
        PyDict.of_rows Z.eqb
          (map (fun day => (day, PyDict.get_default Z.eqb db_records day 0)) all_days) in
      g <- truediv (sum (PyDict.values records)) (len records) ;;
      Ok {| Activity.dates := Some (PyDict.keys records);
            Activity.data := Some (PyDict.values records);
            Activity.games_per_day := g |}
  end.

(** ** Request-scoped builders

    The two JSON endpoints read the request through [escape], [url_for]
    and the mod registry; these collaborators are parameters here. *)

Module Leaderboard.
Record player_cell : Type := {
  name : string;
  url : string;
  avatar_url : string
}.
Record rating_cell : Type := {
  value : Q;
  diff : Q
}.
Record row : Type := {
  row_id : Z;
  player : player_cell;
  rating : rating_cell;
  played : Z;
  wins : Z;
  losses : Z;
  winrate : Q
}.
End Leaderboard.

Module Replay.
Record t : Type := {
  hash : string;
  url : string;
  supports_analysis : bool
}.
End Replay.

Module Games.
Record opponent_cell : Type := {
  name : string;
  url : string
}.
Record outcome_cell : Type := {
  desc : string;
  diff : Q
}.
Record game : Type := {
  date : Z;
  opponent : option opponent_cell;
  map : string;
  outcome : outcome_cell;
  duration : Z * Z;
  replay : option Replay.t
}.

(** A row of the joined query of [player_games_js]. *)
Record match_row : Type := {
  m_hash : string;
  m_end_time : Z;
  m_duration : Z * Z;
  m_profile_id0 : Z;
  m_profile_id1 : Z;
  diff0 : Q;
  diff1 : Q;
  p0_name : option string;
  p1_name : option string;
  p0_banned : option bool;
  p1_banned : option bool;
  m_map_title : string
}.

(** The variables the loop body assigns from the viewed player's slot. *)
Record view : Type := {
  v_diff : Q;
  v_opponent : string;
  v_opponent_id : Z;
  v_opponent_banned : option bool;
  v_banned : option bool;
  v_outcome : string
}.
End Games.

Section Request.
(** [escape(column)], the column being NULL when the join found no
    player. *)
Variable escape : option string -> string.
(** [url_for('player', profile_id=id) + _args_url()] *)
Variable player_url : Z -> string.
(** [url_for('replay', replay_hash=h) + _args_url()] *)
Variable replay_url : string -> string.
(** [mods[cur_mod].get('supports_analysis', False)] *)
Variable cur_mod_supports_analysis : bool.

(** *** Leaderboard *)

Definition leaderboard_query (d : db) : list player :=
  sorted (fun p q => Qle_bool (rating q) (rating p))
    (filter (fun p => Qltb 0 (rating p) && negb (banned p)) (players d)).

Definition leaderboard_row (i : Z) (p : player) : result Leaderboard.row :=
  ratio <- truediv (wins p) (wins p + losses p) ;;
  Ok {| Leaderboard.row_id := i;
        Leaderboard.player :=
          {| Leaderboard.name := escape (Some (profile_name p));
             Leaderboard.url := player_url (profile_id p);
             Leaderboard.avatar_url := avatar_url p |};
        Leaderboard.rating :=
          {| Leaderboard.value := rating p;
             Leaderboard.diff := (rating p - prv_rating p)%Q |};
        Leaderboard.played := wins p + losses p;
        Leaderboard.wins := wins p;
        Leaderboard.losses := losses p;
        Leaderboard.winrate := (ratio * 100)%Q |}.

(** The loop over [enumerate(cur, 1)]; [i] is the next index and [rows]
    the list built so far. *)
Fixpoint leaderboard_loop (i : Z) (cur : list player)
    (rows : list Leaderboard.row) : result (list Leaderboard.row) :=
  match cur with
  | [] => Ok rows
  | p :: cur' =>
      r <- leaderboard_row i p ;;
      leaderboard_loop (i + 1) cur' (rows ++ [r])
  end.

Definition leaderboard_js (d : db) : result (list Leaderboard.row) :=
  leaderboard_loop 1 (leaderboard_query d) [].

(** *** Player match log *)

Definition player_games_query (d : db) (pid : Z) : list Games.match_row :=
  let j0 := left_join (fun o p => profile_id p =? profile_id0 o)
                      (outcomes d) (players d) in
  let j1 := left_join (fun op p => profile_id p =? profile_id1 (fst op))
                      j0 (players d) in
  let selected := filter (fun r => involves pid (fst (fst r))) j1 in
  let ordered :=
    sorted (fun a b => end_time (fst (fst b)) <=? end_time (fst (fst a)))
           selected in
  map (fun r =>
         let o := fst (fst r) in
         let p0 := snd (fst r) in
         let p1 := snd r in
         {| Games.m_hash := hash o;
            Games.m_end_time := end_time o;
            Games.m_duration := sql_duration (start_time o) (end_time o);
            Games.m_profile_id0 := profile_id0 o;
            Games.m_profile_id1 := profile_id1 o;
            Games.diff0 := (rating_0 o - rating_0_prv o)%Q;
            Games.diff1 := (rating_1 o - rating_1_prv o)%Q;
            Games.p0_name := option_map profile_name p0;
            Games.p1_name := option_map profile_name p1;
            Games.p0_banned := option_map banned p0;
            Games.p1_banned := option_map banned p1;
            Games.m_map_title := map_title o |})
      ordered.

(** The [if]/[elif]/[else] at the top of the loop body; [None] is the
    [continue] branch. *)
Definition view_of (profile_id : Z) (m : Games.match_row) : option Games.view :=
  if Games.m_profile_id0 m =? profile_id then
    Some {| Games.v_diff := Games.diff0 m;
            Games.v_opponent := escape (Games.p1_name m);
            Games.v_opponent_id := Games.m_profile_id1 m;
            Games.v_opponent_banned := Games.p1_banned m;
            Games.v_banned := Games.p0_banned m;
            Games.v_outcome := "Won" |}
  else if Games.m_profile_id1 m =? profile_id then
    Some {| Games.v_diff := Games.diff1 m;
            Games.v_opponent := escape (Games.p0_name m);
            Games.v_opponent_id := Games.m_profile_id0 m;
            Games.v_opponent_banned := Games.p0_banned m;
            Games.v_banned := Games.p1_banned m;
            Games.v_outcome := "Lost" |}
  else None.

Definition game_of (m : Games.match_row) (v : Games.view) : Games.game :=
  {| Games.date := Games.m_end_time m;
     Games.opponent :=
       if negb (truthy (Games.v_opponent_banned v)) then
         Some {| Games.name := Games.v_opponent v;
                 Games.url := player_url (Games.v_opponent_id v) |}
       else None;
     Games.map := _stripped_map_name (Games.m_map_title m);
     Games.outcome :=
       {| Games.desc := Games.v_outcome v; Games.diff := Games.v_diff v |};
     Games.duration := Games.m_duration m;
     Games.replay :=
       if negb (truthy (Games.v_opponent_banned v)) then
         Some {| Replay.hash := Games.m_hash m;
                 Replay.url := replay_url (Games.m_hash m);
                 Replay.supports_analysis := cur_mod_supports_analysis |}
       else None |}.

(** The loop over the cursor; [games] is the list built so far. *)
Fixpoint games_loop (profile_id : Z) (cur : list Games.match_row)
    (games : list Games.game) : list Games.game :=
  match cur with
  | [] => games
  | m :: cur' =>
      match view_of profile_id m with
      | None => games_loop profile_id cur' games
      | Some v =>
          if truthy (Games.v_banned v) then games
          else games_loop profile_id cur' (games ++ [game_of m v])
      end
  end.

Definition player_games_js (d : db) (profile_id : Z) : list Games.game :=
  games_loop profile_id (player_games_query d profile_id) [].
End Request.

(** A match-log row truncates the walk when the viewed player is marked
    banned on it. *)
Definition viewer_banned (escape : option string -> string) (profile_id : Z)
    (m : Games.match_row) : bool :=
  match view_of escape profile_id m with
  | Some v => truthy (Games.v_banned v)
  | None => false
  end.

(** The entry of a row in the match log, when it has one. *)
Definition entry_of (escape : option string -> string) (player_url : Z -> string)
    (replay_url : string -> string) (sa : bool) (profile_id : Z)
    (m : Games.match_row) : list Games.game :=
  match view_of escape profile_id m with
  | Some v => [game_of player_url replay_url sa m v]
  | None => []
  end.

(** ** Player rating curve *)

Record cfg : Type := {
  min_datapoints : Z;
  datapoints : Z
}.

Definition _cfg : cfg := {| min_datapoints := 10; datapoints := 50 |}.

(** A row of the query of [_get_player_ratings]. *)
Record rating_row : Type := {
  r_profile_id0 : Z;
  r_profile_id1 : Z;
  r_rating_0 : Q;
  r_rating_1 : Q
}.

Definition player_ratings_query (d : db) (pid : Z) : list rating_row :=
  let j0 := left_join (fun o p => profile_id p =? profile_id0 o)
                      (outcomes d) (players d) in
  let j1 := left_join (fun op p => profile_id p =? profile_id1 (fst op))
                      j0 (players d) in
  let selected := filter (fun r => involves pid (fst (fst r))) j1 in
  let ordered :=
    sorted (fun a b => end_time (fst (fst a)) <=? end_time (fst (fst b)))
           selected in
  map (fun r =>
         let o := fst (fst r) in
         {| r_profile_id0 := profile_id0 o;
            r_profile_id1 := profile_id1 o;
            r_rating_0 := rating_0 o;
            r_rating_1 := rating_1 o |})
      ordered.

(** The loop over the cursor; [ratings] is the list built so far. *)
Fixpoint ratings_loop (profile_id : Z) (cur : list rating_row)
    (ratings : list Q) : list Q :=
  match cur with
  | [] => ratings
  | m :: cur' =>
      if r_profile_id0 m =? profile_id then
        ratings_loop profile_id cur' (ratings ++ [r_rating_0 m])
      else if r_profile_id1 m =? profile_id then
        ratings_loop profile_id cur' (ratings ++ [r_rating_1 m])
      else ratings_loop profile_id cur' ratings
  end.

(** The ratings of a player before the warm-up entries are dropped. *)
Definition player_rating_sequence (d : db) (pid : Z) : list Q :=
  ratings_loop pid (player_ratings_query d pid) [].

(** What [_get_player_ratings] returns: the pair [[], []] or the two JSON
    texts. *)
Inductive rating_stats : Type :=
| NoRatings
| RatingCurve (labels data : string).

Section RatingCurve.
(** [json.dumps] on a list of strings and on a list of integers. *)
Variable dumps_strings : list string -> string.
Variable dumps_ints : list Z -> string.

Definition _get_player_ratings (d : db) (profile_id : Z) : result rating_stats :=
  let ratings := player_rating_sequence d profile_id in
  let ratings := skipn (Z.to_nat (min_datapoints _cfg)) ratings in
  match ratings with
  | [] => Ok NoRatings
  | _ =>
      let rating_labels := map (fun _ => EmptyString) (range (datapoints _cfg)) in
      let rating_labels := dumps_strings rating_labels in
      ratings <- _scaled ratings (datapoints _cfg) ;;
      let rating_data := dumps_ints ratings in
      Ok (RatingCurve rating_labels rating_data)
  end.
End RatingCurve.

(** The player's own rating on an outcome that involves them. *)
Definition own_rating (pid : Z) (o : outcome) : Q :=
  if profile_id0 o =? pid then rating_0 o else rating_1 o.

(** The outcomes of a player, oldest first. *)
Definition matches_of (d : db) (pid : Z) : list outcome :=
  sorted (fun a b => end_time a <=? end_time b)
         (filter (involves pid) (outcomes d)).

(** ** Player record *)

Record player_info : Type := {
  info_player : player;
  info_rank : Z;
  info_avg_game_duration : option string
}.

Section PlayerInfo.
(** [strftime('%M:%S', AVG(julianday(end_time) - julianday(start_time)))]
    over the start and end times of the selected outcomes; NULL when
    there is none. *)
Variable sql_avg_duration : list (Z * Z) -> option string.

(** The [rank] column: the unbanned players whose rating is at least the
    rating of the first player row with this id. *)
Definition rank_of (d : db) (pid : Z) : Z :=
  match find (fun p => profile_id p =? pid) (players d) with
  | Some p0 =>
      len (filter (fun p => Qle_bool (rating p0) (rating p) && negb (banned p))
                  (players d))
  | None => 0
  end.

Definition _get_player_info (d : db) (pid : Z) : option player_info :=
  match filter (fun p => (profile_id p =? pid) && negb (banned p)) (players d) with
  | [] => None
  | p :: _ =>
      Some {| info_player := p;
              info_rank := rank_of d pid;
              info_avg_game_duration :=
                sql_avg_duration
                  (map (fun o => (start_time o, end_time o))
                       (filter (involves pid) (outcomes d))) |}
  end.
End PlayerInfo.

(** Every player id is registered at most once. *)
Definition unique_ids (d : db) : Prop := NoDup (map profile_id (players d)).

(** The players row of an id, and an outcome joined with the rows of its
    two participants. *)
Definition player_row (d : db) (id : Z) : option player :=
  find (fun p => profile_id p =? id) (players d).

Definition join_players (d : db) (o : outcome)
    : outcome * option player * option player :=
  ((o, player_row d (profile_id0 o)), player_row d (profile_id1 o)).

(** The row of an outcome in the query of [_get_player_ratings]. *)
Definition rating_row_of (o : outcome) : rating_row :=
  {| r_profile_id0 := profile_id0 o;
     r_profile_id1 := profile_id1 o;
     r_rating_0 := rating_0 o;
     r_rating_1 := rating_1 o |}.

(** ** Latest games *)

Module Latest.
Record player_cell : Type := {
  name : string;
  url : string;
  diff : Q
}.
Record game : Type := {
  replay : option Replay.t;
  date : Z;
  duration : Z * Z;
  map : string;
  p0 : option player_cell;
  p1 : option player_cell
}.
End Latest.

(** The joined row of an outcome with the rows of its participants. *)
Definition match_row_of (r : outcome * option player * option player)
    : Games.match_row :=
  let o := fst (fst r) in
  let p0 := snd (fst r) in
  let p1 := snd r in
  {| Games.m_hash := hash o;
     Games.m_end_time := end_time o;
     Games.m_duration := sql_duration (start_time o) (end_time o);
     Games.m_profile_id0 := profile_id0 o;
     Games.m_profile_id1 := profile_id1 o;
     Games.diff0 := (rating_0 o - rating_0_prv o)%Q;
     Games.diff1 := (rating_1 o - rating_1_prv o)%Q;
     Games.p0_name := option_map profile_name p0;
     Games.p1_name := option_map profile_name p1;
     Games.p0_banned := option_map banned p0;
     Games.p1_banned := option_map banned p1;
     Games.m_map_title := map_title o |}.

Definition latest_games_query (d : db) : list Games.match_row :=
  let j0 := left_join (fun o p => profile_id p =? profile_id0 o)
                      (outcomes d) (players d) in
  let j1 := left_join (fun op p => profile_id p =? profile_id1 (fst op))
                      j0 (players d) in
  let ordered :=
    sorted (fun a b => end_time (fst (fst b)) <=? end_time (fst (fst a))) j1 in
  map match_row_of ordered.

Section LatestGames.
Variable escape : option string -> string.
Variable player_url : Z -> string.
Variable replay_url : string -> string.
Variable cur_mod_supports_analysis : bool.

Definition latest_game (m : Games.match_row) : Latest.game :=
  {| Latest.replay :=
       if negb (truthy (Games.p0_banned m) || truthy (Games.p1_banned m)) then
         Some {| Replay.hash := Games.m_hash m;
                 Replay.url := replay_url (Games.m_hash m);
                 Replay.supports_analysis := cur_mod_supports_analysis |}
       else None;
     Latest.date := Games.m_end_time m;
     Latest.duration := Games.m_duration m;
     Latest.map := _stripped_map_name (Games.m_map_title m);
     Latest.p0 :=
       if negb (truthy (Games.p0_banned m)) then
         Some {| Latest.name := escape (Games.p0_name m);
                 Latest.url := player_url (Games.m_profile_id0 m);
                 Latest.diff := Games.diff0 m |}
       else None;
     Latest.p1 :=
       if negb (truthy (Games.p1_banned m)) then
         Some {| Latest.name := escape (Games.p1_name m);
                 Latest.url := player_url (Games.m_profile_id1 m);
                 Latest.diff := Games.diff1 m |}
       else None |}.

(** The loop over the fetched rows; [games] is the list built so far. *)
Fixpoint latest_loop (matches : list Games.match_row)
    (games : list Latest.game) : list Latest.game :=
  match matches with
  | [] => games
  | m :: matches' => latest_loop matches' (games ++ [latest_game m])
  end.

Definition latest_games_js (d : db) : list Latest.game :=
  latest_loop (latest_games_query d) [].
End LatestGames.

(** The outcomes, most recent first. *)
Definition outcomes_latest_first (d : db) : list outcome :=
  sorted (fun a b => end_time b <=? end_time a) (outcomes d).

(** The outcomes of a player, most recent first. *)
Definition matches_latest_first (d : db) (pid : Z) : list outcome :=
  sorted (fun a b => end_time b <=? end_time a)
         (filter (involves pid) (outcomes d)).

(** A player id is banned when its players row says so. *)
Definition id_banned (d : db) (id : Z) : bool :=
  truthy (option_map banned (player_row d id)).

(** ** Replay download *)

(** What [replay] does: it sends the file, or fails on subscripting the
    [None] that [fetchone] returns when no row matches. *)
Inductive replay_response : Type :=
| SendFile (fullpath : string)
| RaiseTypeError.

Definition replay (d : db) (replay_hash : string) : replay_response :=
  match filter (fun o => String.eqb (hash o) replay_hash) (outcomes d) with
  | [] => RaiseTypeError
  | o :: _ => SendFile (filename o)
  end.

(** The factions a player selected, one per outcome that involves them. *)
Definition own_factions (d : db) (pid : Z) : list (option string) :=
  map (own_faction pid) (filter (involves pid) (outcomes d)).

(** The condition of the join in [_get_player_faction_stats]. *)
Definition is_participant (o : outcome) (p : player) : bool :=
  (profile_id p =? profile_id0 o) || (profile_id p =? profile_id1 o).

(** The rows that one outcome contributes to a left join. *)
Definition join_one {A B : Type} (on : A -> B -> bool) (r : list B) (a : A)
    : list (A * option B) :=
  match filter (on a) r with
  | [] => [(a, None)]
  | bs => map (fun b => (a, Some b)) bs
  end.

(** Every count doubled. *)
Definition doubled {K : Type} (rows : list (K * Z)) : list (K * Z) :=
  map (fun kc => (fst kc, 2 * snd kc)) rows.

(** ** Period window *)

Module Calendar.
(** [datetime.date] *)
Record date : Type := {
  year : Z;
  month : Z;
  day : Z
}.
End Calendar.

Definition _DAYS_IN_MONTH : list Z :=
  [-1; 31; 28; 31; 30; 31; 30; 31; 31; 30; 31; 30; 31].

(** [datetime._days_in_month] *)
Definition _days_in_month (year month : Z) : Z :=
  if (month =? 2) && _is_leap year then 29
  else nth (Z.to_nat month) _DAYS_IN_MONTH 0.

(** [date(year, month, day)]: the constructor checks its fields. *)
Definition make_date (year month day : Z) : result Calendar.date :=
  if negb ((1 <=? year) && (year <=? 9999)) then Raise ValueError
  else if negb ((1 <=? month) && (month <=? 12)) then Raise ValueError
  else if negb ((1 <=? day) && (day <=? _days_in_month year month))
       then Raise ValueError
  else Ok {| Calendar.year := year; Calendar.month := month; Calendar.day := day |}.

(** [date.toordinal] *)
Definition toordinal (t : Calendar.date) : Z :=
  _ymd2ord (Calendar.year t) (Calendar.month t) (Calendar.day t).

Definition mdays : list Z := [0; 31; 28; 31; 30; 31; 30; 31; 31; 30; 31; 30; 31].

(** [calendar.weekday]: a year that [datetime.date] cannot hold is
    replaced by a year of the same place in the 400-year cycle. *)
Definition weekday (year month day : Z) : Z :=
  let year := if negb ((1 <=? year) && (year <=? 9999))
              then 2000 + year mod 400 else year in
  (_ymd2ord year month day + 6) mod 7.

(** [calendar.monthrange]: the weekday of the first day of the month and
    the number of days of the month; an illegal month is a [ValueError]. *)
Definition monthrange (year month : Z) : result (Z * Z) :=
  if negb ((1 <=? month) && (month <=? 12)) then Raise ValueError
  else
    let day1 := weekday year month 1 in
    let ndays := nth (Z.to_nat month) mdays 0
                 + (if (month =? 2) && _is_leap year then 1 else 0) in
    Ok (day1, ndays).

Module Period.
Record t : Type := {
  start : Calendar.date;
  stop : Calendar.date;
  duration : string
}.
End Period.

(** [today] stands for [date.today()]; the field [stop] is the entry
    [end] of the dictionary. *)
Definition _get_current_period (today : Calendar.date) : result Period.t :=
  let start_month := Z.land (Calendar.month today - 1) (Z.lnot 1) + 1 in
  let end_month := start_month + 1 in
  range_ <- monthrange (Calendar.year today) end_month ;;
  let end_day := snd range_ in
  s <- make_date (Calendar.year today) start_month 1 ;;
  e <- make_date (Calendar.year today) end_month end_day ;;
  Ok {| Period.start := s; Period.stop := e; Period.duration := "2 months" |}.

(** A date that [datetime.date] can hold. *)
Definition valid_date (t : Calendar.date) : Prop :=
  1 <= Calendar.year t <= 9999
  /\ 1 <= Calendar.month t <= 12
  /\ 1 <= Calendar.day t <= _days_in_month (Calendar.year t) (Calendar.month t).

(** ** Request parameters and menus *)

Module Mods.
(** An entry of the registry [mods]. *)
Record info : Type := {
  label : string;
  icon : option string;
  supports_analysis : option bool
}.
End Mods.

Record request : Type := {
  endpoint : string;
  args : list (string * string)
}.

(** What a lookup in the registry can raise. *)
Inductive attempt (A : Type) : Type :=
| Done (a : A)
| RaiseIndexError.
Arguments Done {A} a.
Arguments RaiseIndexError {A}.

Module Menu.
Record page : Type := {
  caption : string;
  url : string;
  active : bool
}.
Record mod_entry : Type := {
  m_caption : string;
  m_url : string;
  m_icon : option string;
  m_active : bool
}.
Record t : Type := {
  pages : list page;
  mods : option (list mod_entry);
  period : option (list page)
}.
End Menu.

Definition _allowed_periods : list string := ["2m"; "1m"; "all"]%string.

Definition string_in (s : string) (l : list string) : bool :=
  existsb (String.eqb s) l.

(** ['&'.join(l)] *)
Definition join_amp (l : list string) : string := String.concat "&" l.

Section Web.
(** The registry [mods] of the package, in the order of its keys. *)
Variable mods : list (string * Mods.info).
(** [url_for] of an endpoint with its route values, and of a static
    file. *)
Variable url_for : string -> list (string * Z) -> string.
Variable static_url : string -> string.

Definition _allowed_mods : list string := map fst mods.

Definition _get_request_params (req : request)
    : attempt (string * string * string) :=
  match _allowed_mods with
  | [] => RaiseIndexError
  | mod0 :: _ =>
      let mod_ := PyDict.get_default String.eqb (args req) "mod"%string mod0 in
      let period := PyDict.get_default String.eqb (args req) "period"%string "2m"%string in
      let mod_ := if string_in mod_ _allowed_mods then mod_ else mod0 in
      let period := if string_in period ["1m"; "2m"; "all"]%string then period
                    else "2m"%string in
      Done (endpoint req, mod_, period)
  end.

(** The name of the database file that [_db_get] opens. *)
Definition _db_name (req : request) : attempt string :=
  match _get_request_params req with
  | Done (_, mod_, period) =>
      Done ("db-" ++ mod_ ++ "-" ++ period ++ ".sqlite3")%string
  | RaiseIndexError => RaiseIndexError
  end.

(** The dictionary [base_args] of [_args_url] before it is rendered. *)
Definition _args_dict (req : request) (kwargs : list (string * string))
    : list (string * string) :=
  let base_args := [] in
  let period := PyDict.get String.eqb (args req) "period"%string in
  let mod_ := PyDict.get String.eqb (args req) "mod"%string in
  let base_args :=
    match period with
    | Some p => PyDict.set String.eqb base_args "period"%string p
    | None => base_args
    end in
  let base_args :=
    match mod_ with
    | Some m => PyDict.set String.eqb base_args "mod"%string m
    | None => base_args
    end in
  PyDict.update String.eqb base_args kwargs.

Definition _args_url (req : request) (kwargs : list (string * string)) : string :=
  let param_str :=
    join_amp (map (fun kv => (fst kv ++ "=" ++ snd kv)%string)
                  (_args_dict req kwargs)) in
  if String.eqb param_str ""%string then ""%string else ("?" ++ param_str)%string.

Definition period_pages : list string :=
  ["leaderboard"; "latest_games"; "player"; "globalstats"]%string.

(** [_get_menu]; its keyword arguments are the values of the current
    endpoint's route. *)
Definition _get_menu (req : request) (values : list (string * Z))
    : attempt Menu.t :=
  match _get_request_params req with
  | RaiseIndexError => RaiseIndexError
  | Done (cur_endpoint, cur_mod, cur_period) =>
      let pages :=
        map (fun ce =>
               {| Menu.caption := fst ce;
                  Menu.url := (url_for (snd ce) [] ++ _args_url req [])%string;
                  Menu.active := String.eqb (snd ce) cur_endpoint |})
            [("Leaderboard", "leaderboard"); ("Latest games", "latest_games");
             ("Global stats", "globalstats"); ("Information", "info")]%string in
      let mods_menu :=
        map (fun mi =>
               {| Menu.m_caption := Mods.label (snd mi);
                  Menu.m_url :=
                    (url_for cur_endpoint values
                     ++ _args_url req [("mod"%string, fst mi)])%string;
                  Menu.m_icon := option_map static_url (Mods.icon (snd mi));
                  Menu.m_active := String.eqb (fst mi) cur_mod |})
            mods in
      let period_menu :=
        map (fun cp =>
               {| Menu.caption := fst cp;
                  Menu.url :=
                    (url_for cur_endpoint values
                     ++ _args_url req [("period"%string, snd cp)])%string;
                  Menu.active := String.eqb (snd cp) cur_period |})
            [("This period", "2m"); ("All time", "all")]%string in
      Done {| Menu.pages := pages;
              Menu.mods := if 1 <? len mods_menu then Some mods_menu else None;
              Menu.period := if string_in cur_endpoint period_pages
                             then Some period_menu else None |}
  end.
End Web.

(** ** Pages *)

(** The context handed to the template of the player page. *)
Inductive player_page : Type :=
| NoPlayer (profile_id : Z)
| Player (player : player_info) (ajax_url : string)
         (rating_stats : rating_stats)
         (faction_stats : histogram (option string))
         (map_stats : map_stats).

Record globalstats_page : Type := {
  g_faction_stats : stats string;
  g_map_stats : stats string;
  g_activity_stats : Activity.t;
  g_nb_games : Z;
  g_nb_players : Z;
  g_avg_duration : option string
}.

Section Pages.
Variable sql_avg_duration : list (Z * Z) -> option string.
Variable dumps_strings : list string -> string.
Variable dumps_ints : list Z -> string.
(** [url_for('player_games_js', profile_id=id) + _args_url()] *)
Variable games_url : Z -> string.

(** [player(profile_id)], after the database and the menu are obtained. *)
Definition player_view (d : db) (profile_id : Z) : result player_page :=
  match _get_player_info sql_avg_duration d profile_id with
  | None => Ok (NoPlayer profile_id)
  | Some p =>
      let ajax_url := games_url profile_id in
      rating_stats <- _get_player_ratings dumps_strings dumps_ints d profile_id ;;
      faction_stats <- _get_player_faction_stats d profile_id ;;
      let map_stats := _get_player_map_stats d profile_id in
      Ok (Player p ajax_url rating_stats faction_stats map_stats)
  end.

(** [globalstats()], after the database and the menu are obtained;
    [today] stands for [date.today()]. *)
Definition globalstats (today : Z) (d : db) : result globalstats_page :=
  let nb_games := len (outcomes d) in
  let avg_duration :=
    sql_avg_duration (map (fun o => (start_time o, end_time o)) (outcomes d)) in
  let nb_players := len (filter (fun p => negb (banned p)) (players d)) in
  faction_stats <- _get_global_faction_stats d ;;
  map_stats <- _get_global_map_stats d ;;
  activity_stats <- _get_activity_stats today d ;;
  Ok {| g_faction_stats := faction_stats;
        g_map_stats := map_stats;
        g_activity_stats := activity_stats;
        g_nb_games := nb_games;
        g_nb_players := nb_players;
        g_avg_duration := avg_duration |}.
End Pages.

(** ** Sample ledgers *)

(** Collaborators of a request whose names hold no markup character:
    escaping changes nothing, and NULL is rendered as [None]. *)
Definition plain_escape (column : option string) : string :=
  match column with
  | Some s => s
  | None => "None"
  end.

Definition plain_player_url (id : Z) : string :=
  if id =? 1 then "/player/1" else if id =? 2 then "/player/2" else "/player/n".

Definition plain_replay_url (h : string) : string := ("/replay/" ++ h)%string.

Definition mk_player (id : Z) (name : string) (w l : Z) (r : Q) (b : bool) : player :=
  {| profile_id := id; profile_name := name; avatar_url := "";
     wins := w; losses := l; prv_rating := r; rating := r; banned := b |}.

Definition mk_outcome (h : string) (s e : Z) (id0 id1 : Z) (f0 f1 : string)
    (title : string) : outcome :=
  {| hash := h; start_time := s; end_time := e;
     profile_id0 := id0; profile_id1 := id1;
     rating_0 := 1000; rating_0_prv := 990; rating_1 := 1000; rating_1_prv := 1010;
     selected_faction_0 := f0; selected_faction_1 := f1;
     map_title := title; filename := h |}.

Definition noon (year month day : Z) : Z :=
  _ymd2ord year month day * 86400 + 43200.

(** Two players who met twice, each playing each faction once in each
    slot. *)
Definition swapped_factions_db : db :=
  {| players := [mk_player 1 "ann" 1 1 1000 false; mk_player 2 "bob" 1 1 1000 false];
     outcomes :=
       [mk_outcome "h1" (noon 2024 1 1 - 600) (noon 2024 1 1) 1 2 "gdi" "nod" "Ruins [4v4]";
        mk_outcome "h2" (noon 2024 1 4 - 600) (noon 2024 1 4) 2 1 "nod" "gdi" "Open Field"] |}.

(** A registered player who has not played, next to one who has. *)
Definition newcomer_db : db :=
  {| players := [mk_player 1 "ann" 3 1 1200 false; mk_player 2 "new" 0 0 1000 false];
     outcomes := [] |}.

(** Two players with the same rating. *)
Definition tied_db : db :=
  {| players := [mk_player 1 "ann" 3 1 1000 false; mk_player 2 "bob" 2 2 1000 false];
     outcomes := [] |}.

(** Player 1 is banned and met player 2 twice. *)
Definition banned_db : db :=
  {| players := [mk_player 1 "ann" 1 1 1000 true; mk_player 2 "bob" 1 1 1000 false];
     outcomes :=
       [mk_outcome "h1" (noon 2024 1 1 - 600) (noon 2024 1 1) 1 2 "gdi" "nod" "Ruins [4v4]";
        mk_outcome "h2" (noon 2024 1 4 - 600) (noon 2024 1 4) 2 1 "nod" "gdi" "Open Field"] |}.

(** A joined row on which player 2, in slot 0, is marked banned. *)
Definition banned_row : Games.match_row :=
  {| Games.m_hash := "h0"; Games.m_end_time := noon 2023 12 31;
     Games.m_duration := (10, 0);
     Games.m_profile_id0 := 2; Games.m_profile_id1 := 1;
     Games.diff0 := 10; Games.diff1 := - (10);
     Games.p0_name := Some "bob"%string; Games.p1_name := Some "ann"%string;
     Games.p0_banned := Some true; Games.p1_banned := Some false;
     Games.m_map_title := "Ruins [4v4]" |}.

(** Twelve meetings of two players, one a day, the first player's rating
    rising by ten points each time. *)
Definition season_db : db :=
  {| players := [mk_player 1 "ann" 12 0 1110 false; mk_player 2 "bob" 0 12 890 false];
     outcomes :=
       map (fun k =>
              {| hash := "h"; start_time := noon 2024 1 1 + k * 86400 - 600;
                 end_time := noon 2024 1 1 + k * 86400;
                 profile_id0 := 1; profile_id1 := 2;
                 rating_0 := inject_Z (1000 + 10 * k);
                 rating_0_prv := inject_Z (990 + 10 * k);
                 rating_1 := inject_Z (1000 - 10 * k);
                 rating_1_prv := inject_Z (1010 - 10 * k);
                 selected_faction_0 := "gdi"; selected_faction_1 := "nod";
                 map_title := "Ruins [4v4]"; filename := "h" |})
           (range 12) |}.

(** One registered player who met an opponent without players row. *)
Definition guest_db : db :=
  {| players := [mk_player 1 "ann" 1 0 1000 false];
     outcomes :=
       [mk_outcome "h1" (noon 2024 1 1 - 600) (noon 2024 1 1) 1 9 "gdi" "nod" "Ruins"] |}.

(** Stand-ins for [json.dumps] and for the average duration of the store. *)
Definition plain_dumps_strings (l : list string) : string := String.concat "," l.
Definition plain_dumps_ints (l : list Z) : string :=
  String.concat "," (map (fun _ => "n"%string) l).
Definition plain_avg_duration (l : list (Z * Z)) : option string :=
  match l with
  | [] => None
  | _ => Some "10:00"%string
  end.

(** ** Properties *)

(** *** Resampler on the two-point input *)

(** C1 (as the code has it): resampling [[0, 100]] to five points queries
    the positions [i * 2 / 5], that is 0, 0.4, 0.8, 1.2 and 1.6, over the
    sample positions 0 and 1; the last two lie beyond the last sample and
    take its value, so the output is [[0, 40, 80, 100, 100]]. *)
Theorem scaled_two_point :
  Forall2 Qeq
    (map (fun x => (inject_Z (x * len [0; 100]%Q) / inject_Z 5)%Q) (range 5))
    [0; 2 # 5; 4 # 5; 6 # 5; 8 # 5]%Q
  /\ _scaled [0; 100]%Q 5 = Ok [0; 40; 80; 100; 100].
Proof.
  split; [|vm_compute; reflexivity].
  repeat (constructor; [vm_compute; reflexivity|]). constructor.
Qed.

(** The output is not the evenly spread [[0, 25, 50, 75, 100]]. *)
Lemma scaled_two_point_not_quartiles :
  _scaled [0; 100]%Q 5 <> Ok [0; 25; 50; 75; 100].
Proof. vm_compute. discriminate. Qed.

(** *** Facts about the builtins *)

Section SortingFacts.
Context {A : Type} (leb : A -> A -> bool).

Lemma insert_sorted_perm (x : A) (l : list A) :
  Permutation (x :: l) (insert_sorted leb x l).
Proof.
  induction l as [|y l IH]; simpl; [reflexivity|].
  destruct (leb x y); [reflexivity|].
  rewrite perm_swap. constructor. exact IH.
Qed.

Lemma sorted_perm (l : list A) : Permutation l (sorted leb l).
Proof.
  induction l as [|x l IH]; simpl; [constructor|].
  rewrite <- insert_sorted_perm. constructor. exact IH.
Qed.

Lemma sorted_In (x : A) (l : list A) : In x (sorted leb l) <-> In x l.
Proof.
  split; apply Permutation_in; [symmetry|]; apply sorted_perm.
Qed.

Lemma sorted_length (l : list A) : length (sorted leb l) = length l.
Proof. symmetry. apply Permutation_length, sorted_perm. Qed.

Hypothesis leb_total : forall x y, leb x y = true \/ leb y x = true.
Hypothesis leb_trans : forall x y z, leb x y = true -> leb y z = true -> leb x z = true.

Lemma insert_sorted_Sorted (x : A) (l : list A) :
  StronglySorted (fun a b => leb a b = true) l ->
  StronglySorted (fun a b => leb a b = true) (insert_sorted leb x l).
Proof.
  induction 1 as [|y l Hs IH Hy]; simpl.
  - repeat constructor.
  - destruct (leb x y) eqn:E.
    + constructor; [constructor; assumption|].
      constructor; [exact E|].
      rewrite Forall_forall in *. intros z Hz. eauto.
    + constructor; [exact IH|].
      rewrite Forall_forall in *. intros z Hz.
      apply (Permutation_in _ (Permutation_sym (insert_sorted_perm x l))) in Hz.
      destruct Hz as [<-|Hz]; [|auto].
      destruct (leb_total x y) as [H|H]; congruence.
Qed.

Lemma sorted_Sorted (l : list A) :
  StronglySorted (fun a b => leb a b = true) (sorted leb l).
Proof.
  induction l as [|x l IH]; simpl; [constructor|].
  apply insert_sorted_Sorted, IH.
Qed.
End SortingFacts.

Lemma StronglySorted_weaken {A : Type} (R S : A -> A -> Prop) (l : list A) :
  (forall a b, R a b -> S a b) -> StronglySorted R l -> StronglySorted S l.
Proof.
  intros HRS. induction 1 as [|a l Hs IH Ha]; constructor; [exact IH|].
  eapply Forall_impl; [|exact Ha]. intros b. apply HRS.
Qed.

Lemma StronglySorted_nth_error {A : Type} (R : A -> A -> Prop) (l : list A) :
  StronglySorted R l ->
  forall j k a b, (j < k)%nat ->
  nth_error l j = Some a -> nth_error l k = Some b -> R a b.
Proof.
  induction 1 as [|x l Hs IH Hx]; intros j k a b Hjk Ha Hb.
  - destruct j; discriminate.
  - destruct k as [|k]; [lia|]. simpl in Hb. destruct j as [|j]; simpl in Ha.
    + injection Ha as <-. rewrite Forall_forall in Hx. apply Hx.
      eapply nth_error_In. exact Hb.
    + apply (IH j k); [lia|assumption..].
Qed.

Lemma left_join_In_fst {A B : Type} (on : A -> B -> bool) (l : list A)
    (r : list B) (x : A * option B) :
  In x (left_join on l r) -> In (fst x) l.
Proof.
  unfold left_join. rewrite in_flat_map. intros [a [Ha Hx]].
  destruct (filter (on a) r) as [|b bs] eqn:E.
  - destruct Hx as [<-|[]]. exact Ha.
  - apply in_map_iff in Hx. destruct Hx as [b' [<- _]]. exact Ha.
Qed.

Lemma filter_nil_iff {A : Type} (f : A -> bool) (l : list A) :
  (forall x, In x l -> f x = false) -> filter f l = [].
Proof.
  induction l as [|a l IH]; simpl; intros H; [reflexivity|].
  rewrite (H a (or_introl eq_refl)). apply IH. intros x Hx. apply H. now right.
Qed.

(** *** Player faction histogram *)

Lemma player_faction_query_no_match (d : db) (pid : Z) :
  (forall o, In o (outcomes d) -> involves pid o = false) ->
  player_faction_query d pid = [].
Proof.
  intros H. unfold player_faction_query.
  rewrite filter_nil_iff; [reflexivity|].
  intros x Hx. apply H. eapply left_join_In_fst. exact Hx.
Qed.

(** C3 (the code on such players): for a player id that no outcome of the
    ledger involves, the query has no row, the unpacking of the transposed
    histogram fails, and the faction histogram computation raises
    [ValueError] instead of returning an empty histogram. *)
Theorem player_faction_stats_no_match_raises (d : db) (pid : Z) :
  (forall o, In o (outcomes d) -> involves pid o = false) ->
  _get_player_faction_stats d pid = Raise ValueError.
Proof.
  intros H. unfold _get_player_faction_stats.
  rewrite (player_faction_query_no_match d pid H). reflexivity.
Qed.

Lemma player_faction_stats_no_match_raises_witness :
  (forall o, In o (outcomes newcomer_db) -> involves 2 o = false)
  /\ _get_player_faction_stats newcomer_db 2 = Raise ValueError.
Proof.
  assert (H : forall o, In o (outcomes newcomer_db) -> involves 2 o = false)
    by (simpl; intros o []).
  split; [exact H|].
  exact (player_faction_stats_no_match_raises newcomer_db 2 H).
Defined.

Lemma Qltb_lt (x y : Q) : Qltb x y = true <-> (x < y)%Q.
Proof.
  unfold Qltb. rewrite negb_true_iff. split; intros H.
  - apply Qnot_le_lt. intros Hle. apply Qle_bool_iff in Hle. congruence.
  - destruct (Qle_bool y x) eqn:E; [|reflexivity].
    apply Qle_bool_iff in E. exfalso. exact (Qlt_not_le _ _ H E).
Qed.

Lemma truediv_Ok (a b : Z) :
  b <> 0 -> truediv a b = Ok (inject_Z a / inject_Z b)%Q.
Proof. unfold truediv. intros H. apply Z.eqb_neq in H. now rewrite H. Qed.

Lemma truediv_zero (a : Z) : truediv a 0 = Raise ZeroDivisionError.
Proof. reflexivity. Qed.

(** *** Leaderboard *)

Section LeaderboardFacts.
Variable escape : option string -> string.
Variable player_url : Z -> string.

Let row := leaderboard_row escape player_url.
Let loop := leaderboard_loop escape player_url.

Lemma leaderboard_query_In (d : db) (p : player) :
  In p (leaderboard_query d)
  <-> In p (players d) /\ (0 < rating p)%Q /\ banned p = false.
Proof.
  unfold leaderboard_query. rewrite sorted_In, filter_In, andb_true_iff.
  rewrite Qltb_lt, negb_true_iff. tauto.
Qed.

Lemma leaderboard_query_descending (d : db) :
  StronglySorted (fun p q => (rating q <= rating p)%Q) (leaderboard_query d).
Proof.
  unfold leaderboard_query.
  eapply StronglySorted_weaken;
    [| apply (sorted_Sorted (fun p q => Qle_bool (rating q) (rating p)))].
  - intros p q H. apply Qle_bool_iff. exact H.
  - intros p q. destruct (Qle_bool (rating q) (rating p)) eqn:E; [now left|right].
    apply Qle_bool_iff. apply Qlt_le_weak, Qnot_le_lt.
    intros H. apply Qle_bool_iff in H. congruence.
  - intros p q r H1 H2. apply Qle_bool_iff in H1, H2. apply Qle_bool_iff.
    eapply Qle_trans; eassumption.
Qed.

Lemma leaderboard_row_zero_played (i : Z) (p : player) :
  wins p + losses p = 0 -> row i p = Raise ZeroDivisionError.
Proof. intros H. unfold row, leaderboard_row. rewrite H. reflexivity. Qed.

Lemma leaderboard_row_raises (i : Z) (p : player) (e : exn) :
  row i p = Raise e -> e = ZeroDivisionError.
Proof.
  unfold row, leaderboard_row, truediv.
  destruct (wins p + losses p =? 0); simpl; congruence.
Qed.

Lemma leaderboard_loop_zero_played (cur : list player) :
  forall (i : Z) (rows : list Leaderboard.row) (p : player),
  In p cur -> wins p + losses p = 0 ->
  loop i cur rows = Raise ZeroDivisionError.
Proof.
  induction cur as [|q cur IH]; intros i rows p Hin Hp; [destruct Hin|].
  unfold loop. simpl.
  destruct (leaderboard_row escape player_url i q) as [r|e] eqn:E; simpl.
  - destruct Hin as [->|Hin].
    + pose proof (leaderboard_row_zero_played i p Hp) as H.
      unfold row in H. congruence.
    + exact (IH (i + 1) (rows ++ [r]) p Hin Hp).
  - apply leaderboard_row_raises in E. now subst.
Qed.

(** C4 (the code on such records): when the ledger holds a rankable
    player (rating above zero, not banned) with no win and no loss, the
    win-rate division raises [ZeroDivisionError] and the leaderboard
    builder produces no row at all. *)
Theorem leaderboard_unplayed_player_raises (d : db) (p : player) :
  In p (players d) -> (0 < rating p)%Q -> banned p = false ->
  wins p = 0 -> losses p = 0 ->
  leaderboard_js escape player_url d = Raise ZeroDivisionError.
Proof.
  intros Hin Hr Hb Hw Hl. unfold leaderboard_js.
  apply (leaderboard_loop_zero_played _ 1 [] p).
  - apply leaderboard_query_In. tauto.
  - lia.
Qed.

Lemma leaderboard_loop_Ok (cur : list player) :
  forall (i : Z) (rows : list Leaderboard.row),
  Forall (fun p => wins p + losses p <> 0) cur ->
  exists out,
    loop i cur rows = Ok (rows ++ out)
    /\ length out = length cur
    /\ forall k p, nth_error cur k = Some p ->
         exists r, nth_error out k = Some r /\ row (i + Z.of_nat k) p = Ok r.
Proof.
  induction cur as [|q cur IH]; intros i rows Hall.
  - exists []. rewrite app_nil_r. repeat split. intros [|k] p; discriminate.
  - inversion Hall as [|? ? Hq Hall']; subst.
    unfold loop. simpl.
    destruct (leaderboard_row escape player_url i q) as [r|e] eqn:E.
    + simpl. destruct (IH (i + 1) (rows ++ [r]) Hall') as [out [Hloop [Hlen Hnth]]].
      exists (r :: out). unfold loop in Hloop. rewrite Hloop, <- app_assoc.
      repeat split; [simpl; congruence|].
      intros [|k] p Hk; simpl in Hk.
      * injection Hk as <-. exists r. rewrite Z.add_0_r. now split.
      * destruct (Hnth k p Hk) as [r' [Hr' Hrow]]. exists r'. split; [exact Hr'|].
        replace (i + Z.of_nat (S k)) with (i + 1 + Z.of_nat k) by lia. exact Hrow.
    + exfalso. unfold leaderboard_row in E. rewrite (truediv_Ok _ _ Hq) in E.
      discriminate.
Qed.
End LeaderboardFacts.

Lemma leaderboard_unplayed_player_raises_witness :
  leaderboard_js plain_escape plain_player_url newcomer_db
    = Raise ZeroDivisionError.
Proof.
  apply (leaderboard_unplayed_player_raises plain_escape plain_player_url
           newcomer_db (mk_player 2 "new" 0 0 1000 false)).
  - simpl. right. left. reflexivity.
  - reflexivity.
  - reflexivity.
  - reflexivity.
  - reflexivity.
Defined.

Lemma leaderboard_row_inv (escape : option string -> string)
    (player_url : Z -> string) (i : Z) (p : player) (r : Leaderboard.row) :
  leaderboard_row escape player_url i p = Ok r ->
  Leaderboard.row_id r = i
  /\ Leaderboard.value (Leaderboard.rating r) = rating p
  /\ Leaderboard.url (Leaderboard.player r) = player_url (profile_id p)
  /\ Leaderboard.played r = wins p + losses p.
Proof.
  unfold leaderboard_row.
  destruct (truediv (wins p) (wins p + losses p)); simpl; [|discriminate].
  intros H. injection H as <-. simpl. repeat split.
Qed.

(** C7 (amended): when every rankable player has played, the leaderboard
    is produced; its rows carry the consecutive rank positions 1, 2, ...;
    every row is the row of a player of the ledger whose rating is above
    zero and who is not banned; and a row with a strictly higher rating has
    a strictly smaller rank position. *)
Theorem leaderboard_ranked_descending (escape : option string -> string)
    (player_url : Z -> string) (d : db) :
  (forall p, In p (players d) -> (0 < rating p)%Q -> banned p = false ->
             wins p + losses p <> 0) ->
  exists rows,
    leaderboard_js escape player_url d = Ok rows
    /\ (forall k r, nth_error rows k = Some r ->
          Leaderboard.row_id r = Z.of_nat k + 1)
    /\ (forall r, In r rows ->
          exists p, In p (players d) /\ (0 < rating p)%Q /\ banned p = false
                    /\ Leaderboard.value (Leaderboard.rating r) = rating p
                    /\ Leaderboard.url (Leaderboard.player r)
                       = player_url (profile_id p))
    /\ (forall r1 r2, In r1 rows -> In r2 rows ->
          (Leaderboard.value (Leaderboard.rating r2)
           < Leaderboard.value (Leaderboard.rating r1))%Q ->
          Leaderboard.row_id r1 < Leaderboard.row_id r2).
Proof.
  intros Hplayed.
  assert (Hall : Forall (fun p => wins p + losses p <> 0) (leaderboard_query d)).
  { apply Forall_forall. intros p Hp. apply leaderboard_query_In in Hp.
    destruct Hp as [Hin [Hr Hb]]. now apply Hplayed. }
  destruct (leaderboard_loop_Ok escape player_url (leaderboard_query d) 1 [] Hall)
    as [rows [Hloop [Hlen Hnth]]].
  simpl in Hloop.
  assert (Hback : forall k r, nth_error rows k = Some r ->
            exists p, nth_error (leaderboard_query d) k = Some p
                      /\ leaderboard_row escape player_url (1 + Z.of_nat k) p = Ok r).
  { intros k r Hk.
    assert (Hlt : (k < length (leaderboard_query d))%nat).
    { rewrite <- Hlen. apply nth_error_Some. congruence. }
    destruct (nth_error (leaderboard_query d) k) as [p|] eqn:Ep;
      [|apply nth_error_None in Ep; lia].
    destruct (Hnth k p Ep) as [r' [Hr' Hrow]].
    exists p. split; [reflexivity|]. congruence. }
  exists rows. split; [exact Hloop|]. split; [|split].
  - intros k r Hk. destruct (Hback k r Hk) as [p [_ Hrow]].
    apply leaderboard_row_inv in Hrow. lia.
  - intros r Hr. apply In_nth_error in Hr. destruct Hr as [k Hk].
    destruct (Hback k r Hk) as [p [Hp Hrow]].
    apply nth_error_In in Hp. apply leaderboard_query_In in Hp.
    apply leaderboard_row_inv in Hrow. exists p. tauto.
  - intros r1 r2 H1 H2 Hlt.
    apply In_nth_error in H1, H2. destruct H1 as [j Hj], H2 as [k Hk].
    destruct (Hback j r1 Hj) as [p1 [Hp1 Hrow1]].
    destruct (Hback k r2 Hk) as [p2 [Hp2 Hrow2]].
    apply leaderboard_row_inv in Hrow1, Hrow2.
    destruct Hrow1 as [Hid1 [Hv1 _]], Hrow2 as [Hid2 [Hv2 _]].
    rewrite Hv1, Hv2 in Hlt. rewrite Hid1, Hid2.
    destruct (Nat.lt_trichotomy j k) as [Hjk|[Hjk|Hjk]]; [lia| |].
    + subst k. rewrite Hp1 in Hp2. injection Hp2 as ->.
      exfalso. exact (Qlt_irrefl _ Hlt).
    + exfalso.
      pose proof (StronglySorted_nth_error _ _ (leaderboard_query_descending d)
                    k j p2 p1 Hjk Hp2 Hp1) as Hle.
      simpl in Hle. exact (Qlt_not_le _ _ Hlt Hle).
Qed.

Lemma leaderboard_ranked_descending_witness :
  exists rows,
    leaderboard_js plain_escape plain_player_url tied_db = Ok rows
    /\ (forall k r, nth_error rows k = Some r ->
          Leaderboard.row_id r = Z.of_nat k + 1)
    /\ (forall r, In r rows ->
          exists p, In p (players tied_db) /\ (0 < rating p)%Q /\ banned p = false
                    /\ Leaderboard.value (Leaderboard.rating r) = rating p
                    /\ Leaderboard.url (Leaderboard.player r)
                       = plain_player_url (profile_id p))
    /\ (forall r1 r2, In r1 rows -> In r2 rows ->
          (Leaderboard.value (Leaderboard.rating r2)
           < Leaderboard.value (Leaderboard.rating r1))%Q ->
          Leaderboard.row_id r1 < Leaderboard.row_id r2).
Proof.
  apply (leaderboard_ranked_descending plain_escape plain_player_url tied_db).
  intros p [<-|[<-|[]]] _ _; discriminate.
Defined.

(** With two players of equal rating, the second row has a rating at
    least that of the first and yet a larger rank position. *)
Lemma leaderboard_tie_rank_not_monotone :
  exists rows p q,
    leaderboard_js plain_escape plain_player_url tied_db = Ok rows
    /\ In p rows /\ In q rows
    /\ (Leaderboard.value (Leaderboard.rating q)
        <= Leaderboard.value (Leaderboard.rating p))%Q
    /\ ~ Leaderboard.row_id p <= Leaderboard.row_id q.
Proof.
  eexists. eexists. eexists. split; [vm_compute; reflexivity|].
  split; [right; left; reflexivity|].
  split; [left; reflexivity|].
  split; [vm_compute; discriminate|].
  vm_compute. intros H. apply H. reflexivity.
Qed.

(** *** Match log *)

Section MatchLogFacts.
Variable escape : option string -> string.
Variable player_url : Z -> string.
Variable replay_url : string -> string.
Variable sa : bool.

Let loop := games_loop escape player_url replay_url sa.
Let entry := entry_of escape player_url replay_url sa.

(** Rows before the first truncating one each add their entry, in
    order. *)
Lemma games_loop_no_ban (pid : Z) (rows : list Games.match_row) :
  forall games,
  Forall (fun m => viewer_banned escape pid m = false) rows ->
  loop pid rows games = games ++ flat_map (entry pid) rows.
Proof.
  induction rows as [|m rows IH]; intros games Hall; simpl.
  - now rewrite app_nil_r.
  - inversion Hall as [|? ? Hm Hall']; subst.
    unfold loop, entry, entry_of, viewer_banned in *. simpl.
    destruct (view_of escape pid m) as [v|].
    + rewrite Hm. rewrite (IH _ Hall'). now rewrite <- app_assoc.
    + exact (IH _ Hall').
Qed.

Lemma games_loop_stops (pid : Z) (pre : list Games.match_row) :
  forall games m post,
  viewer_banned escape pid m = true ->
  loop pid (pre ++ m :: post) games = loop pid pre games.
Proof.
  induction pre as [|r pre IH]; intros games m post Hm; unfold loop in *; simpl.
  - unfold viewer_banned in Hm.
    destruct (view_of escape pid m) as [v|]; [|discriminate]. now rewrite Hm.
  - destruct (view_of escape pid r) as [v|].
    + destruct (truthy (Games.v_banned v)); [reflexivity|]. now apply IH.
    + now apply IH.
Qed.

(** C5: a row on which the viewed player is marked banned ends the walk,
    whatever follows it: the log is that of the rows before it; when none
    of those is such a row, it holds exactly their entries, in order; and
    when the viewed player is marked banned on every row of the query, the
    log of the endpoint is empty. *)
Theorem player_games_ban_truncation (pid : Z) :
  (forall pre m post,
     viewer_banned escape pid m = true ->
     loop pid (pre ++ m :: post) [] = loop pid pre []
     /\ (Forall (fun r => viewer_banned escape pid r = false) pre ->
         loop pid (pre ++ m :: post) [] = flat_map (entry pid) pre))
  /\ (forall d,
        Forall (fun m => viewer_banned escape pid m = true)
               (player_games_query d pid) ->
        player_games_js escape player_url replay_url sa d pid = []).
Proof.
  split.
  - intros pre m post Hm. split.
    + now apply games_loop_stops.
    + intros Hpre. rewrite (games_loop_stops pid pre [] m post Hm).
      now rewrite games_loop_no_ban.
  - intros d Hall. unfold player_games_js.
    destruct (player_games_query d pid) as [|m rows]; [reflexivity|].
    inversion Hall as [|? ? Hm _]; subst.
    exact (games_loop_stops pid [] [] m rows Hm).
Qed.
End MatchLogFacts.

Lemma player_games_ban_truncation_witness :
  games_loop plain_escape plain_player_url plain_replay_url true 2
      (player_games_query banned_db 2 ++ banned_row :: player_games_query banned_db 2) []
    = flat_map (entry_of plain_escape plain_player_url plain_replay_url true 2)
               (player_games_query banned_db 2)
  /\ player_games_js plain_escape plain_player_url plain_replay_url true banned_db 1
     = [].
Proof.
  pose proof (player_games_ban_truncation plain_escape plain_player_url
                plain_replay_url true) as H.
  split.
  - apply (proj1 (H 2)).
    + reflexivity.
    + vm_compute. repeat constructor.
  - apply (proj2 (H 1)). vm_compute. repeat constructor.
Defined.

(** *** Resampler *)

Lemma Qltb_ge (x y : Q) : Qltb x y = false <-> (y <= x)%Q.
Proof.
  unfold Qltb. rewrite negb_false_iff. apply Qle_bool_iff.
Qed.

Lemma py_round_near (x : Q) :
  py_round x = Qfloor x \/ py_round x = Qfloor x + 1.
Proof.
  unfold py_round.
  destruct (x - inject_Z (Qfloor x) ?= 1 # 2)%Q; auto.
  destruct (Z.even (Qfloor x)); auto.
Qed.

Lemma py_round_monotone (x y : Q) : (x <= y)%Q -> py_round x <= py_round y.
Proof.
  intros Hxy.
  pose proof (Qfloor_resp_le x y Hxy) as Hfl.
  destruct (Z.eq_dec (Qfloor x) (Qfloor y)) as [E|N].
  - unfold py_round. rewrite <- E.
    destruct (Qcompare_spec (x - inject_Z (Qfloor x)) (1 # 2)) as [Hx|Hx|Hx];
    destruct (Qcompare_spec (y - inject_Z (Qfloor x)) (1 # 2)) as [Hy|Hy|Hy];
    try destruct (Z.even (Qfloor x)); try lia; exfalso; lra.
  - destruct (py_round_near x), (py_round_near y); lia.
Qed.

Lemma range_length (n : Z) : length (range n) = Z.to_nat n.
Proof. unfold range. now rewrite length_map, length_seq. Qed.

Lemma range_pos (n : Z) :
  1 <= n -> range n = 0 :: map Z.of_nat (seq 1 (Z.to_nat n - 1)).
Proof.
  intros H. unfold range.
  replace (Z.to_nat n) with (S (Z.to_nat n - 1)) at 1 by lia. reflexivity.
Qed.

Lemma seq_increasing (n s : nat) :
  Sorted Qlt (map inject_Z (map Z.of_nat (seq s n))).
Proof.
  revert s. induction n as [|n IH]; intros s; simpl; constructor.
  - apply IH.
  - destruct n; simpl; constructor.
    rewrite <- Zlt_Qlt. lia.
Qed.

Lemma segment_bounds (x x0 x1 y0 y1 lo hi : Q) :
  (x0 <= x)%Q -> (x < x1)%Q ->
  (lo <= y0 <= hi)%Q -> (lo <= y1 <= hi)%Q ->
  (lo <= (y1 - y0) / (x1 - x0) * (x - x0) + y0 <= hi)%Q.
Proof.
  intros H0 H1 [Hl0 Hh0] [Hl1 Hh1].
  assert (Hd : ~ (x1 - x0 == 0)%Q) by (intros E; lra).
  pose proof (Qmult_div_r (y1 - y0) (x1 - x0) Hd) as Hs.
  set (s := ((y1 - y0) / (x1 - x0))%Q) in *.
  destruct (Qlt_le_dec s 0) as [Hneg|Hpos]; split; nra.
Qed.

Lemma interp_from_step (x x0 x1 y0 y1 : Q) (xp fp : list Q) :
  interp_from x (x0 :: x1 :: xp) (y0 :: y1 :: fp)
  = if Qltb x x1 then
      if Qeq_bool x0 x then y0
      else ((y1 - y0) / (x1 - x0) * (x - x0) + y0)%Q
    else interp_from x (x1 :: xp) (y1 :: fp).
Proof. reflexivity. Qed.

Lemma interp_from_bounds (lo hi x : Q) (xp : list Q) :
  forall fp,
  Sorted Qlt xp -> length xp = length fp -> xp <> [] ->
  (hd 0 xp <= x)%Q ->
  Forall (fun y => lo <= y <= hi)%Q fp ->
  (lo <= interp_from x xp fp <= hi)%Q.
Proof.
  induction xp as [|x0 xp IH]; intros fp Hs Hlen Hne Hhd Hfp; [congruence|].
  destruct fp as [|y0 fp]; [discriminate|].
  inversion Hfp as [|? ? Hy0 Hfp']; subst.
  destruct xp as [|x1 xp]; [destruct fp; [exact Hy0|discriminate]|].
  destruct fp as [|y1 fp]; [discriminate|].
  inversion Hfp' as [|? ? Hy1 _]; subst.
  inversion Hs as [|? ? Hs' Hrel]; subst.
  simpl in Hhd. rewrite interp_from_step.
  destruct (Qltb x x1) eqn:E1.
  - destruct (Qeq_bool x0 x); [exact Hy0|].
    apply Qltb_lt in E1. now apply segment_bounds.
  - apply Qltb_ge in E1. apply IH; auto; discriminate.
Qed.

Lemma last_Forall {A : Type} (P : A -> Prop) (l : list A) (d : A) :
  l <> [] -> Forall P l -> P (last l d).
Proof.
  induction l as [|x l IH]; intros Hne Hall; [congruence|].
  inversion Hall; subst. destruct l; [assumption|].
  apply IH; [discriminate|assumption].
Qed.

Lemma interp1_bounds (lo hi x : Q) (xp fp : list Q) :
  Sorted Qlt xp -> length xp = length fp -> xp <> [] ->
  Forall (fun y => lo <= y <= hi)%Q fp ->
  (lo <= interp1 x xp fp <= hi)%Q.
Proof.
  intros Hs Hlen Hne Hfp. unfold interp1.
  assert (Hfne : fp <> []) by (destruct xp, fp; try discriminate; congruence).
  destruct (Qltb x (hd 0%Q xp)) eqn:E0.
  - destruct fp; [congruence|]. inversion Hfp; subst. assumption.
  - destruct (Qltb (last xp 0%Q) x).
    + now apply last_Forall.
    + apply Qltb_ge in E0. now apply interp_from_bounds.
Qed.

Lemma py_min_le (a : list Q) : Forall (fun y => py_min a <= y)%Q a.
Proof.
  destruct a as [|x l]; [constructor|]. unfold py_min.
  assert (H : forall l b,
            (fold_left (fun best y => if Qltb y best then y else best) l b <= b)%Q
            /\ Forall (fun y =>
                 fold_left (fun best y => if Qltb y best then y else best) l b <= y)%Q l).
  { clear. induction l as [|y l IH]; intros b; simpl.
    - split; [apply Qle_refl|constructor].
    - destruct (IH (if Qltb y b then y else b)) as [H1 H2].
      destruct (Qltb y b) eqn:E.
      + apply Qltb_lt in E. split; [lra|]. constructor; assumption.
      + apply Qltb_ge in E. split; [assumption|]. constructor; [lra|assumption]. }
  destruct (H l x) as [H1 H2]. constructor; assumption.
Qed.

Lemma py_max_ge (a : list Q) : Forall (fun y => y <= py_max a)%Q a.
Proof.
  destruct a as [|x l]; [constructor|]. unfold py_max.
  assert (H : forall l b,
            (b <= fold_left (fun best y => if Qltb best y then y else best) l b)%Q
            /\ Forall (fun y =>
                 y <= fold_left (fun best y => if Qltb best y then y else best) l b)%Q l).
  { clear. induction l as [|y l IH]; intros b; simpl.
    - split; [apply Qle_refl|constructor].
    - destruct (IH (if Qltb b y then y else b)) as [H1 H2].
      destruct (Qltb b y) eqn:E.
      + apply Qltb_lt in E. split; [lra|]. constructor; assumption.
      + apply Qltb_ge in E. split; [assumption|]. constructor; [lra|assumption]. }
  destruct (H l x) as [H1 H2]. constructor; assumption.
Qed.

Lemma range_len {A : Type} (a : list A) :
  range (len a) = map Z.of_nat (seq 0 (length a)).
Proof. unfold range, len. now rewrite Nat2Z.id. Qed.

Lemma sample_positions_nonneg (n s : nat) :
  Forall (fun x => 0 <= x)%Q (map inject_Z (map Z.of_nat (seq s n))).
Proof.
  apply Forall_forall. intros x Hx.
  apply in_map_iff in Hx. destruct Hx as [z [<- Hz]].
  apply in_map_iff in Hz. destruct Hz as [k [<- _]].
  change 0%Q with (inject_Z 0). rewrite <- Zle_Qle. lia.
Qed.

Lemma np_interp_samples (xs a : list Q) :
  a <> [] ->
  np_interp xs (map inject_Z (range (len a))) a
  = Ok (map (fun x => interp1 x (map inject_Z (range (len a))) a) xs).
Proof.
  intros Hne. unfold np_interp.
  assert (Hlen : length (map inject_Z (range (len a))) = length a).
  { rewrite range_len, !length_map, length_seq. reflexivity. }
  rewrite Hlen, Nat.eqb_refl.
  destruct (map inject_Z (range (len a))); [|reflexivity].
  destruct a; [congruence|discriminate].
Qed.

Lemma interp1_at_origin (x a0 : Q) (rest : list Q) :
  (x == 0)%Q ->
  interp1 x (map inject_Z (range (len (a0 :: rest)))) (a0 :: rest) = a0.
Proof.
  intros Hx. rewrite range_len. unfold interp1.
  assert (H0 : Qltb x (hd 0%Q (map inject_Z (map Z.of_nat (seq 0 (length (a0 :: rest))))))
               = false).
  { apply Qltb_ge. simpl. rewrite Hx. apply Qle_refl. }
  rewrite H0.
  assert (H1 : Qltb (last (map inject_Z (map Z.of_nat (seq 0 (length (a0 :: rest))))) 0%Q) x
               = false).
  { apply Qltb_ge. rewrite Hx.
    apply (last_Forall (fun y => 0 <= y)%Q); [discriminate|].
    apply sample_positions_nonneg. }
  rewrite H1.
  destruct rest as [|a1 rest]; [reflexivity|].
  cbn [length seq map]. rewrite interp_from_step.
  assert (H2 : Qltb x (inject_Z (Z.of_nat 1)) = true).
  { apply Qltb_lt. rewrite Hx. reflexivity. }
  rewrite H2.
  assert (H3 : Qeq_bool (inject_Z (Z.of_nat 0)) x = true).
  { apply Qeq_bool_iff. rewrite Hx. reflexivity. }
  now rewrite H3.
Qed.

(** C10: for a non-empty input and a target length [m >= 1], the
    resampler returns a list of exactly [m] integers, whose first element
    is the rounded first input element, and all of whose elements lie
    between the rounded minimum and the rounded maximum of the input. *)
Theorem scaled_shape (a0 : Q) (rest : list Q) (m : Z) :
  1 <= m ->
  exists out,
    _scaled (a0 :: rest) m = Ok out
    /\ len out = m
    /\ hd_error out = Some (py_round a0)
    /\ Forall (fun v => py_round (py_min (a0 :: rest)) <= v
                        <= py_round (py_max (a0 :: rest))) out.
Proof.
  intros Hm. unfold _scaled.
  rewrite np_interp_samples by discriminate. simpl bind.
  eexists. split; [reflexivity|]. split; [|split].
  - unfold len. rewrite !length_map, range_length. lia.
  - rewrite (range_pos m Hm). cbn [map hd_error].
    rewrite interp1_at_origin; [reflexivity|].
    rewrite Z.mul_0_l. unfold Qdiv. apply Qmult_0_l.
  - rewrite !Forall_map. apply Forall_forall. intros i _.
    assert (Hb : (py_min (a0 :: rest)
                  <= interp1 (inject_Z (i * len (a0 :: rest)) / inject_Z m)
                       (map inject_Z (range (len (a0 :: rest)))) (a0 :: rest)
                  <= py_max (a0 :: rest))%Q).
    { apply interp1_bounds.
      - rewrite range_len. apply seq_increasing.
      - rewrite range_len, !length_map, length_seq. reflexivity.
      - rewrite range_len. discriminate.
      - pose proof (py_min_le (a0 :: rest)) as Hlo.
        pose proof (py_max_ge (a0 :: rest)) as Hhi.
        rewrite Forall_forall in *. intros y Hy. split; auto. }
    destruct Hb as [Hlo Hhi]. split; apply py_round_monotone; assumption.
Qed.

Lemma scaled_shape_witness :
  exists out,
    _scaled [1200; 1180 # 1; 1215 # 1]%Q 5 = Ok out
    /\ len out = 5
    /\ hd_error out = Some (py_round 1200)
    /\ Forall (fun v => py_round (py_min [1200; 1180 # 1; 1215 # 1]%Q) <= v
                        <= py_round (py_max [1200; 1180 # 1; 1215 # 1]%Q)) out.
Proof. apply (scaled_shape 1200 [1180 # 1; 1215 # 1]%Q 5). lia. Defined.

(** *** Grouping and dictionaries *)

Section GroupFacts.
Context {K : Type} (eqb : K -> K -> bool).
Hypothesis eqb_spec : forall x y, reflect (x = y) (eqb x y).

Lemma occurrences_nonneg (k : K) (keys : list K) : 0 <= occurrences eqb k keys.
Proof. unfold occurrences, len. lia. Qed.

Lemma occurrences_cons (k x : K) (keys : list K) :
  occurrences eqb k (x :: keys)
  = (if eqb k x then 1 else 0) + occurrences eqb k keys.
Proof.
  unfold occurrences, len. simpl. destruct (eqb k x); simpl length; lia.
Qed.

Lemma occurrences_zero (k : K) (keys : list K) :
  ~ In k keys -> occurrences eqb k keys = 0.
Proof.
  intros H. unfold occurrences. rewrite filter_nil_iff; [reflexivity|].
  intros x Hx. destruct (eqb_spec k x); [subst; contradiction|reflexivity].
Qed.

Lemma get_bump (rows : list (K * Z)) (k k' : K) :
  PyDict.get eqb (bump eqb rows k) k'
  = if eqb k k' then Some (PyDict.get_default eqb rows k 0 + 1)
    else PyDict.get eqb rows k'.
Proof.
  unfold PyDict.get_default.
  induction rows as [|[k0 c] rows IH]; simpl.
  - reflexivity.
  - destruct (eqb_spec k0 k) as [->|Hk0]; simpl.
    + destruct (eqb_spec k k'); reflexivity.
    + rewrite IH. destruct (eqb_spec k k') as [->|Hk].
      * destruct (eqb_spec k0 k'); [contradiction|reflexivity].
      * reflexivity.
Qed.

Lemma get_default_bump (rows : list (K * Z)) (k k' : K) :
  PyDict.get_default eqb (bump eqb rows k) k' 0
  = PyDict.get_default eqb rows k' 0 + (if eqb k' k then 1 else 0).
Proof.
  unfold PyDict.get_default at 1. rewrite get_bump.
  destruct (eqb_spec k k') as [->|Hk].
  - destruct (eqb_spec k' k'); [lia|contradiction].
  - destruct (eqb_spec k' k); [subst; contradiction|].
    unfold PyDict.get_default. destruct (PyDict.get eqb rows k'); lia.
Qed.

Lemma get_default_fold_bump (keys : list K) :
  forall rows k,
  PyDict.get_default eqb (fold_left (bump eqb) keys rows) k 0
  = PyDict.get_default eqb rows k 0 + occurrences eqb k keys.
Proof.
  induction keys as [|x keys IH]; intros rows k; simpl.
  - unfold occurrences, len. simpl. lia.
  - rewrite IH, get_default_bump, occurrences_cons. lia.
Qed.

Lemma get_default_group_count (keys : list K) (k : K) :
  PyDict.get_default eqb (group_count eqb keys) k 0 = occurrences eqb k keys.
Proof. unfold group_count. now rewrite get_default_fold_bump. Qed.

Lemma bump_keys (rows : list (K * Z)) (k : K) :
  map fst (bump eqb rows k)
  = if existsb (fun k0 => eqb k0 k) (map fst rows) then map fst rows
    else map fst rows ++ [k].
Proof.
  induction rows as [|[k0 c] rows IH]; simpl; [reflexivity|].
  destruct (eqb k0 k); simpl; [reflexivity|].
  rewrite IH. destruct (existsb _ _); reflexivity.
Qed.

Lemma existsb_eqb_In (k : K) (l : list K) :
  existsb (fun k0 => eqb k0 k) l = true <-> In k l.
Proof.
  rewrite existsb_exists. split.
  - intros [x [Hx E]]. destruct (eqb_spec x k); [now subst|discriminate].
  - intros H. exists k. split; [exact H|]. now destruct (eqb_spec k k).
Qed.

Lemma fold_bump_keys (keys : list K) :
  forall rows,
  NoDup (map fst rows) ->
  NoDup (map fst (fold_left (bump eqb) keys rows))
  /\ forall k, In k (map fst (fold_left (bump eqb) keys rows))
               <-> In k (map fst rows) \/ In k keys.
Proof.
  induction keys as [|x keys IH]; intros rows Hnd; simpl.
  - split; [exact Hnd|]. tauto.
  - assert (Hb : NoDup (map fst (bump eqb rows x))
                 /\ forall k, In k (map fst (bump eqb rows x))
                              <-> In k (map fst rows) \/ k = x).
    { rewrite bump_keys.
      destruct (existsb (fun k0 => eqb k0 x) (map fst rows)) eqn:E.
      - apply existsb_eqb_In in E. split; [exact Hnd|].
        intros k. split; [tauto|]. intros [H| ->]; assumption.
      - assert (Hx : ~ In x (map fst rows)).
        { intros H. apply existsb_eqb_In in H. congruence. }
        split.
        + apply NoDup_app; [exact Hnd|repeat constructor; simpl; tauto|].
          intros k Hk [<-|[]]. contradiction.
        + intros k. rewrite in_app_iff. simpl. intuition auto. }
    destruct Hb as [Hnd' Hin]. destruct (IH _ Hnd') as [H1 H2].
    split; [exact H1|]. intros k. rewrite H2, Hin. intuition auto.
Qed.

Lemma group_count_keys (keys : list K) :
  NoDup (map fst (group_count eqb keys))
  /\ forall k, In k (map fst (group_count eqb keys)) <-> In k keys.
Proof.
  destruct (fold_bump_keys keys [] (NoDup_nil _)) as [H1 H2].
  split; [exact H1|]. intros k. unfold group_count. rewrite H2. simpl. tauto.
Qed.

(** Distinct keys: the comprehension inserts each row at the end. *)
Lemma set_fresh {V : Type} (d : list (K * V)) (k : K) (v : V) :
  ~ In k (map fst d) -> PyDict.set eqb d k v = d ++ [(k, v)].
Proof.
  induction d as [|[k0 v0] d IH]; simpl; intros H; [reflexivity|].
  destruct (eqb_spec k0 k) as [->|_]; [tauto|]. rewrite IH; tauto.
Qed.

Lemma update_distinct {V : Type} (rows : list (K * V)) :
  forall d, NoDup (map fst (d ++ rows)) -> PyDict.update eqb d rows = d ++ rows.
Proof.
  unfold PyDict.update.
  induction rows as [|[k v] rows IH]; intros d Hnd; simpl.
  - now rewrite app_nil_r.
  - assert (Hk : ~ In k (map fst d)).
    { rewrite map_app in Hnd. simpl in Hnd.
      apply NoDup_remove_2 in Hnd. rewrite in_app_iff in Hnd. tauto. }
    rewrite (set_fresh d k v Hk).
    rewrite IH; rewrite <- app_assoc; [reflexivity|exact Hnd].
Qed.

Lemma of_rows_distinct {V : Type} (rows : list (K * V)) :
  NoDup (map fst rows) -> PyDict.of_rows eqb rows = rows.
Proof. intros H. unfold PyDict.of_rows. now rewrite update_distinct. Qed.

Lemma of_rows_group_count (keys : list K) :
  PyDict.of_rows eqb (group_count eqb keys) = group_count eqb keys.
Proof. apply of_rows_distinct, group_count_keys. Qed.
End GroupFacts.

(** *** Player map histogram *)

Lemma get_default_negated (rows : list (string * Z)) (m : string) :
  PyDict.get_default String.eqb (map (fun kc => (fst kc, - snd kc)) rows) m 0
  = - PyDict.get_default String.eqb rows m 0.
Proof.
  unfold PyDict.get_default.
  induction rows as [|[k c] rows IH]; simpl; [reflexivity|].
  destruct (String.eqb k m); [reflexivity|exact IH].
Qed.

Lemma sorted_union_In (a b : list string) (m : string) :
  In m (sorted_union a b) <-> In m a \/ In m b.
Proof. unfold sorted_union. now rewrite sorted_In, nodup_In, in_app_iff. Qed.

Lemma hist_wins_get (d : db) (pid : Z) (m : string) :
  PyDict.get_default String.eqb
    (PyDict.of_rows String.eqb (map_wins_query d pid)) m 0
  = occurrences String.eqb m
      (map map_title (filter (fun o => profile_id0 o =? pid) (outcomes d))).
Proof.
  unfold map_wins_query.
  rewrite (of_rows_group_count String.eqb String.eqb_spec).
  apply (get_default_group_count String.eqb String.eqb_spec).
Qed.

Lemma negated_keys (rows : list (string * Z)) :
  map fst (map (fun kc => (fst kc, - snd kc)) rows) = map fst rows.
Proof. rewrite map_map. reflexivity. Qed.

Lemma hist_losses_get (d : db) (pid : Z) (m : string) :
  PyDict.get_default String.eqb
    (PyDict.of_rows String.eqb (map_losses_query d pid)) m 0
  = - occurrences String.eqb m
        (map map_title (filter (fun o => profile_id1 o =? pid) (outcomes d))).
Proof.
  unfold map_losses_query.
  rewrite (of_rows_distinct String.eqb String.eqb_spec).
  - rewrite get_default_negated. f_equal.
    apply (get_default_group_count String.eqb String.eqb_spec).
  - rewrite negated_keys.
    apply (group_count_keys String.eqb String.eqb_spec).
Qed.

(** C9: in the map histogram of any player, the win list holds, for each
    listed map, the number of outcomes on that map with the player in slot
    0, and the loss list the negated number of those with the player in
    slot 1; so every win count is at least zero, every loss count at most
    zero, and a map that is absent from one side has zero there.  The
    listed maps are those of either side. *)
Theorem player_map_stats_signs (d : db) (pid : Z) :
  let s := _get_player_map_stats d pid in
  let won := map map_title (filter (fun o => profile_id0 o =? pid) (outcomes d)) in
  let lost := map map_title (filter (fun o => profile_id1 o =? pid) (outcomes d)) in
  win_data s = map (fun m => occurrences String.eqb m won) (map_names s)
  /\ loss_data s = map (fun m => - occurrences String.eqb m lost) (map_names s)
  /\ Forall (fun x => 0 <= x) (win_data s)
  /\ Forall (fun x => x <= 0) (loss_data s)
  /\ (forall i m, nth_error (map_names s) i = Some m -> ~ In m won ->
        nth_error (win_data s) i = Some 0)
  /\ (forall i m, nth_error (map_names s) i = Some m -> ~ In m lost ->
        nth_error (loss_data s) i = Some 0)
  /\ (forall m, In m (map_names s) <-> In m won \/ In m lost).
Proof.
  intros s won lost.
  assert (Hw : win_data s = map (fun m => occurrences String.eqb m won) (map_names s)).
  { unfold s, _get_player_map_stats. cbn [win_data map_names].
    apply map_ext. intros m. apply hist_wins_get. }
  assert (Hl : loss_data s
               = map (fun m => - occurrences String.eqb m lost) (map_names s)).
  { unfold s, _get_player_map_stats. cbn [loss_data map_names].
    apply map_ext. intros m. apply hist_losses_get. }
  split; [exact Hw|]. split; [exact Hl|]. repeat split.
  - rewrite Hw, Forall_map. apply Forall_forall. intros m _.
    apply occurrences_nonneg.
  - rewrite Hl, Forall_map. apply Forall_forall. intros m _.
    pose proof (occurrences_nonneg String.eqb m lost). lia.
  - intros i m Hi Hm. rewrite Hw, nth_error_map, Hi. simpl.
    now rewrite (occurrences_zero String.eqb String.eqb_spec).
  - intros i m Hi Hm. rewrite Hl, nth_error_map, Hi. simpl.
    now rewrite (occurrences_zero String.eqb String.eqb_spec).
  - unfold s, _get_player_map_stats. cbn [map_names].
    rewrite sorted_union_In. unfold PyDict.keys.
    unfold map_wins_query, map_losses_query.
    rewrite (of_rows_group_count String.eqb String.eqb_spec).
    rewrite (of_rows_distinct String.eqb String.eqb_spec)
      by (rewrite negated_keys; apply (group_count_keys String.eqb String.eqb_spec)).
    rewrite negated_keys.
    rewrite !(proj2 (group_count_keys String.eqb String.eqb_spec _)). tauto.
  - unfold s, _get_player_map_stats. cbn [map_names].
    rewrite sorted_union_In. unfold PyDict.keys.
    unfold map_wins_query, map_losses_query.
    rewrite (of_rows_group_count String.eqb String.eqb_spec).
    rewrite (of_rows_distinct String.eqb String.eqb_spec)
      by (rewrite negated_keys; apply (group_count_keys String.eqb String.eqb_spec)).
    rewrite negated_keys.
    rewrite !(proj2 (group_count_keys String.eqb String.eqb_spec _)). tauto.
Qed.

(** *** Activity timeline *)

Lemma sum_from (l : list Z) (a : Z) : fold_left Z.add l a = a + sum l.
Proof.
  unfold sum. revert a. induction l as [|x l IH]; intros a; simpl; [lia|].
  rewrite (IH (a + x)), (IH x). lia.
Qed.

Lemma sum_cons (x : Z) (l : list Z) : sum (x :: l) = x + sum l.
Proof. unfold sum at 1. simpl. apply sum_from. Qed.

Lemma sum_map_add {A : Type} (f g : A -> Z) (l : list A) :
  sum (map (fun x => f x + g x) l) = sum (map f l) + sum (map g l).
Proof.
  induction l as [|x l IH]; simpl; [reflexivity|].
  rewrite !sum_cons, IH. lia.
Qed.

Lemma sum_indicator_absent (x : Z) (l : list Z) :
  ~ In x l -> sum (map (fun day => if day =? x then 1 else 0) l) = 0.
Proof.
  induction l as [|y l IH]; simpl; intros H; [reflexivity|].
  rewrite sum_cons, IH by tauto.
  destruct (Z.eqb_spec y x); [subst; tauto|reflexivity].
Qed.

Lemma sum_indicator (x : Z) (l : list Z) :
  NoDup l -> In x l -> sum (map (fun day => if day =? x then 1 else 0) l) = 1.
Proof.
  induction 1 as [|y l Hy Hnd IH]; simpl; intros Hin; [destruct Hin|].
  rewrite sum_cons. destruct (Z.eqb_spec y x) as [->|Hne].
  - now rewrite sum_indicator_absent.
  - destruct Hin as [E|Hin]; [contradiction|]. now rewrite IH.
Qed.

Lemma sum_occurrences (days keys : list Z) :
  NoDup days -> (forall k, In k keys -> In k days) ->
  sum (map (fun day => occurrences Z.eqb day keys) days) = len keys.
Proof.
  intros Hnd. induction keys as [|x keys IH]; intros Hsub.
  - unfold occurrences, len. simpl.
    induction days as [|y days IHd]; [reflexivity|].
    simpl. rewrite sum_cons. inversion Hnd; subst. now rewrite IHd.
  - rewrite (map_ext _ (fun day => (if day =? x then 1 else 0)
                                   + occurrences Z.eqb day keys))
      by (intros day; apply occurrences_cons).
    rewrite sum_map_add, sum_indicator, IH.
    + unfold len. simpl length. lia.
    + intros k Hk. apply Hsub. now right.
    + exact Hnd.
    + apply Hsub. now left.
Qed.

Lemma NoDup_map_inj {A B : Type} (f : A -> B) (l : list A) :
  (forall x y, f x = f y -> x = y) -> NoDup l -> NoDup (map f l).
Proof.
  intros Hinj. induction 1 as [|x l Hx Hnd IH]; simpl; constructor; [|exact IH].
  intros H. apply in_map_iff in H. destruct H as [y [E Hy]].
  apply Hinj in E. now subst.
Qed.

Lemma days_from_NoDup (start n : Z) :
  NoDup (map (fun k => start + k) (range n)).
Proof.
  unfold range. rewrite map_map. apply NoDup_map_inj; [|apply seq_NoDup].
  intros x y H. lia.
Qed.

Lemma days_from_In (start n day : Z) :
  In day (map (fun k => start + k) (range n)) <-> start <= day < start + n.
Proof.
  unfold range. rewrite map_map, in_map_iff. split.
  - intros [i [<- Hi]]. apply in_seq in Hi. lia.
  - intros H. exists (Z.to_nat (day - start)). split; [lia|].
    apply in_seq. lia.
Qed.

Section LookupFacts.
Context {K V : Type} (eqb : K -> K -> bool).
Hypothesis eqb_spec : forall x y, reflect (x = y) (eqb x y).

Lemma get_Some_In (rows : list (K * V)) (k : K) (v : V) :
  PyDict.get eqb rows k = Some v -> In (k, v) rows.
Proof.
  induction rows as [|[k0 v0] rows IH]; simpl; [discriminate|].
  destruct (eqb_spec k0 k) as [->|_].
  - intros H. injection H as ->. now left.
  - intros H. right. now apply IH.
Qed.

Lemma get_None_keys (rows : list (K * V)) (k : K) :
  PyDict.get eqb rows k = None <-> ~ In k (map fst rows).
Proof.
  induction rows as [|[k0 v0] rows IH]; simpl; [tauto|].
  destruct (eqb_spec k0 k) as [->|Hne].
  - split; [discriminate|tauto].
  - rewrite IH. tauto.
Qed.

Lemma In_get_Some (rows : list (K * V)) (k : K) (v : V) :
  NoDup (map fst rows) -> In (k, v) rows -> PyDict.get eqb rows k = Some v.
Proof.
  induction rows as [|[k0 v0] rows IH]; simpl; intros Hnd Hin; [destruct Hin|].
  inversion Hnd as [|? ? Hk0 Hnd']; subst.
  destruct Hin as [E|Hin].
  - injection E as -> ->. now destruct (eqb_spec k k).
  - destruct (eqb_spec k0 k) as [->|_]; [|now apply IH].
    exfalso. apply Hk0. apply in_map_iff. now exists (k, v).
Qed.

Lemma get_default_perm (l l' : list (K * V)) (k : K) (v0 : V) :
  NoDup (map fst l) -> Permutation l l' ->
  PyDict.get_default eqb l' k v0 = PyDict.get_default eqb l k v0.
Proof.
  intros Hnd Hp. unfold PyDict.get_default.
  assert (Hnd' : NoDup (map fst l')).
  { eapply Permutation_NoDup; [|exact Hnd]. now apply Permutation_map. }
  destruct (PyDict.get eqb l k) as [v|] eqn:E.
  - apply get_Some_In in E. apply (Permutation_in _ Hp) in E.
    now rewrite (In_get_Some _ _ _ Hnd' E).
  - apply get_None_keys in E.
    assert (E' : ~ In k (map fst l')).
    { intros H. apply E. eapply Permutation_in; [|exact H].
      apply Permutation_sym. now apply Permutation_map. }
    apply get_None_keys in E'. now rewrite E'.
Qed.

Lemma keys_of_assignments (f : K -> V) (l : list K) :
  map fst (map (fun k => (k, f k)) l) = l.
Proof. rewrite map_map. simpl. apply map_id. Qed.
End LookupFacts.

Lemma activity_query_perm (d : db) :
  Permutation (group_count Z.eqb (outcome_days d)) (activity_query d).
Proof. apply sorted_perm. Qed.

Lemma activity_query_keys (d : db) :
  NoDup (map fst (activity_query d))
  /\ forall k, In k (map fst (activity_query d)) <-> In k (outcome_days d).
Proof.
  destruct (group_count_keys Z.eqb Z.eqb_spec (outcome_days d)) as [Hnd Hin].
  pose proof (Permutation_map fst (activity_query_perm d)) as Hp.
  split.
  - eapply Permutation_NoDup; eassumption.
  - intros k. rewrite <- Hin. split; apply Permutation_in;
      [apply Permutation_sym|]; exact Hp.
Qed.

Lemma activity_query_first (d : db) (first : Z * Z) (rest : list (Z * Z)) :
  activity_query d = first :: rest ->
  In (fst first) (outcome_days d)
  /\ forall k, In k (outcome_days d) -> fst first <= k.
Proof.
  intros E. destruct (activity_query_keys d) as [_ Hin]. split.
  - apply Hin. rewrite E. now left.
  - intros k Hk. apply Hin in Hk. rewrite E in Hk.
    assert (Hs : StronglySorted (fun a b => (fst a <=? fst b) = true)
                   (first :: rest)).
    { rewrite <- E. apply sorted_Sorted.
      - intros x y. rewrite !Z.leb_le. lia.
      - intros x y z. rewrite !Z.leb_le. lia. }
    inversion Hs as [|? ? _ Hall]; subst.
    destruct Hk as [<-|Hk]; [lia|].
    apply in_map_iff in Hk. destruct Hk as [r [<- Hr]].
    rewrite Forall_forall in Hall. apply Z.leb_le. now apply Hall.
Qed.

Lemma activity_query_lookup (d : db) (day : Z) :
  PyDict.get_default Z.eqb (PyDict.of_rows Z.eqb (activity_query d)) day 0
  = occurrences Z.eqb day (outcome_days d).
Proof.
  destruct (activity_query_keys d) as [Hnd _].
  rewrite (of_rows_distinct Z.eqb Z.eqb_spec _ Hnd).
  rewrite (get_default_perm Z.eqb Z.eqb_spec _ _ day 0
             (proj1 (group_count_keys Z.eqb Z.eqb_spec _))
             (activity_query_perm d)).
  apply (get_default_group_count Z.eqb Z.eqb_spec).
Qed.

Lemma filter_all {A : Type} (f : A -> bool) (l : list A) :
  Forall (fun x => f x = true) l -> filter f l = l.
Proof.
  induction 1 as [|x l Hx _ IH]; simpl; [reflexivity|]. now rewrite Hx, IH.
Qed.

Lemma activity_stats_unfold (today : Z) (d : db) (first : Z * Z)
    (rest : list (Z * Z)) :
  activity_query d = first :: rest ->
  _get_activity_stats today d
  = (g <- truediv
            (sum (map (fun day => occurrences Z.eqb day (outcome_days d))
                      (map (fun n => fst first + n)
                           (range (today - fst first + 1)))))
            (len (range (today - fst first + 1))) ;;
     Ok {| Activity.dates :=
             Some (map (fun n => fst first + n) (range (today - fst first + 1)));
           Activity.data :=
             Some (map (fun day => occurrences Z.eqb day (outcome_days d))
                       (map (fun n => fst first + n)
                            (range (today - fst first + 1))));
           Activity.games_per_day := g |}).
Proof.
  intros E. unfold _get_activity_stats. rewrite E. cbv iota. rewrite <- E.
  rewrite (map_ext _ (fun day => (day, occurrences Z.eqb day (outcome_days d))))
    by (intros day; now rewrite activity_query_lookup).
  rewrite (of_rows_distinct Z.eqb Z.eqb_spec)
    by (rewrite keys_of_assignments; apply days_from_NoDup).
  unfold PyDict.keys, PyDict.values.
  rewrite keys_of_assignments, map_map. cbn [snd].
  unfold len. rewrite !length_map. reflexivity.
Qed.

Lemma activity_query_nil (d : db) :
  activity_query d = [] <-> outcomes d = [].
Proof.
  destruct (activity_query_keys d) as [_ Hin]. split; intros E.
  - destruct (outcomes d) as [|o os] eqn:Eo; [reflexivity|].
    rewrite E in Hin. exfalso. apply (Hin (sql_date (end_time o))).
    unfold outcome_days. rewrite Eo. now left.
  - destruct (activity_query d) as [|r rows]; [reflexivity|].
    exfalso. assert (H : In (fst r) (outcome_days d)) by (apply Hin; now left).
    unfold outcome_days in H. rewrite E in H. destruct H.
Qed.

Lemma occurrences_filter (f : Z -> bool) (day : Z) (keys : list Z) :
  f day = true ->
  occurrences Z.eqb day (filter f keys) = occurrences Z.eqb day keys.
Proof.
  intros Hf. unfold occurrences. f_equal.
  induction keys as [|k keys IH]; simpl; [reflexivity|].
  destruct (f k) eqn:Ek; simpl.
  - destruct (day =? k); [now f_equal|exact IH].
  - destruct (Z.eqb_spec day k) as [->|_]; [congruence|exact IH].
Qed.

Lemma activity_stats_window (today : Z) (d : db) :
  outcomes d <> [] ->
  exists start,
    In start (outcome_days d)
    /\ (forall k, In k (outcome_days d) -> start <= k)
    /\ (start <= today ->
        _get_activity_stats today d
        = Ok {| Activity.dates :=
                  Some (map (fun n => start + n) (range (today - start + 1)));
                Activity.data :=
                  Some (map (fun day => occurrences Z.eqb day (outcome_days d))
                            (map (fun n => start + n)
                                 (range (today - start + 1))));
                Activity.games_per_day :=
                  (inject_Z (len (filter (fun k => k <=? today) (outcome_days d)))
                   / inject_Z (today - start + 1))%Q |}).
Proof.
  intros Hne.
  destruct (activity_query d) as [|first rest] eqn:E.
  { apply activity_query_nil in E. congruence. }
  destruct (activity_query_first d first rest E) as [Hstart Hmin].
  exists (fst first). split; [exact Hstart|]. split; [exact Hmin|].
  intros Hle. rewrite (activity_stats_unfold today d first rest E).
  assert (Hlen : len (range (today - fst first + 1)) = today - fst first + 1).
  { unfold len. rewrite range_length. lia. }
  assert (Hsum : sum (map (fun day => occurrences Z.eqb day (outcome_days d))
                          (map (fun n => fst first + n)
                               (range (today - fst first + 1))))
                 = len (filter (fun k => k <=? today) (outcome_days d))).
  { rewrite <- (sum_occurrences
                  (map (fun n => fst first + n) (range (today - fst first + 1)))
                  (filter (fun k => k <=? today) (outcome_days d))).
    - f_equal. apply map_ext_in. intros day Hday.
      apply days_from_In in Hday. symmetry.
      apply (occurrences_filter (fun k => k <=? today)). apply Z.leb_le. lia.
    - apply days_from_NoDup.
    - intros k Hk. apply filter_In in Hk. destruct Hk as [Hk Hkt].
      apply Z.leb_le in Hkt. apply days_from_In.
      pose proof (Hmin k Hk). lia. }
  rewrite Hlen, Hsum, truediv_Ok by lia. reflexivity.
Qed.

(** C6: for a ledger with at least one outcome whose earliest day is not
    after today, the timeline lists every day from the earliest outcome
    day through today, the number of outcomes of each of these days (zero
    where there is none), and as mean the number of outcomes dated up to
    today divided by the number of listed days; when no outcome is dated
    after today that is the number of all outcomes divided by the number
    of listed days.  For outcomes on 2024-01-01 and 2024-01-04 only and
    today 2024-01-04 this gives four consecutive days, the counts
    [[1, 0, 0, 1]] and the mean one half. *)
Theorem activity_stats_filled :
  (forall (today : Z) (d : db),
     outcomes d <> [] ->
     exists start,
       In start (outcome_days d)
       /\ (forall k, In k (outcome_days d) -> start <= k)
       /\ (start <= today ->
           _get_activity_stats today d
           = Ok {| Activity.dates :=
                     Some (map (fun n => start + n) (range (today - start + 1)));
                   Activity.data :=
                     Some (map (fun day => occurrences Z.eqb day (outcome_days d))
                               (map (fun n => start + n)
                                    (range (today - start + 1))));
                   Activity.games_per_day :=
                     (inject_Z (len (filter (fun k => k <=? today)
                                            (outcome_days d)))
                      / inject_Z (today - start + 1))%Q |})
       /\ ((forall k, In k (outcome_days d) -> k <= today) ->
           _get_activity_stats today d
           = Ok {| Activity.dates :=
                     Some (map (fun n => start + n) (range (today - start + 1)));
                   Activity.data :=
                     Some (map (fun day => occurrences Z.eqb day (outcome_days d))
                               (map (fun n => start + n)
                                    (range (today - start + 1))));
                   Activity.games_per_day :=
                     (inject_Z (len (outcomes d))
                      / inject_Z (today - start + 1))%Q |}))
  /\ (exists g,
        _get_activity_stats (_ymd2ord 2024 1 4) swapped_factions_db
        = Ok {| Activity.dates :=
                  Some [_ymd2ord 2024 1 1; _ymd2ord 2024 1 2;
                        _ymd2ord 2024 1 3; _ymd2ord 2024 1 4];
                Activity.data := Some [1; 0; 0; 1];
                Activity.games_per_day := g |}
        /\ (g == 1 # 2)%Q).
Proof.
  split; [|exists (2 # 4)%Q; split; vm_compute; reflexivity].
  intros today d Hne.
  destruct (activity_stats_window today d Hne) as [start [Hstart [Hmin Hwin]]].
  exists start. split; [exact Hstart|]. split; [exact Hmin|].
  split; [exact Hwin|].
  intros Htoday. rewrite Hwin by (apply Htoday; exact Hstart).
  rewrite (filter_all (fun k => k <=? today) (outcome_days d)).
  - unfold outcome_days, len. now rewrite length_map.
  - apply Forall_forall. intros k Hk. apply Z.leb_le. now apply Htoday.
Qed.

Lemma activity_stats_filled_witness :
  (exists start,
     In start (outcome_days swapped_factions_db)
     /\ _get_activity_stats (_ymd2ord 2024 1 2) swapped_factions_db
        = Ok {| Activity.dates :=
                  Some (map (fun n => start + n)
                            (range (_ymd2ord 2024 1 2 - start + 1)));
                Activity.data :=
                  Some (map (fun day =>
                               occurrences Z.eqb day
                                 (outcome_days swapped_factions_db))
                            (map (fun n => start + n)
                                 (range (_ymd2ord 2024 1 2 - start + 1))));
                Activity.games_per_day :=
                  (inject_Z (len (filter (fun k => k <=? _ymd2ord 2024 1 2)
                                         (outcome_days swapped_factions_db)))
                   / inject_Z (_ymd2ord 2024 1 2 - start + 1))%Q |})
  /\ (exists start,
        In start (outcome_days swapped_factions_db)
        /\ _get_activity_stats (_ymd2ord 2024 1 6) swapped_factions_db
           = Ok {| Activity.dates :=
                     Some (map (fun n => start + n)
                               (range (_ymd2ord 2024 1 6 - start + 1)));
                   Activity.data :=
                     Some (map (fun day =>
                                  occurrences Z.eqb day
                                    (outcome_days swapped_factions_db))
                               (map (fun n => start + n)
                                    (range (_ymd2ord 2024 1 6 - start + 1))));
                   Activity.games_per_day :=
                     (inject_Z (len (outcomes swapped_factions_db))
                      / inject_Z (_ymd2ord 2024 1 6 - start + 1))%Q |}).
Proof.
  split.
  - destruct (proj1 activity_stats_filled (_ymd2ord 2024 1 2)
                swapped_factions_db ltac:(discriminate))
      as [start [Hstart [Hmin [Hwin _]]]].
    exists start. split; [exact Hstart|]. apply Hwin.
    apply Z.le_trans with (_ymd2ord 2024 1 1).
    + apply Hmin. vm_compute. left. reflexivity.
    + vm_compute. discriminate.
  - destruct (proj1 activity_stats_filled (_ymd2ord 2024 1 6)
                swapped_factions_db ltac:(discriminate))
      as [start [Hstart [_ [_ Hall]]]].
    exists start. split; [exact Hstart|]. apply Hall.
    intros k [<-|[<-|[]]]; vm_compute; discriminate.
Defined.

(** With outcomes on 2024-01-01 and 2024-01-04 and today 2024-01-02, the
    timeline has two days and the mean one half: the outcome dated after
    today is not counted, so the mean is not the number of outcomes (two)
    divided by the number of listed days (two). *)
Lemma activity_stats_mean_not_total :
  exists g,
    _get_activity_stats (_ymd2ord 2024 1 2) swapped_factions_db
    = Ok {| Activity.dates := Some [_ymd2ord 2024 1 1; _ymd2ord 2024 1 2];
            Activity.data := Some [1; 0];
            Activity.games_per_day := g |}
    /\ (g == 1 # 2)%Q
    /\ ~ (g == inject_Z (len (outcomes swapped_factions_db))
               / inject_Z (len [_ymd2ord 2024 1 1; _ymd2ord 2024 1 2]))%Q.
Proof.
  exists (1 # 2)%Q. split; [vm_compute; reflexivity|].
  split; [reflexivity|]. vm_compute. discriminate.
Qed.

(** *** Map-title stripping *)

Lemma tag_sub_clause (c : ascii) (s : list ascii) (y : option (list ascii))
    (e : match_tag (c :: s) = y) :
  tag_sub_unfold_clause_2 c s (exist _ y e)
  = match y with
    | Some rest => tag_sub rest
    | None => c :: tag_sub s
    end.
Proof. destruct y; simp tag_sub; reflexivity. Qed.

Lemma tag_sub_cons (c : ascii) (s : list ascii) :
  tag_sub (c :: s)
  = match match_tag (c :: s) with
    | Some rest => tag_sub rest
    | None => c :: tag_sub s
    end.
Proof. rewrite tag_sub_equation_2. unfold inspect. apply tag_sub_clause. Qed.

(** Induction on the text along the scan of [tag_sub]. *)
Lemma tag_sub_ind (P : list ascii -> Prop) :
  P [] ->
  (forall c s rest, match_tag (c :: s) = Some rest -> P rest -> P (c :: s)) ->
  (forall c s, match_tag (c :: s) = None -> P s -> P (c :: s)) ->
  forall s, P s.
Proof.
  intros Hnil Hsome Hnone s.
  assert (H : forall n s, (length s <= n)%nat -> P s).
  { clear s. induction n as [|n IH]; intros s Hlen.
    - destruct s; [exact Hnil|simpl in Hlen; lia].
    - destruct s as [|c s]; [exact Hnil|].
      destruct (match_tag (c :: s)) as [rest|] eqn:E.
      + apply (Hsome c s rest E). apply IH.
        apply match_tag_length in E. simpl in *. lia.
      + apply (Hnone c s E). apply IH. simpl in Hlen. lia. }
  apply (H (length s)). lia.
Qed.

Lemma is_open_eq (c : ascii) : is_open c = true <-> c = "["%char.
Proof. unfold is_open. apply Ascii.eqb_eq. Qed.

Lemma is_close_eq (c : ascii) : is_close c = true <-> c = "]"%char.
Proof. unfold is_close. apply Ascii.eqb_eq. Qed.

Lemma skip_spaces_suffix (s : list ascii) :
  exists pre, s = pre ++ skip_spaces s.
Proof.
  induction s as [|c s [pre IH]]; simpl; [now exists []|].
  destruct (py_isspace c).
  - exists (c :: pre). simpl. now f_equal.
  - now exists [].
Qed.

Lemma skip_to_close_split (s rest : list ascii) :
  skip_to_close s = Some rest -> exists v, s = v ++ "]"%char :: rest.
Proof.
  revert rest. induction s as [|c s IH]; simpl; intros rest H; [discriminate|].
  destruct (is_close c) eqn:E.
  - injection H as <-. apply is_close_eq in E. subst. now exists [].
  - destruct (IH rest H) as [v ->]. now exists (c :: v).
Qed.

Lemma skip_to_close_None (s : list ascii) :
  skip_to_close s = None -> ~ In "]"%char s.
Proof.
  induction s as [|c s IH]; simpl; intros H; [tauto|].
  destruct (is_close c) eqn:E; [discriminate|].
  intros [->|Hin]; [discriminate E|]. now apply IH.
Qed.

Lemma match_tag_split (s rest : list ascii) :
  match_tag s = Some rest ->
  exists pre v, s = pre ++ "["%char :: v ++ "]"%char :: rest.
Proof.
  unfold match_tag. intros H.
  destruct (skip_spaces_suffix s) as [pre Hs].
  destruct (skip_spaces s) as [|c s']; [discriminate|].
  destruct (is_open c) eqn:E; [|discriminate].
  apply is_open_eq in E. subst c.
  destruct (skip_to_close_split _ _ H) as [v ->].
  now exists pre, v.
Qed.

Lemma tag_sub_In (x : ascii) (s : list ascii) : In x (tag_sub s) -> In x s.
Proof.
  induction s as [|c s rest E IH|c s E IH] using tag_sub_ind.
  - now rewrite tag_sub_equation_1.
  - rewrite tag_sub_cons, E. intros H. apply IH in H.
    destruct (match_tag_split _ _ E) as [pre [v ->]].
    rewrite in_app_iff. right. right. rewrite in_app_iff. right. now right.
  - rewrite tag_sub_cons, E. intros [->|H]; [now left|right; auto].
Qed.

Lemma tag_sub_no_tag (s : list ascii) : ~ has_tag (tag_sub s).
Proof.
  induction s as [|c s rest E IH|c s E IH] using tag_sub_ind.
  - rewrite tag_sub_equation_1. intros [[|? u] [v [w H]]]; discriminate.
  - now rewrite tag_sub_cons, E.
  - rewrite tag_sub_cons, E. intros [[|c' u] [v [w H]]].
    + injection H as -> H.
      assert (Hs : skip_to_close s = None).
      { unfold match_tag in E. simpl in E. exact E. }
      apply skip_to_close_None in Hs. apply Hs. apply (tag_sub_In _ s).
      rewrite H, in_app_iff. right. now left.
    + injection H as -> H. apply IH. now exists u, v, w.
Qed.

Lemma no_tag_fixed (s : list ascii) : ~ has_tag s -> tag_sub s = s.
Proof.
  induction s as [|c s rest E IH|c s E IH] using tag_sub_ind; intros H.
  - apply tag_sub_equation_1.
  - exfalso. apply H. destruct (match_tag_split _ _ E) as [pre [v Hs]].
    now exists pre, v, rest.
  - rewrite tag_sub_cons, E. f_equal. apply IH.
    intros [u [v [w ->]]]. apply H. now exists (c :: u), v, w.
Qed.

Lemma skip_spaces_head (s : list ascii) (c : ascii) :
  hd_error (skip_spaces s) = Some c -> py_isspace c = false.
Proof.
  induction s as [|x s IH]; simpl; [discriminate|].
  destruct (py_isspace x) eqn:E; [exact IH|].
  simpl. intros H. injection H as <-. exact E.
Qed.

Lemma skip_spaces_clean (s : list ascii) :
  (forall c, hd_error s = Some c -> py_isspace c = false) ->
  skip_spaces s = s.
Proof.
  destruct s as [|x s]; simpl; intros H; [reflexivity|].
  now rewrite (H x eq_refl).
Qed.

Lemma skip_spaces_snoc (l : list ascii) (c : ascii) :
  py_isspace c = false -> skip_spaces (l ++ [c]) = skip_spaces l ++ [c].
Proof.
  intros Hc. induction l as [|x l IH]; simpl.
  - now rewrite Hc.
  - destruct (py_isspace x); [exact IH|reflexivity].
Qed.

Lemma rstrip_keeps_head (s : list ascii) :
  (forall c, hd_error s = Some c -> py_isspace c = false) ->
  forall c, hd_error (rstrip s) = Some c -> py_isspace c = false.
Proof.
  unfold rstrip. destruct s as [|x s]; simpl; intros H c; [discriminate|].
  pose proof (H x eq_refl) as Hx.
  rewrite (skip_spaces_snoc _ _ Hx), rev_app_distr. simpl.
  intros E. injection E as <-. exact Hx.
Qed.

Lemma strip_trimmed (s : list ascii) : trimmed (strip s).
Proof.
  unfold trimmed, strip. split.
  - apply rstrip_keeps_head. intros c. apply skip_spaces_head.
  - unfold rstrip at 1. rewrite rev_involutive. intros c. apply skip_spaces_head.
Qed.

Lemma trimmed_strip (s : list ascii) : trimmed s -> strip s = s.
Proof.
  intros [Hhd Hlast]. unfold strip, lstrip, rstrip.
  rewrite (skip_spaces_clean s Hhd), (skip_spaces_clean (rev s) Hlast).
  apply rev_involutive.
Qed.

Lemma strip_substring (s : list ascii) : exists a b, s = a ++ strip s ++ b.
Proof.
  unfold strip, lstrip, rstrip.
  destruct (skip_spaces_suffix s) as [a Ha].
  destruct (skip_spaces_suffix (rev (skip_spaces s))) as [b Hb].
  exists a, (rev b). rewrite <- rev_app_distr, <- Hb, rev_involutive. exact Ha.
Qed.

Lemma strip_no_tag (s : list ascii) : ~ has_tag s -> ~ has_tag (strip s).
Proof.
  intros H [u [v [w E]]]. apply H.
  destruct (strip_substring s) as [a [b Hs]].
  exists (a ++ u), v, (w ++ b). rewrite Hs at 1. rewrite E.
  rewrite <- !app_assoc. simpl. rewrite <- !app_assoc. reflexivity.
Qed.

Lemma stripped_chars_idempotent (s : list ascii) :
  stripped_chars (stripped_chars s) = stripped_chars s.
Proof.
  unfold stripped_chars.
  rewrite (no_tag_fixed (strip (tag_sub s)))
    by apply strip_no_tag, tag_sub_no_tag.
  apply trimmed_strip, strip_trimmed.
Qed.

(** C8: display stripping is idempotent; its result holds no bracketed
    tag at all, wherever the tags stood in the title (no opening bracket
    with a closing bracket after it) and neither starts nor ends with
    whitespace.  So ["Ruins [4v4]"] gives ["Ruins"], a tag in the middle
    goes with the whitespace before it, and a title without tag is kept. *)
Theorem stripped_map_name_idempotent :
  (forall s : string,
     _stripped_map_name (_stripped_map_name s) = _stripped_map_name s
     /\ ~ has_tag (list_ascii_of_string (_stripped_map_name s))
     /\ trimmed (list_ascii_of_string (_stripped_map_name s)))
  /\ _stripped_map_name "Ruins [4v4]" = "Ruins"%string
  /\ _stripped_map_name "Ruins [4v4] North  [beta] " = "Ruins North"%string
  /\ _stripped_map_name "Open Field" = "Open Field"%string.
Proof.
  split; [|repeat split; reflexivity].
  intros s. unfold _stripped_map_name.
  rewrite !list_ascii_of_string_of_list_ascii. split; [|split].
  - now rewrite stripped_chars_idempotent.
  - apply strip_no_tag, tag_sub_no_tag.
  - apply strip_trimmed.
Qed.

(** *** Global faction histogram *)

Section UpdateFacts.
Context {K V : Type} (eqb : K -> K -> bool).
Hypothesis eqb_spec : forall x y, reflect (x = y) (eqb x y).

Lemma get_set (d : list (K * V)) (k k' : K) (v : V) :
  PyDict.get eqb (PyDict.set eqb d k v) k'
  = if eqb k k' then Some v else PyDict.get eqb d k'.
Proof.
  induction d as [|[k0 v0] d IH]; simpl; [reflexivity|].
  destruct (eqb_spec k0 k) as [->|Hne]; simpl.
  - destruct (eqb_spec k k'); reflexivity.
  - rewrite IH. destruct (eqb_spec k0 k') as [->|_]; [|reflexivity].
    destruct (eqb_spec k k'); [congruence|reflexivity].
Qed.

(** [update] lets the rows of [other] win over those of [d]. *)
Lemma get_update (other : list (K * V)) :
  forall d k,
  NoDup (map fst other) ->
  PyDict.get eqb (PyDict.update eqb d other) k
  = match PyDict.get eqb other k with
    | Some v => Some v
    | None => PyDict.get eqb d k
    end.
Proof.
  unfold PyDict.update.
  induction other as [|[k0 v0] other IH]; intros d k Hnd; simpl; [reflexivity|].
  inversion Hnd as [|? ? Hk0 Hnd']; subst.
  rewrite (IH _ _ Hnd'), get_set. simpl.
  destruct (eqb_spec k0 k) as [->|_]; [|reflexivity].
  apply (get_None_keys eqb eqb_spec) in Hk0. now rewrite Hk0.
Qed.
End UpdateFacts.

Lemma get_group_count_In (keys : list string) (k : string) :
  In k keys ->
  PyDict.get String.eqb (group_count String.eqb keys) k
  = Some (occurrences String.eqb k keys).
Proof.
  intros Hin.
  pose proof (get_default_group_count String.eqb String.eqb_spec keys k) as Hd.
  unfold PyDict.get_default in Hd.
  destruct (PyDict.get String.eqb (group_count String.eqb keys) k) eqn:E.
  - now rewrite Hd.
  - apply (get_None_keys String.eqb String.eqb_spec) in E. exfalso. apply E.
    now apply (group_count_keys String.eqb String.eqb_spec).
Qed.

Lemma global_faction_hist_slot1 (d : db) (f : string) :
  In f (map selected_faction_1 (outcomes d)) ->
  PyDict.get String.eqb (global_faction_hist d) f
  = Some (occurrences String.eqb f (map selected_faction_1 (outcomes d))).
Proof.
  intros Hin. unfold global_faction_hist, global_faction_query.
  change (range 2) with [0; 1]. cbn [fold_left].
  unfold global_faction_query.
  rewrite !(of_rows_group_count String.eqb String.eqb_spec).
  rewrite (get_update String.eqb String.eqb_spec)
    by apply (group_count_keys String.eqb String.eqb_spec).
  change (map (selected_faction 1) (outcomes d))
    with (map selected_faction_1 (outcomes d)).
  now rewrite (get_group_count_In _ _ Hin).
Qed.

(** C2 (the code, in general and at a failing input): a faction selected
    in slot 1 is reported with its number of slot-1 selections alone,
    whatever its number of slot-0 selections, since [update] replaces the
    counts of slot 0.  With "gdi" and "nod" each selected once in slot 0
    and once in slot 1, the histogram reports one match for each and a
    total of two. *)
Theorem global_faction_stats_overwrites :
  (forall d f,
     In f (map selected_faction_1 (outcomes d)) ->
     PyDict.get String.eqb (global_faction_hist d) f
     = Some (occurrences String.eqb f (map selected_faction_1 (outcomes d))))
  /\ _get_global_faction_stats swapped_factions_db
     = Ok (Stats {| names := ["gdi"; "nod"]%string;
                    data := [1; 1];
                    total := 2;
                    colors := ["#A32828"; "#28A3A3"]%string |})
  /\ occurrences String.eqb "gdi"%string
       (map selected_faction_0 (outcomes swapped_factions_db))
     + occurrences String.eqb "gdi"%string
         (map selected_faction_1 (outcomes swapped_factions_db)) = 2.
Proof.
  split; [exact global_faction_hist_slot1|].
  split; vm_compute; reflexivity.
Qed.

Lemma player_map_stats_signs_witness :
  nth_error (win_data (_get_player_map_stats swapped_factions_db 1)) 0 = Some 0
  /\ nth_error (loss_data (_get_player_map_stats swapped_factions_db 1)) 1 = Some 0.
Proof.
  pose proof (player_map_stats_signs swapped_factions_db 1) as H.
  destruct H as [_ [_ [_ [_ [Hw [Hl _]]]]]].
  split.
  - apply (Hw 0%nat "Open Field"%string); [reflexivity|].
    simpl. intros [H|[]]. discriminate H.
  - apply (Hl 1%nat "Ruins [4v4]"%string); [reflexivity|].
    simpl. intros [H|[]]. discriminate H.
Defined.

(** ** Further properties *)

(** *** Resampler: edge cases, fixed points and monotonicity *)

Lemma scaled_unfold (a0 : Q) (rest : list Q) (m : Z) :
  _scaled (a0 :: rest) m
  = Ok (map (fun i =>
               py_round
                 (interp1 (inject_Z (i * len (a0 :: rest)) / inject_Z m)
                    (map inject_Z (range (len (a0 :: rest)))) (a0 :: rest)))
            (range m)).
Proof.
  unfold _scaled. rewrite np_interp_samples by discriminate. simpl bind.
  now rewrite !map_map.
Qed.

(** X1: the resampler needs at least one sample, whatever the target length;
    with samples, a target length of zero or less gives the empty list. *)
Theorem scaled_degenerate :
  (forall m, _scaled [] m = Raise ValueError)
  /\ (forall a0 rest m, m <= 0 -> _scaled (a0 :: rest) m = Ok []).
Proof.
  split.
  - intros m. reflexivity.
  - intros a0 rest m Hm. rewrite scaled_unfold. unfold range.
    replace (Z.to_nat m) with 0%nat by lia. reflexivity.
Qed.

Lemma scaled_degenerate_witness : _scaled [1200; 1180 # 1]%Q (-3) = Ok [].
Proof. apply (proj2 scaled_degenerate). lia. Defined.

Lemma map_constant {A B : Type} (f : A -> B) (c : B) (l : list A) :
  (forall x, f x = c) -> map f l = repeat c (length l).
Proof.
  intros H. induction l as [|x l IH]; simpl; [reflexivity|].
  now rewrite H, IH.
Qed.

Lemma interp1_single (x a0 : Q) :
  interp1 x (map inject_Z (range (len [a0]))) [a0] = a0.
Proof.
  unfold interp1. simpl.
  destruct (Qltb x (inject_Z 0)); [reflexivity|].
  destruct (Qltb (inject_Z 0) x); reflexivity.
Qed.

(** X2: a single sample is repeated: every output is its rounding. *)
Theorem scaled_single_sample (a0 : Q) (m : Z) :
  _scaled [a0] m = Ok (repeat (py_round a0) (Z.to_nat m)).
Proof.
  rewrite scaled_unfold. f_equal.
  rewrite (map_constant _ (py_round a0)).
  - now rewrite range_length.
  - intros i. now rewrite interp1_single.
Qed.

Lemma interp_from_at_sample (fp : list Q) :
  forall (s k : nat) (x : Q),
  (k < length fp)%nat ->
  (x == inject_Z (Z.of_nat (s + k)))%Q ->
  interp_from x (map inject_Z (map Z.of_nat (seq s (length fp)))) fp
  = nth k fp 0%Q.
Proof.
  induction fp as [|y0 fp IH]; intros s k x Hk Hx; [simpl in Hk; lia|].
  destruct fp as [|y1 fp].
  - simpl in Hk. replace k with 0%nat by lia. reflexivity.
  - cbn [length seq map]. rewrite interp_from_step.
    destruct k as [|k].
    + assert (H1 : Qltb x (inject_Z (Z.of_nat (S s))) = true).
      { apply Qltb_lt. rewrite Hx, <- Zlt_Qlt. lia. }
      assert (H2 : Qeq_bool (inject_Z (Z.of_nat s)) x = true).
      { apply Qeq_bool_iff. rewrite Hx. now replace (s + 0)%nat with s by lia. }
      now rewrite H1, H2.
    + assert (H1 : Qltb x (inject_Z (Z.of_nat (S s))) = false).
      { apply Qltb_ge. rewrite Hx, <- Zle_Qle. lia. }
      rewrite H1.
      apply (IH (S s) k x); [simpl in *; lia|].
      rewrite Hx. now replace (S s + k)%nat with (s + S k)%nat by lia.
Qed.

Lemma last_sample_position (n : nat) :
  last (map inject_Z (map Z.of_nat (seq 0 (S n)))) 0%Q = inject_Z (Z.of_nat n).
Proof.
  rewrite seq_S, !map_app. simpl. apply last_last.
Qed.

Lemma interp1_at_sample (a : list Q) (k : nat) (x : Q) :
  (k < length a)%nat ->
  (x == inject_Z (Z.of_nat k))%Q ->
  interp1 x (map inject_Z (range (len a))) a = nth k a 0%Q.
Proof.
  intros Hk Hx. rewrite range_len. unfold interp1.
  destruct a as [|a0 rest]; [simpl in Hk; lia|].
  assert (H0 : Qltb x (hd 0%Q (map inject_Z (map Z.of_nat (seq 0 (length (a0 :: rest))))))
               = false).
  { apply Qltb_ge. simpl. rewrite Hx, <- Zle_Qle. lia. }
  assert (H1 : Qltb (last (map inject_Z (map Z.of_nat (seq 0 (length (a0 :: rest))))) 0%Q) x
               = false).
  { apply Qltb_ge. cbn [length]. rewrite last_sample_position, Hx, <- Zle_Qle.
    simpl in Hk. lia. }
  rewrite H0, H1. now apply (interp_from_at_sample (a0 :: rest) 0 k).
Qed.

Lemma map_seq_nth {A B : Type} (f : nat -> B) (g : A -> B) (d : A) (l : list A) :
  forall s,
  (forall k, (k < length l)%nat -> f (s + k)%nat = g (nth k l d)) ->
  map f (seq s (length l)) = map g l.
Proof.
  induction l as [|x l IH]; intros s H; simpl; [reflexivity|].
  f_equal.
  - pose proof (H 0%nat ltac:(simpl; lia)) as H0. simpl in H0.
    rewrite <- H0. f_equal. lia.
  - apply IH. intros k Hk.
    replace (S s + k)%nat with (s + S k)%nat by lia.
    apply (H (S k)). simpl. lia.
Qed.

(** X3: resampling to the input's own length only rounds: the query positions
    are the sample positions. *)
Theorem scaled_same_length (a0 : Q) (rest : list Q) :
  _scaled (a0 :: rest) (len (a0 :: rest)) = Ok (map py_round (a0 :: rest)).
Proof.
  rewrite scaled_unfold. f_equal.
  set (nr := map inject_Z (range (len (a0 :: rest)))).
  rewrite (range_len (a0 :: rest)), map_map.
  apply (map_seq_nth _ py_round 0%Q (a0 :: rest) 0).
  intros k Hk. simpl Nat.add. f_equal. subst nr.
  apply interp1_at_sample; [exact Hk|].
  rewrite inject_Z_mult. unfold len. field.
  intros H.
  apply (proj1 (inject_Z_injective (Z.of_nat (length (a0 :: rest))) 0)) in H.
  cbn [length] in H. lia.
Qed.

Lemma segment_exact (x x0 x1 y0 y1 : Q) :
  (x0 == x)%Q -> ((y1 - y0) / (x1 - x0) * (x - x0) + y0 == y0)%Q.
Proof. intros H. rewrite <- H. unfold Qdiv. ring. Qed.

Lemma segment_monotone (x x' x0 x1 y0 y1 : Q) :
  (x0 < x1)%Q -> (y0 <= y1)%Q -> (x <= x')%Q ->
  ((y1 - y0) / (x1 - x0) * (x - x0) + y0
   <= (y1 - y0) / (x1 - x0) * (x' - x0) + y0)%Q.
Proof.
  intros Hx Hy Hxx.
  assert (Hd : ~ (x1 - x0 == 0)%Q) by (intros E; lra).
  pose proof (Qmult_div_r (y1 - y0) (x1 - x0) Hd) as Hs.
  set (s := ((y1 - y0) / (x1 - x0))%Q) in *.
  assert (Hpos : (0 <= s)%Q).
  { destruct (Qlt_le_dec s 0) as [Hneg|Hge]; [exfalso; nra|exact Hge]. }
  nra.
Qed.

Lemma sorted_ends (fp : list Q) :
  StronglySorted Qle fp ->
  Forall (fun y => hd 0 fp <= y <= last fp 0)%Q fp.
Proof.
  induction 1 as [|y fp Hs IH Hy]; [constructor|].
  assert (Hlast : (y <= last (y :: fp) 0)%Q).
  { destruct fp as [|z fp]; [apply Qle_refl|].
    rewrite Forall_forall in Hy. apply Hy.
    change (last (y :: z :: fp) 0%Q) with (last (z :: fp) 0%Q).
    destruct (exists_last (l := z :: fp)) as [l' [b E]]; [discriminate|].
    rewrite E, last_last. apply in_or_app. right. now left. }
  constructor.
  - split; [apply Qle_refl|exact Hlast].
  - destruct fp as [|z fp]; [constructor|].
    rewrite Forall_forall in *. intros w Hw. split.
    + simpl. now apply Hy.
    + change (last (y :: z :: fp) 0%Q) with (last (z :: fp) 0%Q).
      now apply IH.
Qed.

Lemma interp_from_ge_head (x : Q) (xp fp : list Q) :
  Sorted Qlt xp -> length xp = length fp -> xp <> [] ->
  StronglySorted Qle fp -> (hd 0 xp <= x)%Q ->
  (hd 0 fp <= interp_from x xp fp)%Q.
Proof.
  intros Hs Hlen Hne Hfp Hx.
  apply (interp_from_bounds (hd 0%Q fp) (last fp 0%Q) x xp fp); auto.
  now apply sorted_ends.
Qed.

Lemma interp_from_monotone (x x' : Q) (xp : list Q) :
  forall fp,
  Sorted Qlt xp -> length xp = length fp ->
  StronglySorted Qle fp -> (hd 0 xp <= x)%Q -> (x <= x')%Q ->
  (interp_from x xp fp <= interp_from x' xp fp)%Q.
Proof.
  induction xp as [|x0 xp IH]; intros fp Hs Hlen Hfp Hhd Hxx.
  - destruct fp; [apply Qle_refl|discriminate].
  - destruct fp as [|y0 fp]; [discriminate|].
    destruct xp as [|x1 xp]; [destruct fp; [apply Qle_refl|discriminate]|].
    destruct fp as [|y1 fp]; [discriminate|].
    inversion Hs as [|? ? Hs' Hrel]; subst.
    inversion Hrel as [|? ? H01]; subst.
    inversion Hfp as [|? ? Hfp' Hy0]; subst.
    assert (Hy : (y0 <= y1)%Q) by (inversion Hy0; assumption).
    simpl in Hhd. rewrite !interp_from_step.
    destruct (Qltb x x1) eqn:E; destruct (Qltb x' x1) eqn:E'.
    + apply Qltb_lt in E, E'.
      assert (Hv : forall z, (x0 <= z)%Q ->
                (((if Qeq_bool x0 z then y0
                   else (y1 - y0) / (x1 - x0) * (z - x0) + y0))
                 == (y1 - y0) / (x1 - x0) * (z - x0) + y0)%Q).
      { intros z Hz. destruct (Qeq_bool x0 z) eqn:Ez; [|reflexivity].
        apply Qeq_bool_iff in Ez. symmetry. now apply segment_exact. }
      rewrite (Hv x Hhd), (Hv x') by lra. now apply segment_monotone.
    + apply Qltb_lt in E. apply Qltb_ge in E'.
      apply Qle_trans with y1.
      * destruct (Qeq_bool x0 x); [exact Hy|].
        apply (segment_bounds x x0 x1 y0 y1 y0 y1); auto; split;
          auto using Qle_refl.
      * apply (interp_from_ge_head x' (x1 :: xp) (y1 :: fp)); auto.
        discriminate.
    + apply Qltb_ge in E. apply Qltb_lt in E'. exfalso. lra.
    + apply Qltb_ge in E. apply IH; auto.
Qed.

Lemma interp1_monotone (x x' : Q) (xp fp : list Q) :
  Sorted Qlt xp -> length xp = length fp -> xp <> [] ->
  StronglySorted Qle fp -> (x <= x')%Q ->
  (interp1 x xp fp <= interp1 x' xp fp)%Q.
Proof.
  intros Hs Hlen Hne Hfp Hxx.
  pose proof (sorted_ends fp Hfp) as Hends.
  pose proof (fun z => interp1_bounds (hd 0%Q fp) (last fp 0%Q) z xp fp
                         Hs Hlen Hne Hends) as Hb.
  unfold interp1 at 1.
  destruct (Qltb x (hd 0%Q xp)) eqn:E0; [apply Hb|].
  destruct (Qltb (last xp 0%Q) x) eqn:E1.
  - apply Qltb_lt in E1. unfold interp1.
    assert (H0 : Qltb x' (hd 0%Q xp) = false).
    { apply Qltb_ge. apply Qltb_ge in E0. lra. }
    assert (H1 : Qltb (last xp 0%Q) x' = true) by (apply Qltb_lt; lra).
    rewrite H0, H1. apply Qle_refl.
  - apply Qltb_ge in E0. unfold interp1.
    assert (H0 : Qltb x' (hd 0%Q xp) = false) by (apply Qltb_ge; lra).
    rewrite H0. destruct (Qltb (last xp 0%Q) x') eqn:E1'.
    + apply (interp_from_bounds (hd 0%Q fp) (last fp 0%Q) x xp fp); auto.
    + now apply interp_from_monotone.
Qed.

Lemma map_seq_sorted (h : nat -> Z) (k : nat) :
  (forall i j, (i <= j)%nat -> h i <= h j) ->
  forall s, StronglySorted Z.le (map h (seq s k)).
Proof.
  intros Hh. induction k as [|k IH]; intros s; simpl; constructor.
  - apply IH.
  - apply Forall_forall. intros z Hz. apply in_map_iff in Hz.
    destruct Hz as [j [<- Hj]]. apply in_seq in Hj. apply Hh. lia.
Qed.

(** X4: a rating history that never decreases is resampled to a curve that
    never decreases. *)
Theorem scaled_monotone (a0 : Q) (rest : list Q) (m : Z) :
  StronglySorted Qle (a0 :: rest) ->
  exists out,
    _scaled (a0 :: rest) m = Ok out /\ StronglySorted Z.le out.
Proof.
  intros Hsorted. rewrite scaled_unfold. eexists. split; [reflexivity|].
  destruct (Z_le_gt_dec m 0) as [Hm|Hm].
  { unfold range at 2. replace (Z.to_nat m) with 0%nat by lia. constructor. }
  unfold range at 2. rewrite map_map. apply map_seq_sorted.
  intros i j Hij. apply py_round_monotone. apply interp1_monotone.
  - rewrite range_len. apply seq_increasing.
  - rewrite range_len, !length_map, length_seq. reflexivity.
  - rewrite range_len. discriminate.
  - exact Hsorted.
  - unfold Qdiv. apply Qmult_le_compat_r.
    + rewrite <- Zle_Qle. unfold len. nia.
    + apply Qinv_le_0_compat. change 0%Q with (inject_Z 0).
      rewrite <- Zle_Qle. lia.
Qed.

Lemma scaled_monotone_witness :
  exists out,
    _scaled [1000; 1010 # 1; 1010 # 1; 1030 # 1]%Q 6 = Ok out
    /\ StronglySorted Z.le out.
Proof.
  apply (scaled_monotone 1000 [1010 # 1; 1010 # 1; 1030 # 1]%Q 6).
  repeat (constructor; [|repeat (constructor; [discriminate|]); constructor]).
  constructor.
Defined.

(** *** Joins on a key *)

Lemma filter_key_unique {B : Type} (key : B -> Z) (x : Z) (r : list B) :
  NoDup (map key r) ->
  filter (fun b => key b =? x) r
  = match find (fun b => key b =? x) r with
    | Some b => [b]
    | None => []
    end.
Proof.
  induction r as [|b r IH]; simpl; intros Hnd; [reflexivity|].
  inversion Hnd as [|? ? Hb Hnd']; subst.
  destruct (Z.eqb_spec (key b) x) as [E|_]; [|now apply IH].
  f_equal. apply filter_nil_iff. intros c Hc.
  apply Z.eqb_neq. intros E'. apply Hb. rewrite E, <- E'. now apply in_map.
Qed.

Lemma flat_map_singleton {A B : Type} (f : A -> list B) (g : A -> B)
    (l : list A) :
  (forall a, f a = [g a]) -> flat_map f l = map g l.
Proof.
  intros H. induction l as [|a l IH]; simpl; [reflexivity|].
  now rewrite H, IH.
Qed.

Lemma left_join_key {A B : Type} (k : A -> Z) (key : B -> Z)
    (l : list A) (r : list B) :
  NoDup (map key r) ->
  left_join (fun a b => key b =? k a) l r
  = map (fun a => (a, find (fun b => key b =? k a) r)) l.
Proof.
  intros Hnd. unfold left_join. apply flat_map_singleton. intros a.
  rewrite (filter_key_unique key (k a) r Hnd).
  destruct (find (fun b => key b =? k a) r); reflexivity.
Qed.

Lemma filter_map_comm {A B : Type} (f : B -> bool) (g : A -> B) (l : list A) :
  filter f (map g l) = map g (filter (fun a => f (g a)) l).
Proof.
  induction l as [|a l IH]; simpl; [reflexivity|].
  rewrite IH. destruct (f (g a)); reflexivity.
Qed.

Lemma insert_sorted_map {A B : Type} (leb : B -> B -> bool) (g : A -> B)
    (x : A) (l : list A) :
  insert_sorted leb (g x) (map g l)
  = map g (insert_sorted (fun a b => leb (g a) (g b)) x l).
Proof.
  induction l as [|y l IH]; simpl; [reflexivity|].
  destruct (leb (g x) (g y)); simpl; [reflexivity|]. now rewrite IH.
Qed.

Lemma sorted_map {A B : Type} (leb : B -> B -> bool) (g : A -> B) (l : list A) :
  sorted leb (map g l) = map g (sorted (fun a b => leb (g a) (g b)) l).
Proof.
  induction l as [|x l IH]; simpl; [reflexivity|].
  now rewrite IH, insert_sorted_map.
Qed.

(** With unique player ids, the double join keeps one row per outcome. *)
Lemma double_join_unique (d : db) :
  unique_ids d ->
  left_join (fun op p => profile_id p =? profile_id1 (fst op))
    (left_join (fun o p => profile_id p =? profile_id0 o) (outcomes d) (players d))
    (players d)
  = map (join_players d) (outcomes d).
Proof.
  intros Hu.
  rewrite (left_join_key profile_id0 profile_id _ _ Hu).
  rewrite (left_join_key (fun op => profile_id1 (fst op)) profile_id _ _ Hu).
  rewrite map_map. reflexivity.
Qed.

(** *** Rating curve *)

Lemma scaled_within (a0 : Q) (rest : list Q) (m : Z) :
  1 <= m ->
  exists out,
    _scaled (a0 :: rest) m = Ok out
    /\ length out = Z.to_nat m
    /\ hd_error out = Some (py_round a0)
    /\ Forall (fun v => py_round (py_min (a0 :: rest)) <= v
                        <= py_round (py_max (a0 :: rest))) out.
Proof.
  intros Hm. rewrite scaled_unfold. eexists. split; [reflexivity|].
  split; [|split].
  - now rewrite length_map, range_length.
  - rewrite (range_pos m Hm). cbn [map hd_error].
    rewrite interp1_at_origin; [reflexivity|].
    rewrite Z.mul_0_l. unfold Qdiv. apply Qmult_0_l.
  - rewrite Forall_map. apply Forall_forall. intros i _.
    assert (Hb : (py_min (a0 :: rest)
                  <= interp1 (inject_Z (i * len (a0 :: rest)) / inject_Z m)
                       (map inject_Z (range (len (a0 :: rest)))) (a0 :: rest)
                  <= py_max (a0 :: rest))%Q).
    { apply interp1_bounds.
      - rewrite range_len. apply seq_increasing.
      - rewrite range_len, !length_map, length_seq. reflexivity.
      - rewrite range_len. discriminate.
      - pose proof (py_min_le (a0 :: rest)) as Hlo.
        pose proof (py_max_ge (a0 :: rest)) as Hhi.
        rewrite Forall_forall in *. intros y Hy. split; auto. }
    destruct Hb as [Hlo Hhi]. split; apply py_round_monotone; assumption.
Qed.

Lemma player_ratings_query_unique (d : db) (pid : Z) :
  unique_ids d ->
  player_ratings_query d pid = map rating_row_of (matches_of d pid).
Proof.
  intros Hu. unfold player_ratings_query, matches_of.
  rewrite (double_join_unique d Hu), filter_map_comm, sorted_map, map_map.
  reflexivity.
Qed.

Lemma matches_of_In (d : db) (pid : Z) (o : outcome) :
  In o (matches_of d pid) <-> In o (outcomes d) /\ involves pid o = true.
Proof. unfold matches_of. now rewrite sorted_In, filter_In. Qed.

Lemma involves_slot (pid : Z) (o : outcome) :
  involves pid o = true -> profile_id0 o = pid \/ profile_id1 o = pid.
Proof.
  unfold involves. rewrite orb_true_iff, !Z.eqb_eq. intuition auto.
Qed.

Lemma ratings_loop_own (pid : Z) (os : list outcome) :
  forall acc,
  Forall (fun o => involves pid o = true) os ->
  ratings_loop pid (map rating_row_of os) acc = acc ++ map (own_rating pid) os.
Proof.
  induction os as [|o os IH]; intros acc Hall; simpl.
  - now rewrite app_nil_r.
  - inversion Hall as [|? ? Ho Hall']; subst.
    unfold own_rating at 1.
    destruct (Z.eqb_spec (profile_id0 o) pid) as [E0|N0].
    + rewrite (IH _ Hall'), <- app_assoc. reflexivity.
    + destruct (Z.eqb_spec (profile_id1 o) pid) as [E1|N1].
      * rewrite (IH _ Hall'), <- app_assoc. reflexivity.
      * apply involves_slot in Ho. tauto.
Qed.

(** X5: with unique player ids, the sequence behind the rating curve is the
    player's own rating on each of their outcomes, one per outcome, oldest
    first. *)
Theorem player_rating_sequence_chronological (d : db) (pid : Z) :
  unique_ids d ->
  player_rating_sequence d pid = map (own_rating pid) (matches_of d pid).
Proof.
  intros Hu. unfold player_rating_sequence.
  rewrite (player_ratings_query_unique d pid Hu).
  apply (ratings_loop_own pid (matches_of d pid) []).
  apply Forall_forall. intros o Ho. now apply matches_of_In in Ho.
Qed.

(** X6: the rating curve never fails.  With at most [min_datapoints] (10)
    ratings there is no curve; with more, the first 10 are dropped and the
    rest is resampled to [datapoints] (50) values that start at the
    rounded 11th rating and stay between the rounded minimum and maximum
    of what remains, next to 50 empty labels. *)
Theorem player_ratings_warmup (dumps_strings : list string -> string)
    (dumps_ints : list Z -> string) (d : db) (pid : Z) :
  let rs := player_rating_sequence d pid in
  ((length rs <= 10)%nat ->
   _get_player_ratings dumps_strings dumps_ints d pid = Ok NoRatings)
  /\ ((10 < length rs)%nat ->
      exists out,
        _get_player_ratings dumps_strings dumps_ints d pid
        = Ok (RatingCurve (dumps_strings (repeat EmptyString 50))
                          (dumps_ints out))
        /\ length out = 50%nat
        /\ hd_error out = Some (py_round (nth 10 rs 0%Q))
        /\ Forall (fun v => py_round (py_min (skipn 10 rs)) <= v
                            <= py_round (py_max (skipn 10 rs))) out).
Proof.
  intros rs. unfold _get_player_ratings. fold rs.
  change (Z.to_nat (min_datapoints _cfg)) with 10%nat.
  change (datapoints _cfg) with 50.
  split; intros Hlen.
  - now rewrite skipn_all2.
  - destruct (skipn 10 rs) as [|a0 rest] eqn:E.
    { apply (f_equal (@length Q)) in E. rewrite length_skipn in E.
      simpl in E. lia. }
    assert (Ha0 : nth 10 rs 0%Q = a0).
    { rewrite <- (firstn_skipn 10 rs) at 1. rewrite E, app_nth2;
        rewrite length_firstn; [|lia].
      replace (10 - Nat.min 10 (length rs))%nat with 0%nat by lia. reflexivity. }
    destruct (scaled_within a0 rest 50 ltac:(lia)) as [out [Hs [Hl [Hh Hb]]]].
    exists out. rewrite Hs. simpl bind. rewrite Ha0.
    split; [|split; [exact Hl|split; assumption]].
    reflexivity.
Qed.

(** *** Player record and rank *)

Lemma find_unique_id (d : db) (p : player) :
  unique_ids d -> In p (players d) ->
  player_row d (profile_id p) = Some p.
Proof.
  unfold unique_ids, player_row. intros Hu Hin.
  induction (players d) as [|q ps IH]; [destruct Hin|].
  simpl in *. inversion Hu as [|? ? Hq Hu']; subst.
  destruct Hin as [->|Hin].
  - now rewrite Z.eqb_refl.
  - destruct (Z.eqb_spec (profile_id q) (profile_id p)) as [E|_]; [|now apply IH].
    exfalso. apply Hq. rewrite E. now apply in_map.
Qed.

Lemma get_player_info_inv (avg : list (Z * Z) -> option string) (d : db)
    (pid : Z) (info : player_info) :
  _get_player_info avg d pid = Some info ->
  In (info_player info) (players d)
  /\ profile_id (info_player info) = pid
  /\ banned (info_player info) = false
  /\ info_rank info = rank_of d pid.
Proof.
  unfold _get_player_info.
  destruct (filter (fun p => (profile_id p =? pid) && negb (banned p)) (players d))
    as [|p ps] eqn:E; [discriminate|].
  intros H. injection H as <-. simpl.
  assert (H : In p (p :: ps)) by now left.
  rewrite <- E in H. apply filter_In in H. destruct H as [Hin H].
  apply andb_true_iff in H. destruct H as [H1 H2].
  apply Z.eqb_eq in H1. apply negb_true_iff in H2. tauto.
Qed.

Lemma get_player_info_None (avg : list (Z * Z) -> option string) (d : db)
    (pid : Z) :
  _get_player_info avg d pid = None
  <-> forall p, In p (players d) -> profile_id p = pid -> banned p = true.
Proof.
  unfold _get_player_info.
  destruct (filter (fun p => (profile_id p =? pid) && negb (banned p)) (players d))
    as [|p ps] eqn:E.
  - split; [|reflexivity]. intros _ p Hin Hid.
    destruct (banned p) eqn:Hb; [reflexivity|].
    assert (H : In p []).
    { rewrite <- E. apply filter_In. split; [exact Hin|].
      rewrite Hb. apply andb_true_iff. split; [now apply Z.eqb_eq|reflexivity]. }
    destruct H.
  - split; [discriminate|]. intros H.
    assert (Hp : In p (p :: ps)) by now left.
    rewrite <- E in Hp. apply filter_In in Hp. destruct Hp as [Hin Hp].
    apply andb_true_iff in Hp. destruct Hp as [H1 H2].
    apply Z.eqb_eq in H1. apply negb_true_iff in H2.
    rewrite (H p Hin H1) in H2. discriminate.
Qed.

(** X7: a player record is found exactly when an unbanned player has the id;
    the record found is such a player. *)
Theorem player_info_found (avg : list (Z * Z) -> option string) (d : db)
    (pid : Z) :
  (_get_player_info avg d pid = None
   <-> forall p, In p (players d) -> profile_id p = pid -> banned p = true)
  /\ (forall info,
        _get_player_info avg d pid = Some info ->
        In (info_player info) (players d)
        /\ profile_id (info_player info) = pid
        /\ banned (info_player info) = false).
Proof.
  split; [apply get_player_info_None|].
  intros info H. apply get_player_info_inv in H. tauto.
Qed.

Lemma filter_length_le {A : Type} (f g : A -> bool) (l : list A) :
  (length (filter (fun x => f x && g x) l) <= length (filter g l))%nat.
Proof.
  induction l as [|x l IH]; simpl; [lia|].
  destruct (f x), (g x); simpl; lia.
Qed.

Lemma filter_In_length {A : Type} (f : A -> bool) (l : list A) (x : A) :
  In x l -> f x = true -> (1 <= length (filter f l))%nat.
Proof.
  intros Hin Hf. assert (H : In x (filter f l)) by (apply filter_In; tauto).
  destruct (filter f l); [destruct H|simpl; lia].
Qed.

(** X8: with unique player ids, the rank on a player's record counts the
    player: it is at least 1, and at most the number of unbanned
    players. *)
Theorem player_info_rank_bounds (avg : list (Z * Z) -> option string) (d : db)
    (pid : Z) (info : player_info) :
  unique_ids d ->
  _get_player_info avg d pid = Some info ->
  1 <= info_rank info <= len (filter (fun p => negb (banned p)) (players d)).
Proof.
  intros Hu Hinfo.
  destruct (get_player_info_inv avg d pid info Hinfo) as [Hin [Hid [Hb Hr]]].
  rewrite Hr. unfold rank_of.
  pose proof (find_unique_id d _ Hu Hin) as Hf. unfold player_row in Hf.
  rewrite Hid in Hf. rewrite Hf. unfold len. split.
  - apply inj_le with (n := 1%nat).
    apply (filter_In_length _ _ (info_player info) Hin).
    rewrite Hb. apply andb_true_iff. split; [|reflexivity].
    apply Qle_bool_iff, Qle_refl.
  - apply inj_le. apply filter_length_le.
Qed.

Lemma filter_perm_length {A : Type} (f : A -> bool) (l l' : list A) :
  Permutation l l' -> length (filter f l) = length (filter f l').
Proof.
  induction 1 as [|x l l' Hp IH|x y l|l l' l'' _ IH1 _ IH2]; simpl.
  - reflexivity.
  - destruct (f x); simpl; lia.
  - destruct (f x), (f y); reflexivity.
  - lia.
Qed.

Lemma sorted_around {A : Type} (R : A -> A -> Prop) (l1 l2 : list A) (x : A) :
  StronglySorted R (l1 ++ x :: l2) ->
  Forall (fun a => R a x) l1 /\ Forall (R x) l2.
Proof.
  induction l1 as [|a l1 IH]; simpl; intros H;
    inversion H as [|? ? Hs Hall]; subst.
  - split; [constructor|exact Hall].
  - destruct (IH Hs) as [H1 H2]. split; [|exact H2].
    constructor; [|exact H1].
    rewrite Forall_forall in Hall. apply Hall. apply in_or_app. right. now left.
Qed.

Lemma rated_above_rankable (p : player) (ps : list player) :
  (0 < rating p)%Q ->
  length (filter (fun q => Qle_bool (rating p) (rating q) && negb (banned q)) ps)
  = length (filter (fun q => Qle_bool (rating p) (rating q))
              (filter (fun q => Qltb 0 (rating q) && negb (banned q)) ps)).
Proof.
  intros Hpos. induction ps as [|q ps IH]; simpl; [reflexivity|].
  destruct (Qle_bool (rating p) (rating q)) eqn:E; simpl.
  - apply Qle_bool_iff in E.
    assert (Hq : Qltb 0 (rating q) = true) by (apply Qltb_lt; lra).
    rewrite Hq. simpl. destruct (banned q); simpl.
    + exact IH.
    + rewrite (proj2 (Qle_bool_iff _ _) E). simpl. now f_equal.
  - destruct (Qltb 0 (rating q) && negb (banned q)); simpl; [|exact IH].
    rewrite E. exact IH.
Qed.

(** The rank column counts the rankable players rated at least as high. *)
Lemma rank_of_rankable (d : db) (p : player) :
  unique_ids d -> In p (players d) -> (0 < rating p)%Q ->
  rank_of d (profile_id p)
  = len (filter (fun q => Qle_bool (rating p) (rating q)) (leaderboard_query d)).
Proof.
  intros Hu Hin Hpos. unfold rank_of.
  pose proof (find_unique_id d p Hu Hin) as Hf. unfold player_row in Hf.
  rewrite Hf. unfold len. f_equal. unfold leaderboard_query.
  rewrite <- (filter_perm_length _ _ _ (sorted_perm _ _)).
  now apply rated_above_rankable.
Qed.

Lemma leaderboard_position_le_rank (d : db) (k : nat) (p : player) :
  unique_ids d ->
  nth_error (leaderboard_query d) k = Some p ->
  Z.of_nat k + 1 <= rank_of d (profile_id p)
  /\ ((forall j q, nth_error (leaderboard_query d) j = Some q -> j <> k ->
         ~ (rating q == rating p)%Q) ->
      rank_of d (profile_id p) = Z.of_nat k + 1).
Proof.
  intros Hu Hk.
  pose proof (nth_error_In _ _ Hk) as Hin.
  apply leaderboard_query_In in Hin. destruct Hin as [Hin [Hpos _]].
  rewrite (rank_of_rankable d p Hu Hin Hpos).
  pose proof (leaderboard_query_descending d) as Hs.
  destruct (nth_error_split _ _ Hk) as [l1 [l2 [E Hl1]]].
  rewrite E in Hs. destruct (sorted_around _ _ _ _ Hs) as [Hbefore Hafter].
  set (f := fun q => Qle_bool (rating p) (rating q)).
  assert (H1 : filter f l1 = l1).
  { apply filter_all. eapply Forall_impl; [|exact Hbefore].
    intros q Hq. apply Qle_bool_iff. exact Hq. }
  assert (Hp : f p = true) by (apply Qle_bool_iff, Qle_refl).
  split.
  - rewrite E, filter_app. simpl. rewrite H1, Hp. unfold len.
    rewrite length_app. simpl. lia.
  - intros Hties.
    assert (H2 : filter f l2 = []).
    { apply filter_nil_iff. intros q Hq.
      destruct (In_nth_error _ _ Hq) as [j Hj].
      assert (Hjq : nth_error (leaderboard_query d) (length l1 + S j) = Some q).
      { rewrite E, nth_error_app2 by lia.
        replace (length l1 + S j - length l1)%nat with (S j) by lia. exact Hj. }
      pose proof (Hties _ _ Hjq ltac:(lia)) as Hne.
      rewrite Forall_forall in Hafter. pose proof (Hafter q Hq) as Hle.
      unfold f. destruct (Qle_bool (rating p) (rating q)) eqn:Eq; [|reflexivity].
      apply Qle_bool_iff in Eq. exfalso. apply Hne. now apply Qle_antisym. }
    rewrite E, filter_app. simpl. rewrite H1, Hp, H2. unfold len.
    rewrite length_app. simpl. lia.
Qed.

(** X9: with unique player ids and every rankable player having played, each
    leaderboard row is the row of a rankable player whose rank on their
    own page is at least the row's position; the two agree when no other
    listed player has the same rating. *)
Theorem leaderboard_row_id_le_rank (escape : option string -> string)
    (player_url : Z -> string) (d : db) :
  unique_ids d ->
  (forall p, In p (players d) -> (0 < rating p)%Q -> banned p = false ->
             wins p + losses p <> 0) ->
  exists rows,
    leaderboard_js escape player_url d = Ok rows
    /\ forall k r, nth_error rows k = Some r ->
         exists p,
           nth_error (leaderboard_query d) k = Some p
           /\ Leaderboard.url (Leaderboard.player r) = player_url (profile_id p)
           /\ Leaderboard.row_id r <= rank_of d (profile_id p)
           /\ ((forall j q, nth_error (leaderboard_query d) j = Some q ->
                  j <> k -> ~ (rating q == rating p)%Q) ->
               rank_of d (profile_id p) = Leaderboard.row_id r).
Proof.
  intros Hu Hplayed.
  assert (Hall : Forall (fun p => wins p + losses p <> 0) (leaderboard_query d)).
  { apply Forall_forall. intros p Hp. apply leaderboard_query_In in Hp.
    destruct Hp as [Hin [Hr Hb]]. now apply Hplayed. }
  destruct (leaderboard_loop_Ok escape player_url (leaderboard_query d) 1 [] Hall)
    as [rows [Hloop [Hlen Hnth]]].
  simpl in Hloop. exists rows. split; [exact Hloop|].
  intros k r Hk.
  assert (Hlt : (k < length (leaderboard_query d))%nat).
  { rewrite <- Hlen. apply nth_error_Some. congruence. }
  destruct (nth_error (leaderboard_query d) k) as [p|] eqn:Ep;
    [|apply nth_error_None in Ep; lia].
  destruct (Hnth k p Ep) as [r' [Hr' Hrow]].
  assert (r' = r) by congruence. subst r'.
  apply leaderboard_row_inv in Hrow. destruct Hrow as [Hid [_ [Hurl _]]].
  destruct (leaderboard_position_le_rank d k p Hu Ep) as [Hle Heq].
  exists p. split; [reflexivity|]. split; [exact Hurl|]. rewrite Hid. split.
  - lia.
  - intros Hties. rewrite (Heq Hties). lia.
Qed.

(** *** Latest games *)

Lemma StronglySorted_map {A B : Type} (R : B -> B -> Prop) (f : A -> B)
    (l : list A) :
  StronglySorted (fun a b => R (f a) (f b)) l -> StronglySorted R (map f l).
Proof.
  induction 1 as [|a l Hs IH Ha]; simpl; constructor; [exact IH|].
  rewrite Forall_map. exact Ha.
Qed.

Lemma sorted_latest_first {A : Type} (t : A -> Z) (l : list A) :
  StronglySorted (fun a b => t b <= t a)
    (sorted (fun a b => t b <=? t a) l).
Proof.
  eapply StronglySorted_weaken; [|apply sorted_Sorted].
  - intros a b H. now apply Z.leb_le.
  - intros a b. rewrite !Z.leb_le. lia.
  - intros a b c. rewrite !Z.leb_le. lia.
Qed.

Section LatestFacts.
Variable escape : option string -> string.
Variable player_url : Z -> string.
Variable replay_url : string -> string.
Variable sa : bool.

Let game := latest_game escape player_url replay_url sa.

Lemma latest_loop_map (ms : list Games.match_row) :
  forall acc,
  latest_loop escape player_url replay_url sa ms acc = acc ++ map game ms.
Proof.
  induction ms as [|m ms IH]; intros acc; simpl.
  - now rewrite app_nil_r.
  - rewrite IH, <- app_assoc. reflexivity.
Qed.

Lemma latest_games_query_unique (d : db) :
  unique_ids d ->
  latest_games_query d
  = map (fun o => match_row_of (join_players d o)) (outcomes_latest_first d).
Proof.
  intros Hu. unfold latest_games_query, outcomes_latest_first.
  rewrite (double_join_unique d Hu), sorted_map, map_map. reflexivity.
Qed.

(** X10: the latest-games list is ordered from the most recent outcome to the
    oldest; with unique player ids it has one entry per outcome of the
    ledger, matches of banned players included. *)
Theorem latest_games_complete (d : db) :
  StronglySorted (fun g h => Latest.date h <= Latest.date g)
    (latest_games_js escape player_url replay_url sa d)
  /\ (unique_ids d ->
      length (latest_games_js escape player_url replay_url sa d)
      = length (outcomes d)
      /\ map Latest.date (latest_games_js escape player_url replay_url sa d)
         = map end_time (outcomes_latest_first d)).
Proof.
  unfold latest_games_js. rewrite latest_loop_map. simpl. split.
  - unfold latest_games_query. rewrite map_map.
    apply StronglySorted_map. simpl.
    apply (sorted_latest_first (fun r => end_time (fst (fst r)))).
  - intros Hu. rewrite (latest_games_query_unique d Hu). split.
    + rewrite !length_map. unfold outcomes_latest_first. apply sorted_length.
    + rewrite !map_map. reflexivity.
Qed.

(** X11: with unique player ids, every entry of the latest games belongs to
    an outcome of the ledger; a participant is shown exactly when their
    players row is not banned, under their own page link, and the replay
    link is shown exactly when neither participant is banned. *)
Theorem latest_games_redaction (d : db) (g : Latest.game) :
  unique_ids d ->
  In g (latest_games_js escape player_url replay_url sa d) ->
  exists o,
    In o (outcomes d)
    /\ Latest.date g = end_time o
    /\ (Latest.p0 g = None <-> id_banned d (profile_id0 o) = true)
    /\ (Latest.p1 g = None <-> id_banned d (profile_id1 o) = true)
    /\ (Latest.replay g = None
        <-> id_banned d (profile_id0 o) = true
            \/ id_banned d (profile_id1 o) = true)
    /\ (forall c, Latest.p0 g = Some c ->
          Latest.url c = player_url (profile_id0 o))
    /\ (forall c, Latest.p1 g = Some c ->
          Latest.url c = player_url (profile_id1 o)).
Proof.
  intros Hu Hg. unfold latest_games_js in Hg.
  rewrite latest_loop_map, (latest_games_query_unique d Hu) in Hg.
  simpl in Hg. rewrite map_map in Hg. apply in_map_iff in Hg.
  destruct Hg as [o [<- Ho]].
  exists o. split.
  { unfold outcomes_latest_first in Ho. now apply sorted_In in Ho. }
  unfold game, latest_game, match_row_of, join_players, id_banned. simpl.
  destruct (truthy (option_map banned (player_row d (profile_id0 o))));
    destruct (truthy (option_map banned (player_row d (profile_id1 o))));
    simpl; repeat split; intros; try discriminate; try tauto;
    try (destruct H; discriminate);
    try (injection H as <-; reflexivity); auto.
Qed.
End LatestFacts.

(** *** Match log: completeness and redaction *)

Section MatchLogMore.
Variable escape : option string -> string.
Variable player_url : Z -> string.
Variable replay_url : string -> string.
Variable sa : bool.

Let entry := entry_of escape player_url replay_url sa.

Lemma player_games_query_unique (d : db) (pid : Z) :
  unique_ids d ->
  player_games_query d pid
  = map (fun o => match_row_of (join_players d o)) (matches_latest_first d pid).
Proof.
  intros Hu. unfold player_games_query, matches_latest_first.
  rewrite (double_join_unique d Hu), filter_map_comm, sorted_map, map_map.
  reflexivity.
Qed.

Lemma matches_latest_first_In (d : db) (pid : Z) (o : outcome) :
  In o (matches_latest_first d pid) <-> In o (outcomes d) /\ involves pid o = true.
Proof. unfold matches_latest_first. now rewrite sorted_In, filter_In. Qed.

(** On the joined row of an outcome of the player, the viewed player is
    marked banned exactly when their players row is. *)
Lemma viewer_banned_joined (d : db) (pid : Z) (o : outcome) :
  involves pid o = true ->
  viewer_banned escape pid (match_row_of (join_players d o)) = id_banned d pid.
Proof.
  intros Ho. apply involves_slot in Ho.
  unfold viewer_banned, view_of, match_row_of, join_players, id_banned. simpl.
  destruct (Z.eqb_spec (profile_id0 o) pid) as [E0|N0]; simpl.
  - now rewrite E0.
  - destruct (Z.eqb_spec (profile_id1 o) pid) as [E1|N1]; simpl.
    + now rewrite E1.
    + tauto.
Qed.

Lemma entry_joined (d : db) (pid : Z) (o : outcome) :
  involves pid o = true ->
  exists g,
    entry pid (match_row_of (join_players d o)) = [g]
    /\ Games.date g = end_time o
    /\ Games.map g = _stripped_map_name (map_title o)
    /\ (Games.opponent g = None <-> Games.replay g = None)
    /\ (Games.opponent g = None
        <-> id_banned d (if profile_id0 o =? pid then profile_id1 o
                         else profile_id0 o) = true)
    /\ (forall c, Games.opponent g = Some c ->
          Games.url c = player_url (if profile_id0 o =? pid then profile_id1 o
                                    else profile_id0 o))
    /\ (Games.desc (Games.outcome g) = "Won"%string <-> profile_id0 o = pid).
Proof.
  intros Ho. apply involves_slot in Ho.
  unfold entry, entry_of, view_of, match_row_of, join_players, id_banned. simpl.
  destruct (Z.eqb_spec (profile_id0 o) pid) as [E0|N0]; simpl.
  - eexists. split; [reflexivity|]. unfold game_of. simpl.
    destruct (truthy (option_map banned (player_row d (profile_id1 o))));
      simpl; repeat split; intros; try discriminate; try tauto;
      try (injection H as <-; reflexivity); auto.
  - destruct (Z.eqb_spec (profile_id1 o) pid) as [E1|N1]; [|tauto]. simpl.
    eexists. split; [reflexivity|]. unfold game_of. simpl.
    destruct (truthy (option_map banned (player_row d (profile_id0 o))));
      simpl; repeat split; intros; try discriminate; try tauto;
      try (injection H as <-; reflexivity); auto.
Qed.

(** X12: with unique player ids the truncation is all or nothing: the match
    log of a banned player is empty, and the log of any other player has
    one entry per outcome that involves them, most recent first. *)
Theorem player_games_all_or_nothing (d : db) (pid : Z) :
  unique_ids d ->
  (id_banned d pid = true ->
   player_games_js escape player_url replay_url sa d pid = [])
  /\ (id_banned d pid = false ->
      map Games.date (player_games_js escape player_url replay_url sa d pid)
      = map end_time (matches_latest_first d pid)
      /\ length (player_games_js escape player_url replay_url sa d pid)
         = length (filter (involves pid) (outcomes d))).
Proof.
  intros Hu. unfold player_games_js.
  rewrite (player_games_query_unique d pid Hu).
  pose proof (fun o => proj1 (matches_latest_first_In d pid o)) as Hmem.
  split; intros Hb.
  - destruct (matches_latest_first d pid) as [|o os]; [reflexivity|].
    apply (games_loop_stops escape player_url replay_url sa pid [] []).
    rewrite viewer_banned_joined; [exact Hb|]. apply Hmem. now left.
  - rewrite games_loop_no_ban.
    2:{ rewrite Forall_map. apply Forall_forall. intros o Ho.
        rewrite viewer_banned_joined; [exact Hb|]. now apply Hmem. }
    simpl.
    assert (H : forall os, (forall o, In o os -> involves pid o = true) ->
              map Games.date
                (flat_map (entry_of escape player_url replay_url sa pid)
                   (map (fun o => match_row_of (join_players d o)) os))
              = map end_time os).
    { induction os as [|o os IH]; intros Hos; [reflexivity|].
      cbn [map flat_map].
      destruct (entry_joined d pid o (Hos o (or_introl eq_refl)))
        as [g [Hg [Hd _]]].
      unfold entry in Hg. rewrite Hg. cbn [app map]. rewrite Hd. f_equal.
      apply IH. intros o' Ho'. apply Hos. now right. }
    assert (Hdates := H (matches_latest_first d pid)
                        (fun o Ho => proj2 (Hmem o Ho))).
    split; [exact Hdates|].
    apply (f_equal (@length Z)) in Hdates. rewrite !length_map in Hdates.
    rewrite Hdates. unfold matches_latest_first. apply sorted_length.
Qed.

(** X13: with unique player ids, every entry of a match log belongs to an
    outcome that involves the viewed player and shows its stripped map
    title; the opponent and the replay link are hidden together, exactly
    when the opponent's players row is banned; and the entry reads "Won"
    exactly when the viewed player is in slot 0. *)
Theorem player_games_redaction (d : db) (pid : Z) (g : Games.game) :
  unique_ids d ->
  In g (player_games_js escape player_url replay_url sa d pid) ->
  exists o,
    In o (outcomes d) /\ involves pid o = true
    /\ Games.date g = end_time o
    /\ Games.map g = _stripped_map_name (map_title o)
    /\ (Games.opponent g = None <-> Games.replay g = None)
    /\ (Games.opponent g = None
        <-> id_banned d (if profile_id0 o =? pid then profile_id1 o
                         else profile_id0 o) = true)
    /\ (forall c, Games.opponent g = Some c ->
          Games.url c = player_url (if profile_id0 o =? pid then profile_id1 o
                                    else profile_id0 o))
    /\ (Games.desc (Games.outcome g) = "Won"%string <-> profile_id0 o = pid).
Proof.
  intros Hu Hg. unfold player_games_js in Hg.
  rewrite (player_games_query_unique d pid Hu) in Hg.
  pose proof (fun o => proj1 (matches_latest_first_In d pid o)) as Hmem.
  destruct (id_banned d pid) eqn:Hb.
  - exfalso. destruct (matches_latest_first d pid) as [|o os]; [destruct Hg|].
    assert (Hempty :
              games_loop escape player_url replay_url sa pid
                (map (fun o => match_row_of (join_players d o)) (o :: os)) []
              = []).
    { apply (games_loop_stops escape player_url replay_url sa pid [] []).
      rewrite viewer_banned_joined; [exact Hb|]. apply Hmem. now left. }
    rewrite Hempty in Hg. destruct Hg.
  - rewrite games_loop_no_ban in Hg.
    2:{ rewrite Forall_map. apply Forall_forall. intros o Ho.
        rewrite viewer_banned_joined; [exact Hb|]. now apply Hmem. }
    simpl in Hg. apply in_flat_map in Hg. destruct Hg as [m [Hm Hgm]].
    apply in_map_iff in Hm. destruct Hm as [o [<- Ho]].
    destruct (Hmem o Ho) as [Hin Hinv].
    destruct (entry_joined d pid o Hinv) as [g' [Hg' Hprops]].
    unfold entry in Hg'. rewrite Hg' in Hgm. destruct Hgm as [<-|[]].
    exists o. tauto.
Qed.
End MatchLogMore.

(** *** Replay download *)

(** X14: a replay hash that no outcome carries makes the endpoint fail on the
    missing row; any other hash sends the file of an outcome with that
    hash, and with unique hashes the file of that very outcome, whether or
    not its participants are banned. *)
Theorem replay_lookup (d : db) :
  (forall h, replay d h = RaiseTypeError
             <-> forall o, In o (outcomes d) -> hash o <> h)
  /\ (forall h f, replay d h = SendFile f ->
        exists o, In o (outcomes d) /\ hash o = h /\ filename o = f)
  /\ (NoDup (map hash (outcomes d)) ->
      forall o, In o (outcomes d) -> replay d (hash o) = SendFile (filename o)).
Proof.
  unfold replay. split; [|split].
  - intros h.
    destruct (filter (fun o => String.eqb (hash o) h) (outcomes d)) as [|o os] eqn:E.
    + split; [|reflexivity]. intros _ o Ho Hh.
      assert (H : In o []).
      { rewrite <- E. apply filter_In. split; [exact Ho|]. now apply String.eqb_eq. }
      destruct H.
    + split; [discriminate|]. intros H.
      assert (Ho : In o (o :: os)) by now left.
      rewrite <- E in Ho. apply filter_In in Ho. destruct Ho as [Ho Hh].
      apply String.eqb_eq in Hh. exfalso. exact (H o Ho Hh).
  - intros h f.
    destruct (filter (fun o => String.eqb (hash o) h) (outcomes d)) as [|o os] eqn:E;
      [discriminate|].
    intros H. injection H as <-.
    assert (Ho : In o (o :: os)) by now left.
    rewrite <- E in Ho. apply filter_In in Ho. destruct Ho as [Ho Hh].
    apply String.eqb_eq in Hh. now exists o.
  - intros Hnd o Ho.
    induction (outcomes d) as [|o' os IH]; [destruct Ho|].
    simpl in *. inversion Hnd as [|? ? Hfresh Hnd']; subst.
    destruct Ho as [->|Ho].
    + now rewrite String.eqb_refl.
    + destruct (String.eqb_spec (hash o') (hash o)) as [E|_]; [|now apply IH].
      exfalso. apply Hfresh. rewrite E. now apply in_map.
Qed.

Lemma replay_lookup_witness :
  replay swapped_factions_db "h2" = SendFile "h2".
Proof.
  apply (proj2 (proj2 (replay_lookup swapped_factions_db))
           ltac:(repeat constructor; simpl; intuition discriminate)
           (mk_outcome "h2" (noon 2024 1 4 - 600) (noon 2024 1 4) 2 1
              "nod" "gdi" "Open Field")).
  right. left. reflexivity.
Defined.

(** *** Histogram totals *)

Section GroupTotals.
Context {K : Type} (eqb : K -> K -> bool).
Hypothesis eqb_spec : forall x y, reflect (x = y) (eqb x y).

Lemma sum_bump (rows : list (K * Z)) (k : K) :
  sum (map snd (bump eqb rows k)) = sum (map snd rows) + 1.
Proof.
  induction rows as [|[k0 c] rows IH]; simpl; [reflexivity|].
  destruct (eqb k0 k); simpl; rewrite !sum_cons; [lia|]. rewrite IH. lia.
Qed.

Lemma sum_fold_bump (keys : list K) :
  forall rows,
  sum (map snd (fold_left (bump eqb) keys rows)) = sum (map snd rows) + len keys.
Proof.
  induction keys as [|k keys IH]; intros rows; simpl.
  - unfold len. simpl. lia.
  - rewrite IH, sum_bump. unfold len. simpl length. lia.
Qed.

Lemma sum_group_count (keys : list K) :
  sum (map snd (group_count eqb keys)) = len keys.
Proof. unfold group_count. now rewrite sum_fold_bump. Qed.

Lemma values_by_key (rows : list (K * Z)) (f : K -> Z) :
  NoDup (map fst rows) ->
  (forall k, In k (map fst rows) -> PyDict.get_default eqb rows k 0 = f k) ->
  map snd rows = map f (map fst rows).
Proof.
  intros Hnd Hf. rewrite map_map. apply map_ext_in. intros [k v] Hkv. simpl.
  rewrite <- Hf by (apply in_map_iff; now exists (k, v)).
  unfold PyDict.get_default.
  now rewrite (In_get_Some eqb eqb_spec rows k v Hnd Hkv).
Qed.

Lemma group_count_values (keys : list K) :
  map snd (group_count eqb keys)
  = map (fun k => occurrences eqb k keys) (map fst (group_count eqb keys)).
Proof.
  apply values_by_key.
  - apply (group_count_keys eqb eqb_spec).
  - intros k _. apply (get_default_group_count eqb eqb_spec).
Qed.

Lemma group_count_nonempty (keys : list K) :
  keys <> [] -> group_count eqb keys <> [].
Proof.
  intros Hne E. destruct keys as [|k keys]; [congruence|].
  assert (H : In k (map fst (group_count eqb (k :: keys)))).
  { apply (group_count_keys eqb eqb_spec). now left. }
  rewrite E in H. destruct H.
Qed.
End GroupTotals.

Lemma get_colors_length (n : Z) : length (_get_colors n) = Z.to_nat n.
Proof. unfold _get_colors. now rewrite length_map, range_length. Qed.

Lemma make_histogram_Ok {K : Type} (hist : list (K * Z)) :
  hist <> [] ->
  make_histogram hist
  = Ok {| names := map fst hist;
          data := map snd hist;
          total := sum (map snd hist);
          colors := _get_colors (len hist) |}.
Proof. destruct hist; [congruence|reflexivity]. Qed.

Lemma global_map_stats_shape (d : db) :
  (outcomes d = [] -> _get_global_map_stats d = Ok EmptyTriple)
  /\ (outcomes d <> [] ->
      exists h,
        _get_global_map_stats d = Ok (Stats h)
        /\ NoDup (names h)
        /\ (forall m, In m (names h) <-> In m (map map_title (outcomes d)))
        /\ data h
           = map (fun m => occurrences String.eqb m (map map_title (outcomes d)))
                 (names h)
        /\ total h = len (outcomes d)
        /\ length (colors h) = length (names h)).
Proof.
  unfold _get_global_map_stats. split.
  - intros ->. reflexivity.
  - intros Hne.
    assert (Ht : map map_title (outcomes d) <> []).
    { destruct (outcomes d); [congruence|discriminate]. }
    pose proof (group_count_nonempty String.eqb String.eqb_spec _ Ht) as Hg.
    destruct (group_count String.eqb (map map_title (outcomes d))) as [|r rows] eqn:E;
      [congruence|].
    cbv iota. rewrite <- E, make_histogram_Ok by (rewrite E; discriminate).
    simpl bind.
    eexists. split; [reflexivity|]. cbn [names data total colors].
    split; [apply (group_count_keys String.eqb String.eqb_spec)|].
    split; [apply (group_count_keys String.eqb String.eqb_spec)|].
    split; [apply (group_count_values String.eqb String.eqb_spec)|].
    split.
    + rewrite (sum_group_count String.eqb). unfold len. now rewrite length_map.
    + rewrite get_colors_length. unfold len. now rewrite Nat2Z.id, length_map.
Qed.

(** X15: the global map histogram of an empty ledger is the empty triple.
    Otherwise it lists every map title once, with the number of outcomes
    on it; the total is the number of outcomes, and there is one colour per
    title. *)
Theorem global_map_stats_totals (d : db) :
  (outcomes d = [] -> _get_global_map_stats d = Ok EmptyTriple)
  /\ (outcomes d <> [] ->
      exists h,
        _get_global_map_stats d = Ok (Stats h)
        /\ NoDup (names h)
        /\ (forall m, In m (names h) <-> In m (map map_title (outcomes d)))
        /\ data h
           = map (fun m => occurrences String.eqb m (map map_title (outcomes d)))
                 (names h)
        /\ total h = len (outcomes d)
        /\ length (colors h) = length (names h)).
Proof. exact (global_map_stats_shape d). Qed.

Lemma global_map_stats_totals_witness :
  exists h,
    _get_global_map_stats swapped_factions_db = Ok (Stats h)
    /\ NoDup (names h)
    /\ (forall m, In m (names h)
                  <-> In m (map map_title (outcomes swapped_factions_db)))
    /\ data h
       = map (fun m => occurrences String.eqb m
                         (map map_title (outcomes swapped_factions_db)))
             (names h)
    /\ total h = len (outcomes swapped_factions_db)
    /\ length (colors h) = length (names h).
Proof.
  apply (proj2 (global_map_stats_totals swapped_factions_db)). discriminate.
Defined.

(** *** Global faction histogram: names and counts *)

Section UpdateKeys.
Context {K V : Type} (eqb : K -> K -> bool).
Hypothesis eqb_spec : forall x y, reflect (x = y) (eqb x y).

Lemma set_keys (d : list (K * V)) (k : K) (v : V) :
  map fst (PyDict.set eqb d k v)
  = if existsb (fun k0 => eqb k0 k) (map fst d) then map fst d
    else map fst d ++ [k].
Proof.
  induction d as [|[k0 v0] d IH]; simpl; [reflexivity|].
  destruct (eqb k0 k); simpl; [reflexivity|].
  rewrite IH. destruct (existsb _ _); reflexivity.
Qed.

Lemma set_keys_NoDup (d : list (K * V)) (k : K) (v : V) :
  NoDup (map fst d) ->
  NoDup (map fst (PyDict.set eqb d k v))
  /\ forall x, In x (map fst (PyDict.set eqb d k v)) <-> In x (map fst d) \/ x = k.
Proof.
  intros Hnd. rewrite set_keys.
  destruct (existsb (fun k0 => eqb k0 k) (map fst d)) eqn:E.
  - apply (existsb_eqb_In eqb eqb_spec) in E. split; [exact Hnd|].
    intros x. split; [tauto|]. intros [H| ->]; assumption.
  - assert (Hk : ~ In k (map fst d)).
    { intros H. apply (existsb_eqb_In eqb eqb_spec) in H. congruence. }
    split.
    + apply NoDup_app; [exact Hnd|repeat constructor; simpl; tauto|].
      intros x Hx [<-|[]]. contradiction.
    + intros x. rewrite in_app_iff. simpl. intuition auto.
Qed.

Lemma update_keys_NoDup (other : list (K * V)) :
  forall d,
  NoDup (map fst d) ->
  NoDup (map fst (PyDict.update eqb d other))
  /\ forall x, In x (map fst (PyDict.update eqb d other))
               <-> In x (map fst d) \/ In x (map fst other).
Proof.
  unfold PyDict.update.
  induction other as [|[k v] other IH]; intros d Hnd; simpl.
  - split; [exact Hnd|]. tauto.
  - destruct (set_keys_NoDup d k v Hnd) as [Hnd' Hin].
    destruct (IH _ Hnd') as [H1 H2]. split; [exact H1|].
    intros x. rewrite H2, Hin. intuition auto.
Qed.
End UpdateKeys.

Lemma global_faction_hist_unfold (d : db) :
  global_faction_hist d
  = PyDict.update String.eqb
      (group_count String.eqb (map selected_faction_0 (outcomes d)))
      (group_count String.eqb (map selected_faction_1 (outcomes d))).
Proof.
  unfold global_faction_hist, global_faction_query.
  change (range 2) with [0; 1]. cbn [fold_left].
  rewrite !(of_rows_group_count String.eqb String.eqb_spec).
  change (map (selected_faction 0) (outcomes d))
    with (map selected_faction_0 (outcomes d)).
  change (map (selected_faction 1) (outcomes d))
    with (map selected_faction_1 (outcomes d)).
  change (PyDict.update String.eqb []
            (group_count String.eqb (map selected_faction_0 (outcomes d))))
    with (PyDict.of_rows String.eqb
            (group_count String.eqb (map selected_faction_0 (outcomes d)))).
  now rewrite (of_rows_group_count String.eqb String.eqb_spec).
Qed.

Lemma global_faction_hist_lookup (d : db) (f : string) :
  PyDict.get_default String.eqb (global_faction_hist d) f 0
  = if existsb (String.eqb f) (map selected_faction_1 (outcomes d))
    then occurrences String.eqb f (map selected_faction_1 (outcomes d))
    else occurrences String.eqb f (map selected_faction_0 (outcomes d)).
Proof.
  rewrite global_faction_hist_unfold. unfold PyDict.get_default.
  rewrite (get_update String.eqb String.eqb_spec)
    by apply (group_count_keys String.eqb String.eqb_spec).
  destruct (existsb (String.eqb f) (map selected_faction_1 (outcomes d))) eqn:E.
  - assert (Hin : In f (map selected_faction_1 (outcomes d))).
    { apply existsb_exists in E. destruct E as [x [Hx E]].
      apply String.eqb_eq in E. now subst. }
    now rewrite (get_group_count_In _ _ Hin).
  - assert (Hnot : ~ In f (map selected_faction_1 (outcomes d))).
    { intros H. assert (existsb (String.eqb f)
                          (map selected_faction_1 (outcomes d)) = true).
      { apply existsb_exists. exists f. split; [exact H|apply String.eqb_refl]. }
      congruence. }
    assert (Hnone : PyDict.get String.eqb
                      (group_count String.eqb
                         (map selected_faction_1 (outcomes d))) f = None).
    { apply (get_None_keys String.eqb String.eqb_spec). intros H. apply Hnot.
      now apply (group_count_keys String.eqb String.eqb_spec). }
    rewrite Hnone.
    apply (get_default_group_count String.eqb String.eqb_spec).
Qed.

(** X16: the global faction histogram of an empty ledger is the empty triple.
    Otherwise it lists once every faction selected in either slot; a
    faction selected in slot 1 carries its slot-1 count and any other its
    slot-0 count, so the counts are those of both slots together exactly
    where no faction was selected in both. *)
Theorem global_faction_stats_names (d : db) :
  (outcomes d = [] -> _get_global_faction_stats d = Ok EmptyTriple)
  /\ (outcomes d <> [] ->
      exists h,
        _get_global_faction_stats d = Ok (Stats h)
        /\ NoDup (names h)
        /\ (forall f, In f (names h)
                      <-> In f (map selected_faction_0 (outcomes d))
                          \/ In f (map selected_faction_1 (outcomes d)))
        /\ data h
           = map (fun f =>
                    if existsb (String.eqb f) (map selected_faction_1 (outcomes d))
                    then occurrences String.eqb f
                           (map selected_faction_1 (outcomes d))
                    else occurrences String.eqb f
                           (map selected_faction_0 (outcomes d)))
                 (names h)
        /\ ((forall f, In f (map selected_faction_0 (outcomes d)) ->
                       ~ In f (map selected_faction_1 (outcomes d))) ->
            data h
            = map (fun f =>
                     occurrences String.eqb f (map selected_faction_0 (outcomes d))
                     + occurrences String.eqb f
                         (map selected_faction_1 (outcomes d)))
                  (names h))).
Proof.
  unfold _get_global_faction_stats. split.
  - intros E. rewrite global_faction_hist_unfold, E. reflexivity.
  - intros Hne.
    destruct (update_keys_NoDup String.eqb String.eqb_spec
                (group_count String.eqb (map selected_faction_1 (outcomes d)))
                (group_count String.eqb (map selected_faction_0 (outcomes d)))
                (proj1 (group_count_keys String.eqb String.eqb_spec _)))
      as [Hnd Hin].
    rewrite <- global_faction_hist_unfold in Hnd, Hin.
    assert (Hkeys : forall f, In f (map fst (global_faction_hist d))
                      <-> In f (map selected_faction_0 (outcomes d))
                          \/ In f (map selected_faction_1 (outcomes d))).
    { intros f. rewrite Hin.
      now rewrite !(proj2 (group_count_keys String.eqb String.eqb_spec _)). }
    assert (Hhist : global_faction_hist d <> []).
    { intros E. destruct (outcomes d) as [|o os] eqn:Eo; [congruence|].
      assert (H : In (selected_faction_0 o) (map fst (global_faction_hist d))).
      { apply Hkeys. left. now left. }
      rewrite E in H. destruct H. }
    destruct (global_faction_hist d) as [|r rows] eqn:E; [congruence|].
    cbv iota. rewrite <- E, make_histogram_Ok by (rewrite E; discriminate).
    simpl bind. eexists. split; [reflexivity|]. cbn [names data].
    assert (Hdata : map snd (global_faction_hist d)
                    = map (fun f =>
                             if existsb (String.eqb f)
                                  (map selected_faction_1 (outcomes d))
                             then occurrences String.eqb f
                                    (map selected_faction_1 (outcomes d))
                             else occurrences String.eqb f
                                    (map selected_faction_0 (outcomes d)))
                          (map fst (global_faction_hist d))).
    { apply (values_by_key String.eqb String.eqb_spec).
      - rewrite E. exact Hnd.
      - intros f _. apply global_faction_hist_lookup. }
    rewrite E in *. split; [exact Hnd|]. split; [exact Hkeys|].
    split; [exact Hdata|].
    intros Hdisj. rewrite Hdata. apply map_ext_in. intros f Hf.
    destruct (existsb (String.eqb f) (map selected_faction_1 (outcomes d))) eqn:Ex.
    + assert (H1 : In f (map selected_faction_1 (outcomes d))).
      { apply existsb_exists in Ex. destruct Ex as [x [Hx Ex]].
        apply String.eqb_eq in Ex. now subst. }
      rewrite (occurrences_zero String.eqb String.eqb_spec f
                 (map selected_faction_0 (outcomes d))); [lia|].
      intros H0. exact (Hdisj f H0 H1).
    + rewrite (occurrences_zero String.eqb String.eqb_spec f
                 (map selected_faction_1 (outcomes d))); [lia|].
      intros H1. assert (existsb (String.eqb f)
                           (map selected_faction_1 (outcomes d)) = true).
      { apply existsb_exists. exists f. split; [exact H1|apply String.eqb_refl]. }
      congruence.
Qed.

(** *** Player faction histogram: the join and the halved count *)

Lemma join_one_fst {A B : Type} (on : A -> B -> bool) (r : list B) (a : A) :
  map fst (join_one on r a) = repeat a (length (join_one on r a)).
Proof.
  unfold join_one. destruct (filter (on a) r) as [|b bs]; [reflexivity|].
  rewrite map_map, length_map. simpl.
  f_equal. induction bs; simpl; [reflexivity|]. now f_equal.
Qed.

Lemma join_one_length {A B : Type} (on : A -> B -> bool) (r : list B) (a : A) :
  length (join_one on r a) = Nat.max 1 (length (filter (on a) r)).
Proof.
  unfold join_one. destruct (filter (on a) r) as [|b bs]; [reflexivity|].
  rewrite length_map. simpl. lia.
Qed.

Lemma left_join_cons {A B : Type} (on : A -> B -> bool) (a : A) (l : list A)
    (r : list B) :
  left_join on (a :: l) r = join_one on r a ++ left_join on l r.
Proof. reflexivity. Qed.

Lemma filter_repeat_fst {A B : Type} (f : A -> bool) (a : A)
    (rows : list (A * B)) :
  map fst rows = repeat a (length rows) ->
  filter (fun ab => f (fst ab)) rows = if f a then rows else [].
Proof.
  induction rows as [|[a' b] rows IH]; simpl; intros H.
  - now destruct (f a).
  - injection H as -> H. rewrite (IH H). now destruct (f a).
Qed.

(** The grouped keys of the faction query, for ledgers in which each
    outcome of the player joins the same number [n] of players rows. *)
Lemma faction_keys_repeated (d : db) (pid : Z) (n : nat) :
  (forall o, In o (outcomes d) -> involves pid o = true ->
             length (join_one is_participant (players d) o) = n) ->
  map (fun op => own_faction pid (fst op))
      (filter (fun op => involves pid (fst op))
              (left_join is_participant (outcomes d) (players d)))
  = flat_map (fun x => repeat x n) (own_factions d pid).
Proof.
  unfold own_factions.
  induction (outcomes d) as [|o os IH]; intros H; [reflexivity|].
  rewrite left_join_cons, filter_app, map_app.
  rewrite IH by (intros o' Ho'; apply H; now right).
  rewrite (filter_repeat_fst (involves pid) o) by apply join_one_fst.
  simpl. destruct (involves pid o) eqn:E; simpl; [|reflexivity].
  f_equal.
  rewrite <- (H o (or_introl eq_refl) E).
  rewrite <- (map_map fst (own_faction pid)), join_one_fst.
  induction (length (join_one is_participant (players d) o)); simpl;
    [reflexivity|]. now f_equal.
Qed.

Section Doubling.
Context {K : Type} (eqb : K -> K -> bool).
Hypothesis eqb_spec : forall x y, reflect (x = y) (eqb x y).

Lemma bump_twice (rows : list (K * Z)) (x : K) :
  bump eqb (bump eqb (doubled rows) x) x = doubled (bump eqb rows x).
Proof.
  unfold doubled.
  induction rows as [|[k0 c] rows IH]; cbn [map fst snd bump].
  - now destruct (eqb_spec x x).
  - destruct (eqb k0 x) eqn:E; cbn [map fst snd bump]; rewrite E.
    + f_equal. f_equal. lia.
    + now rewrite IH.
Qed.

Lemma fold_bump_twice (keys : list K) :
  forall rows,
  fold_left (bump eqb) (flat_map (fun x => repeat x 2) keys) (doubled rows)
  = doubled (fold_left (bump eqb) keys rows).
Proof.
  induction keys as [|x keys IH]; intros rows; simpl; [reflexivity|].
  now rewrite bump_twice, IH.
Qed.

Lemma group_count_twice (keys : list K) :
  group_count eqb (flat_map (fun x => repeat x 2) keys)
  = doubled (group_count eqb keys).
Proof. apply (fold_bump_twice keys []). Qed.
End Doubling.

Lemma option_string_eqb_spec (a b : option string) :
  reflect (a = b) (option_string_eqb a b).
Proof.
  destruct a as [x|], b as [y|]; simpl; try (constructor; congruence).
  destruct (String.eqb_spec x y); constructor; congruence.
Qed.

Lemma halve_doubled {K : Type} (rows : list (K * Z)) :
  map (fun kc => (fst kc, Z.quot (snd kc) 2)) (doubled rows) = rows.
Proof.
  unfold doubled. rewrite map_map. cbn [fst snd].
  rewrite <- (map_id rows) at 2. apply map_ext. intros [k c]. cbn [fst snd].
  f_equal. rewrite Z.mul_comm. apply Z.quot_mul. discriminate.
Qed.

Lemma participants_two (d : db) (o : outcome) :
  unique_ids d ->
  profile_id0 o <> profile_id1 o ->
  player_row d (profile_id0 o) <> None ->
  player_row d (profile_id1 o) <> None ->
  length (join_one is_participant (players d) o) = 2%nat.
Proof.
  intros Hu Hne H0 H1. rewrite join_one_length.
  assert (Hsplit : forall ps,
            length (filter (is_participant o) ps)
            = (length (filter (fun p => (profile_id p =? profile_id0 o)%Z) ps)
               + length (filter (fun p => (profile_id p =? profile_id1 o)%Z) ps))%nat).
  { induction ps as [|p ps IH]; simpl; [reflexivity|].
    change (is_participant o p)
      with ((profile_id p =? profile_id0 o) || (profile_id p =? profile_id1 o)).
    destruct (Z.eqb_spec (profile_id p) (profile_id0 o)) as [E0|N0];
      destruct (Z.eqb_spec (profile_id p) (profile_id1 o)) as [E1|N1];
      simpl; try lia; congruence. }
  rewrite Hsplit, !(filter_key_unique profile_id _ _ Hu).
  unfold player_row in H0, H1.
  destruct (find (fun p => profile_id p =? profile_id0 o) (players d));
    [|congruence].
  destruct (find (fun p => profile_id p =? profile_id1 o) (players d));
    [|congruence].
  reflexivity.
Qed.

(** X17: with unique player ids and both participants of each of the player's
    outcomes registered (and distinct), the join doubles every row and the
    halved counts are exact: the faction histogram lists each faction the
    player selected once, with the number of their outcomes under it, and
    its total is the number of their outcomes. *)
Theorem player_faction_stats_registered (d : db) (pid : Z) :
  unique_ids d ->
  (forall o, In o (outcomes d) -> involves pid o = true ->
             profile_id0 o <> profile_id1 o
             /\ player_row d (profile_id0 o) <> None
             /\ player_row d (profile_id1 o) <> None) ->
  (exists o, In o (outcomes d) /\ involves pid o = true) ->
  exists h,
    _get_player_faction_stats d pid = Ok h
    /\ NoDup (names h)
    /\ (forall f, In f (names h) <-> In f (own_factions d pid))
    /\ data h
       = map (fun f => occurrences option_string_eqb f (own_factions d pid))
             (names h)
    /\ total h = len (filter (involves pid) (outcomes d))
    /\ length (colors h) = length (names h).
Proof.
  intros Hu Hreg [o0 [Hin0 Hinv0]].
  assert (Hq : player_faction_query d pid
               = group_count option_string_eqb (own_factions d pid)).
  { unfold player_faction_query.
    change (fun o p => (profile_id p =? profile_id0 o)
                       || (profile_id p =? profile_id1 o)) with is_participant.
    rewrite (faction_keys_repeated d pid 2).
    - rewrite (group_count_twice option_string_eqb option_string_eqb_spec).
      apply halve_doubled.
    - intros o Ho Hinv. destruct (Hreg o Ho Hinv) as [Hne [H0 H1]].
      now apply participants_two. }
  assert (Hne : own_factions d pid <> []).
  { unfold own_factions. intros E.
    assert (H : In o0 (filter (involves pid) (outcomes d)))
      by (apply filter_In; tauto).
    destruct (filter (involves pid) (outcomes d)); [destruct H|discriminate]. }
  pose proof (group_count_nonempty option_string_eqb option_string_eqb_spec
                _ Hne) as Hg.
  unfold _get_player_faction_stats. rewrite Hq, (make_histogram_Ok _ Hg).
  eexists. split; [reflexivity|]. cbn [names data total colors].
  split; [apply (group_count_keys option_string_eqb option_string_eqb_spec)|].
  split; [apply (group_count_keys option_string_eqb option_string_eqb_spec)|].
  split; [apply (group_count_values option_string_eqb option_string_eqb_spec)|].
  split.
  - rewrite (sum_group_count option_string_eqb). unfold own_factions, len.
    now rewrite length_map.
  - rewrite get_colors_length. unfold len. now rewrite Nat2Z.id, length_map.
Qed.

Lemma flat_map_repeat_one {A : Type} (l : list A) :
  flat_map (fun x => repeat x 1) l = l.
Proof. induction l as [|x l IH]; simpl; [reflexivity|]. now f_equal. Qed.

(** X18: when at most one players row matches each outcome of the player (the
    opponent has no row, say), the join does not double the rows and the
    division by two halves the counts: each faction is reported with half
    the number of the player's outcomes under it, rounded down, so that a
    single such outcome counts for nothing. *)
Theorem player_faction_stats_halved (d : db) (pid : Z) :
  (forall o, In o (outcomes d) -> involves pid o = true ->
             (length (filter (is_participant o) (players d)) <= 1)%nat) ->
  (exists o, In o (outcomes d) /\ involves pid o = true) ->
  exists h,
    _get_player_faction_stats d pid = Ok h
    /\ (forall f, In f (names h) <-> In f (own_factions d pid))
    /\ data h
       = map (fun f =>
                Z.quot (occurrences option_string_eqb f (own_factions d pid)) 2)
             (names h)
    /\ total h = sum (data h).
Proof.
  intros Hone [o0 [Hin0 Hinv0]].
  assert (Hq : player_faction_query d pid
               = map (fun kc => (fst kc, Z.quot (snd kc) 2))
                     (group_count option_string_eqb (own_factions d pid))).
  { unfold player_faction_query.
    change (fun o p => (profile_id p =? profile_id0 o)
                       || (profile_id p =? profile_id1 o)) with is_participant.
    rewrite (faction_keys_repeated d pid 1).
    - now rewrite flat_map_repeat_one.
    - intros o Ho Hinv. rewrite join_one_length.
      pose proof (Hone o Ho Hinv). lia. }
  assert (Hne : own_factions d pid <> []).
  { unfold own_factions. intros E.
    assert (H : In o0 (filter (involves pid) (outcomes d)))
      by (apply filter_In; tauto).
    destruct (filter (involves pid) (outcomes d)); [destruct H|discriminate]. }
  pose proof (group_count_nonempty option_string_eqb option_string_eqb_spec
                _ Hne) as Hg.
  unfold _get_player_faction_stats. rewrite Hq, make_histogram_Ok.
  2:{ destruct (group_count option_string_eqb (own_factions d pid));
        [congruence|discriminate]. }
  eexists. split; [reflexivity|]. cbn [names data total colors].
  rewrite !map_map. cbn [fst snd]. split; [|split; [|reflexivity]].
  - intros f.
    change (map (fun x => fst x) (group_count option_string_eqb (own_factions d pid)))
      with (map fst (group_count option_string_eqb (own_factions d pid))).
    apply (group_count_keys option_string_eqb option_string_eqb_spec).
  - rewrite <- (map_map snd (fun c => Z.quot c 2)).
    rewrite (group_count_values option_string_eqb option_string_eqb_spec).
    now rewrite !map_map.
Qed.

(** *** Activity timeline: failure and late outcomes *)

Lemma activity_stats_outcomes (today : Z) (d : db) :
  (outcomes d = [] ->
   _get_activity_stats today d
   = Ok {| Activity.dates := None; Activity.data := None;
           Activity.games_per_day := 0 |})
  /\ (_get_activity_stats today d = Raise ZeroDivisionError
      <-> outcomes d <> []
          /\ forall k, In k (outcome_days d) -> today < k)
  /\ (forall e, _get_activity_stats today d = Raise e -> e = ZeroDivisionError).
Proof.
  destruct (activity_query d) as [|first rest] eqn:E.
  - pose proof (proj1 (activity_query_nil d) E) as Hnil.
    assert (Hr : _get_activity_stats today d
                 = Ok {| Activity.dates := None; Activity.data := None;
                         Activity.games_per_day := 0 |}).
    { unfold _get_activity_stats. now rewrite E. }
    rewrite Hr. split; [reflexivity|]. split; [|discriminate].
    split; [discriminate|]. intros [H _]. congruence.
  - assert (Hne : outcomes d <> []).
    { intros H. apply activity_query_nil in H. congruence. }
    destruct (activity_query_first d first rest E) as [Hstart Hmin].
    rewrite (activity_stats_unfold today d first rest E).
    unfold truediv, len. rewrite range_length.
    split; [congruence|].
    destruct (Z.eqb_spec (Z.of_nat (Z.to_nat (today - fst first + 1))) 0)
      as [Hz|Hnz]; simpl.
    + split; [|intros e H; congruence]. split; [|reflexivity].
      intros _. split; [exact Hne|]. intros k Hk. pose proof (Hmin k Hk). lia.
    + split; [|discriminate]. split; [discriminate|].
      intros [_ H]. pose proof (H _ Hstart). lia.
Qed.

(** X19: the activity timeline of an empty ledger is the explicit empty state.
    It fails, with a division by zero, exactly when the ledger is not empty
    and every outcome is dated after today; it raises nothing else. *)
Theorem activity_stats_failure (today : Z) (d : db) :
  (outcomes d = [] ->
   _get_activity_stats today d
   = Ok {| Activity.dates := None; Activity.data := None;
           Activity.games_per_day := 0 |})
  /\ (_get_activity_stats today d = Raise ZeroDivisionError
      <-> outcomes d <> []
          /\ forall k, In k (outcome_days d) -> today < k)
  /\ (forall e, _get_activity_stats today d = Raise e -> e = ZeroDivisionError).
Proof. exact (activity_stats_outcomes today d). Qed.

(** X20: when the earliest outcome is not after today, the timeline runs from
    its day through today, with the number of outcomes of each day, and
    the mean counts the outcomes dated up to today only: outcomes dated
    after today are left out of it. *)
Theorem activity_stats_until_today (today : Z) (d : db) :
  outcomes d <> [] ->
  exists start,
    In start (outcome_days d)
    /\ (forall k, In k (outcome_days d) -> start <= k)
    /\ (start <= today ->
        _get_activity_stats today d
        = Ok {| Activity.dates :=
                  Some (map (fun n => start + n) (range (today - start + 1)));
                Activity.data :=
                  Some (map (fun day => occurrences Z.eqb day (outcome_days d))
                            (map (fun n => start + n)
                                 (range (today - start + 1))));
                Activity.games_per_day :=
                  (inject_Z (len (filter (fun k => k <=? today) (outcome_days d)))
                   / inject_Z (today - start + 1))%Q |}).
Proof. exact (activity_stats_window today d). Qed.

(** *** Palette *)

Lemma _v_between (m1 m2 hue : Q) :
  (m1 <= m2)%Q -> (m1 <= _v m1 m2 hue <= m2)%Q.
Proof.
  intros Hm. unfold _v, ONE_SIXTH, TWO_THIRD.
  pose proof (Qfloor_le hue) as Hlo. pose proof (Qlt_floor hue) as Hhi.
  rewrite inject_Z_plus in Hhi. change (inject_Z 1) with 1%Q in Hhi.
  set (t := (hue - inject_Z (Qfloor hue))%Q).
  assert (Ht : (0 <= t < 1)%Q) by (unfold t; split; lra).
  destruct (Qltb t (1 # 6)) eqn:E1.
  { apply Qltb_lt in E1. split; nra. }
  destruct (Qltb t (1 # 2)) eqn:E2; [split; lra|].
  destruct (Qltb t (2 # 3)) eqn:E3; [|split; lra].
  apply Qltb_ge in E2. apply Qltb_lt in E3. split; nra.
Qed.

Lemma channel_range (c : Q) :
  (16 # 100 <= c <= 64 # 100)%Q -> 40 <= py_int (c * 255) <= 163.
Proof.
  intros [Hlo Hhi]. unfold py_int.
  assert (H0 : Qle_bool 0 (c * 255) = true) by (apply Qle_bool_iff; lra).
  rewrite H0. split.
  - rewrite <- (Qfloor_Z 40). apply Qfloor_resp_le.
    change (inject_Z 40) with 40%Q. lra.
  - pose proof (Qfloor_le (c * 255)) as Hf.
    assert (H : (inject_Z (Qfloor (c * 255)) < inject_Z 164)%Q).
    { change (inject_Z 164) with 164%Q. lra. }
    rewrite <- Zlt_Qlt in H. lia.
Qed.

(** X21: the palette has one colour per category, none for a count of zero or
    less; every colour is the mark [#] followed by three two-digit
    channels, each between 40 and 163 (so never black, never white). *)
Theorem get_colors_wellformed (n : Z) :
  length (_get_colors n) = Z.to_nat n
  /\ Forall (fun c =>
               exists r g b,
                 c = ("#" ++ hex2 r ++ hex2 g ++ hex2 b)%string
                 /\ 40 <= r <= 163 /\ 40 <= g <= 163 /\ 40 <= b <= 163)
            (_get_colors n).
Proof.
  split; [apply get_colors_length|].
  unfold _get_colors. rewrite Forall_map. apply Forall_forall. intros i _.
  unfold hls_to_rgb.
  change (Qeq_bool (6 # 10) 0) with false.
  change (Qle_bool (4 # 10) (1 # 2)) with true. cbv iota.
  set (m2 := ((4 # 10) * (1 + (6 # 10)))%Q).
  set (m1 := (2 * (4 # 10) - m2)%Q).
  assert (Hm : (m1 <= m2)%Q) by (unfold m1, m2; lra).
  assert (Hc : forall hue, 40 <= py_int (_v m1 m2 hue * 255) <= 163).
  { intros hue. apply channel_range.
    pose proof (_v_between m1 m2 hue Hm) as [H1 H2]. unfold m1, m2 in *.
    split; lra. }
  unfold _hexc. eexists _, _, _. split; [reflexivity|].
  repeat split; apply Hc.
Qed.

(** *** Period window *)

Lemma month_cases (m : Z) :
  1 <= m <= 12 ->
  m = 1 \/ m = 2 \/ m = 3 \/ m = 4 \/ m = 5 \/ m = 6
  \/ m = 7 \/ m = 8 \/ m = 9 \/ m = 10 \/ m = 11 \/ m = 12.
Proof. lia. Qed.

(** X22: for any date, the current period is computed without error: it spans
    the two months of today's bimonthly pair (an odd month and the next),
    from the first day of the first to the last day of the second, leap
    years included, and contains today. *)
Theorem current_period_contains_today (today : Calendar.date) :
  valid_date today ->
  exists p,
    _get_current_period today = Ok p
    /\ Period.duration p = "2 months"%string
    /\ Calendar.year (Period.start p) = Calendar.year today
    /\ Calendar.year (Period.stop p) = Calendar.year today
    /\ Z.odd (Calendar.month (Period.start p)) = true
    /\ Calendar.month (Period.stop p) = Calendar.month (Period.start p) + 1
    /\ Calendar.month (Period.start p) <= Calendar.month today
       <= Calendar.month (Period.stop p)
    /\ Calendar.day (Period.start p) = 1
    /\ Calendar.day (Period.stop p)
       = _days_in_month (Calendar.year today) (Calendar.month (Period.stop p))
    /\ toordinal (Period.start p) <= toordinal today <= toordinal (Period.stop p)
    /\ toordinal (Period.stop p) - toordinal (Period.start p) + 1
       = _days_in_month (Calendar.year today) (Calendar.month (Period.start p))
         + _days_in_month (Calendar.year today) (Calendar.month (Period.stop p)).
Proof.
  destruct today as [y m dd]. unfold valid_date. simpl.
  intros [Hy [Hm Hd]].
  assert (Hyb : (1 <=? y) && (y <=? 9999) = true).
  { apply andb_true_iff. split; apply Z.leb_le; lia. }
  destruct (month_cases m Hm) as [E|[E|[E|[E|[E|[E|[E|[E|[E|[E|[E|E]]]]]]]]]]];
    subst m; destruct (_is_leap y) eqn:L;
    (eexists; split;
     [ unfold _get_current_period, monthrange, make_date, _days_in_month;
       cbn [Calendar.year Calendar.month Calendar.day];
       rewrite Hyb, L; reflexivity
     | cbn [Period.start Period.stop Period.duration
            Calendar.year Calendar.month Calendar.day];
       unfold toordinal, _ymd2ord, _days_before_month, _days_in_month in *;
       cbn [Calendar.year Calendar.month Calendar.day] in *;
       rewrite ?L in *; simpl in *; repeat split; try reflexivity; lia ]).
Qed.

(** *** Request parameters *)

Lemma string_in_In (s : string) (l : list string) :
  string_in s l = true <-> In s l.
Proof.
  unfold string_in. rewrite existsb_exists. split.
  - intros [x [Hx E]]. apply String.eqb_eq in E. now subst.
  - intros H. exists s. split; [exact H|apply String.eqb_refl].
Qed.

Section WebFacts.
Variable mods : list (string * Mods.info).

(** X23: without a registered mod no request can be served.  Otherwise the
    request parameters are always a registered mod and one of the periods
    [2m], [1m] and [all], whatever the query string holds: a requested
    value is kept when it is allowed and replaced by the first mod or by
    [2m] when it is not, so the database file opened is one of the
    expected ones. *)
Theorem request_params_allowed (req : request) :
  (mods = [] -> _get_request_params mods req = RaiseIndexError)
  /\ (mods <> [] ->
      exists m p,
        _get_request_params mods req = Done (endpoint req, m, p)
        /\ In m (_allowed_mods mods)
        /\ In p _allowed_periods
        /\ (forall v, PyDict.get String.eqb (args req) "mod"%string = Some v ->
                      In v (_allowed_mods mods) -> m = v)
        /\ (forall v, PyDict.get String.eqb (args req) "period"%string = Some v ->
                      In v _allowed_periods -> p = v)
        /\ ((forall v, PyDict.get String.eqb (args req) "mod"%string = Some v ->
                       ~ In v (_allowed_mods mods)) ->
            hd_error (_allowed_mods mods) = Some m)
        /\ ((forall v, PyDict.get String.eqb (args req) "period"%string = Some v ->
                       ~ In v _allowed_periods) ->
            p = "2m"%string)
        /\ _db_name mods req
           = Done ("db-" ++ m ++ "-" ++ p ++ ".sqlite3")%string).
Proof.
  split.
  - intros ->. reflexivity.
  - intros Hne. unfold _db_name, _get_request_params, _allowed_mods.
    destruct mods as [|[m0 i0] ms]; [congruence|]. cbn [map fst].
    set (allowed := m0 :: map fst ms).
    set (rm := PyDict.get_default String.eqb (args req) "mod"%string m0).
    set (rp := PyDict.get_default String.eqb (args req) "period"%string "2m"%string).
    eexists _, _. split; [reflexivity|].
    split; [|split; [|split; [|split; [|split; [|split]]]]].
    + destruct (string_in rm allowed) eqn:E.
      * now apply string_in_In.
      * now left.
    + destruct (string_in rp ["1m"; "2m"; "all"]%string) eqn:E.
      * apply string_in_In in E. unfold _allowed_periods. simpl in *. tauto.
      * now left.
    + intros v Hv Hin. unfold rm, PyDict.get_default. rewrite Hv.
      apply string_in_In in Hin. now rewrite Hin.
    + intros v Hv Hin. unfold rp, PyDict.get_default. rewrite Hv.
      assert (H : string_in v ["1m"; "2m"; "all"]%string = true).
      { apply string_in_In. unfold _allowed_periods in Hin. simpl in *. tauto. }
      now rewrite H.
    + intros Hbad. cbn [hd_error]. f_equal.
      destruct (string_in rm allowed) eqn:E; [|reflexivity].
      unfold rm, PyDict.get_default in *.
      destruct (PyDict.get String.eqb (args req) "mod"%string) as [v|] eqn:Hv;
        [|reflexivity].
      exfalso. apply (Hbad v eq_refl). now apply string_in_In.
    + intros Hbad.
      destruct (string_in rp ["1m"; "2m"; "all"]%string) eqn:E; [|reflexivity].
      unfold rp, PyDict.get_default in *.
      destruct (PyDict.get String.eqb (args req) "period"%string) as [v|] eqn:Hv;
        [|reflexivity].
      exfalso. apply (Hbad v eq_refl). apply string_in_In in E.
      unfold _allowed_periods. simpl in *. tauto.
    + reflexivity.
Qed.
End WebFacts.

Lemma request_params_allowed_witness :
  exists m p,
    _get_request_params
      [("ra", {| Mods.label := "Red Alert"; Mods.icon := None;
                 Mods.supports_analysis := None |});
       ("td", {| Mods.label := "Tiberian Dawn"; Mods.icon := None;
                 Mods.supports_analysis := None |})]%string
      {| endpoint := "leaderboard";
         args := [("mod", "../etc"); ("period", "all")]%string |}
    = Done ("leaderboard"%string, m, p)
    /\ m = "ra"%string /\ p = "all"%string.
Proof.
  destruct (proj2 (request_params_allowed
                     [("ra", {| Mods.label := "Red Alert"; Mods.icon := None;
                                Mods.supports_analysis := None |});
                      ("td", {| Mods.label := "Tiberian Dawn"; Mods.icon := None;
                                Mods.supports_analysis := None |})]%string
                     {| endpoint := "leaderboard";
                        args := [("mod", "../etc"); ("period", "all")]%string |})
                  ltac:(discriminate))
    as [m [p [H [_ [_ [_ [Hp [Hm _]]]]]]]].
  exists m, p. split; [exact H|]. split.
  - assert (E : Some "ra"%string = Some m).
    { apply Hm. intros v Hv. injection Hv as <-.
      intros [E|[E|[]]]; discriminate E. }
    now injection E as <-.
  - apply Hp; [reflexivity|]. right. right. now left.
Defined.

(** *** Query strings and menus *)

Lemma concat_nonempty (sep x : string) (l : list string) :
  x <> EmptyString -> String.concat sep (x :: l) <> EmptyString.
Proof.
  intros Hx. destruct x as [|c x]; [congruence|].
  destruct l as [|y l]; intros E; [simpl in E; discriminate E|].
  change (String.concat sep (String c x :: y :: l))
    with (String c x ++ sep ++ String.concat sep (y :: l))%string in E.
  discriminate E.
Qed.

Lemma args_dict_base (req : request) :
  let base :=
    match PyDict.get String.eqb (args req) "mod"%string with
    | Some m =>
        PyDict.set String.eqb
          match PyDict.get String.eqb (args req) "period"%string with
          | Some p => PyDict.set String.eqb [] "period"%string p
          | None => []
          end "mod"%string m
    | None =>
        match PyDict.get String.eqb (args req) "period"%string with
        | Some p => PyDict.set String.eqb [] "period"%string p
        | None => []
        end
    end in
  NoDup (map fst base)
  /\ (forall k, In k (map fst base) -> k = "period"%string \/ k = "mod"%string)
  /\ PyDict.get String.eqb base "period"%string
     = PyDict.get String.eqb (args req) "period"%string
  /\ PyDict.get String.eqb base "mod"%string = PyDict.get String.eqb (args req) "mod"%string.
Proof.
  destruct (PyDict.get String.eqb (args req) "mod"%string) as [m|];
    destruct (PyDict.get String.eqb (args req) "period"%string) as [p|];
    simpl; (split; [repeat constructor; simpl; intuition discriminate|]);
    (split; [intros k; simpl; intuition auto|]); split; reflexivity.
Qed.

(** X24: the query string appended to links carries the request's own [period]
    and [mod] arguments and the overrides, each key once, an override
    taking the place of the request's value; it is empty exactly when there
    is nothing to carry. *)
Theorem args_url_carries (req : request) (kwargs : list (string * string)) :
  NoDup (map fst kwargs) ->
  NoDup (map fst (_args_dict req kwargs))
  /\ (forall k v, In (k, v) kwargs ->
        PyDict.get String.eqb (_args_dict req kwargs) k = Some v)
  /\ (forall k, ~ In k (map fst kwargs) ->
        k = "period"%string \/ k = "mod"%string ->
        PyDict.get String.eqb (_args_dict req kwargs) k
        = PyDict.get String.eqb (args req) k)
  /\ (forall k, In k (map fst (_args_dict req kwargs)) ->
        k = "period"%string \/ k = "mod"%string \/ In k (map fst kwargs))
  /\ (_args_url req kwargs = EmptyString <-> _args_dict req kwargs = []).
Proof.
  intros Hnd.
  destruct (args_dict_base req) as [Hb1 [Hb2 [Hb3 Hb4]]].
  unfold _args_url, _args_dict.
  set (base := match PyDict.get String.eqb (args req) "mod"%string with
               | Some m => _
               | None => _
               end) in *.
  destruct (update_keys_NoDup String.eqb String.eqb_spec kwargs base Hb1)
    as [Hu1 Hu2].
  split; [exact Hu1|]. split; [|split; [|split]].
  - intros k v Hkv. rewrite (get_update String.eqb String.eqb_spec) by exact Hnd.
    now rewrite (In_get_Some String.eqb String.eqb_spec kwargs k v Hnd Hkv).
  - intros k Hk Hcase.
    rewrite (get_update String.eqb String.eqb_spec) by exact Hnd.
    apply (get_None_keys String.eqb String.eqb_spec) in Hk. rewrite Hk.
    destruct Hcase as [->| ->]; assumption.
  - intros k Hk. apply Hu2 in Hk. destruct Hk as [Hk|Hk]; [|tauto].
    apply Hb2 in Hk. tauto.
  - destruct (PyDict.update String.eqb base kwargs) as [|[k v] rows].
    + simpl. tauto.
    + split; [|discriminate]. cbn [map fst snd].
      destruct (String.eqb_spec
                  (join_amp ((k ++ "=" ++ v)%string
                             :: map (fun kv => (fst kv ++ "=" ++ snd kv)%string) rows))
                  EmptyString) as [E|_]; [|discriminate].
      exfalso. revert E. apply concat_nonempty.
      destruct k; discriminate.
Qed.

Lemma request_params_Done (mods : list (string * Mods.info)) (req : request) :
  mods <> [] ->
  exists m p,
    _get_request_params mods req = Done (endpoint req, m, p)
    /\ In m (_allowed_mods mods)
    /\ In p _allowed_periods.
Proof.
  intros Hne. unfold _get_request_params, _allowed_mods.
  destruct mods as [|[m0 i0] ms]; [congruence|]. cbn [map fst].
  eexists _, _. split; [reflexivity|]. split.
  - destruct (string_in _ (m0 :: map fst ms)) eqn:E.
    + now apply string_in_In.
    + now left.
  - destruct (string_in _ ["1m"%string; "2m"%string; "all"%string]) eqn:E.
    + apply string_in_In in E. unfold _allowed_periods. simpl in *. tauto.
    + now left.
Qed.

Lemma count_key_unique (c : string) (l : list string) :
  NoDup l ->
  length (filter (fun x => String.eqb x c) l) = if string_in c l then 1%nat else 0%nat.
Proof.
  unfold string_in.
  induction 1 as [|x l Hx Hnd IH]; simpl; [reflexivity|].
  rewrite (String.eqb_sym c x).
  destruct (String.eqb_spec x c) as [->|Hne]; simpl; [|exact IH].
  rewrite IH.
  destruct (existsb (String.eqb c) l) eqn:E; [|reflexivity].
  exfalso. apply Hx. apply existsb_exists in E. destruct E as [y [Hy E]].
  apply String.eqb_eq in E. now subst.
Qed.

Lemma filter_map_length {A B : Type} (f : B -> bool) (g : A -> B) (l : list A) :
  length (filter f (map g l)) = length (filter (fun a => f (g a)) l).
Proof. now rewrite filter_map_comm, length_map. Qed.

Section MenuFacts.
Variable mods : list (string * Mods.info).
Variable url_for : string -> list (string * Z) -> string.
Variable static_url : string -> string.

(** X25: with at least one registered mod the menu is always built.  It has the
    four fixed pages, at most one of them active; the mod selection is
    offered only when more than one mod is registered, and then exactly one
    of its entries is active; the period selection is offered only on the
    four period pages, with exactly one entry active, except under the
    period [1m], which the request parameters accept and the selection
    does not list. *)
Theorem menu_shape (req : request) (values : list (string * Z)) :
  mods <> [] ->
  NoDup (map fst mods) ->
  exists m p menu,
    _get_request_params mods req = Done (endpoint req, m, p)
    /\ _get_menu mods url_for static_url req values = Done menu
    /\ map Menu.caption (Menu.pages menu)
       = ["Leaderboard"%string; "Latest games"%string; "Global stats"%string; "Information"%string]
    /\ (length (filter Menu.active (Menu.pages menu)) <= 1)%nat
    /\ (Menu.mods menu = None <-> (length mods <= 1)%nat)
    /\ (forall l, Menu.mods menu = Some l ->
          length l = length mods
          /\ length (filter Menu.m_active l) = 1%nat)
    /\ (Menu.period menu = None <-> ~ In (endpoint req) period_pages)
    /\ (forall l, Menu.period menu = Some l ->
          map Menu.caption l = ["This period"%string; "All time"%string]
          /\ length (filter Menu.active l)
             = if String.eqb p "1m"%string then 0%nat else 1%nat).
Proof.
  intros Hne Hnd.
  destruct (request_params_Done mods req Hne) as [m [p [Hp [Hm Hper]]]].
  exists m, p. unfold _get_menu. rewrite Hp.
  eexists. split; [reflexivity|]. split; [reflexivity|].
  cbn [Menu.pages Menu.mods Menu.period]. split; [reflexivity|]. split.
  { rewrite filter_map_length. cbn [Menu.active snd].
    rewrite <- (filter_map_length (fun x => String.eqb x (endpoint req)) snd).
    rewrite count_key_unique.
    - destruct (string_in _ _); lia.
    - repeat constructor; simpl; intuition discriminate. }
  unfold len. rewrite length_map. split.
  { destruct (Z.ltb_spec 1 (Z.of_nat (length mods))); split;
      try discriminate; try reflexivity; intros; lia. }
  split.
  { intros l Hl.
    destruct (Z.ltb_spec 1 (Z.of_nat (length mods))); [|discriminate].
    injection Hl as <-. rewrite length_map. split; [reflexivity|].
    rewrite filter_map_length. cbn [Menu.m_active fst].
    rewrite <- (filter_map_length (fun x => String.eqb x m) fst).
    rewrite (count_key_unique m _ Hnd).
    apply string_in_In in Hm. unfold _allowed_mods in Hm. now rewrite Hm. }
  split.
  { destruct (string_in (endpoint req) period_pages) eqn:E.
    - split; [discriminate|]. intros H. apply string_in_In in E. tauto.
    - split; [|reflexivity]. intros _ H. apply string_in_In in H. congruence. }
  intros l Hl. destruct (string_in (endpoint req) period_pages); [|discriminate].
  injection Hl as <-. split; [reflexivity|].
  unfold _allowed_periods in Hper. simpl in Hper.
  destruct Hper as [<-|[<-|[<-|[]]]]; reflexivity.
Qed.
End MenuFacts.

Lemma menu_shape_witness :
  exists m p menu,
    _get_request_params
      [("ra"%string, {| Mods.label := "Red Alert"%string; Mods.icon := None;
                 Mods.supports_analysis := None |});
       ("td"%string, {| Mods.label := "Tiberian Dawn"%string; Mods.icon := Some "td.png"%string;
                 Mods.supports_analysis := Some true |})]
      {| endpoint := "globalstats"%string; args := [("period"%string, "1m"%string)] |}
    = Done ("globalstats"%string, m, p)
    /\ m = "ra"%string /\ p = "1m"%string
    /\ _get_menu
         [("ra"%string, {| Mods.label := "Red Alert"%string; Mods.icon := None;
                    Mods.supports_analysis := None |});
          ("td"%string, {| Mods.label := "Tiberian Dawn"%string; Mods.icon := Some "td.png"%string;
                    Mods.supports_analysis := Some true |})]
         (fun e _ => e) (fun f => f)
         {| endpoint := "globalstats"%string; args := [("period"%string, "1m"%string)] |} []
       = Done menu
    /\ (forall l, Menu.period menu = Some l ->
          length (filter Menu.active l) = 0%nat).
Proof.
  destruct (menu_shape
              [("ra"%string, {| Mods.label := "Red Alert"%string; Mods.icon := None;
                         Mods.supports_analysis := None |});
               ("td"%string, {| Mods.label := "Tiberian Dawn"%string; Mods.icon := Some "td.png"%string;
                         Mods.supports_analysis := Some true |})]
              (fun e _ => e) (fun f => f)
              {| endpoint := "globalstats"%string; args := [("period"%string, "1m"%string)] |} []
              ltac:(discriminate)
              ltac:(repeat constructor; simpl; intuition discriminate))
    as [m [p [menu [Hp [Hmenu [_ [_ [_ [_ [_ Hper]]]]]]]]]].
  exists m, p, menu. split; [exact Hp|].
  assert (Hm : m = "ra"%string /\ p = "1m"%string).
  { vm_compute in Hp. injection Hp as <- <-. split; reflexivity. }
  destruct Hm as [-> ->]. repeat split; [exact Hmenu|].
  intros l Hl. now destruct (Hper l Hl) as [_ H].
Defined.

(** *** Pages *)

Lemma left_join_covers {A B : Type} (on : A -> B -> bool) (l : list A)
    (r : list B) (a : A) :
  In a l -> exists ob, In (a, ob) (left_join on l r).
Proof.
  intros Ha. unfold left_join.
  destruct (filter (on a) r) as [|b bs] eqn:E.
  - exists None. apply in_flat_map. exists a. split; [exact Ha|].
    rewrite E. now left.
  - exists (Some b). apply in_flat_map. exists a. split; [exact Ha|].
    rewrite E. apply in_map_iff. exists b. split; [reflexivity|now left].
Qed.

Lemma player_faction_query_nonempty (d : db) (pid : Z) (o : outcome) :
  In o (outcomes d) -> involves pid o = true ->
  player_faction_query d pid <> [].
Proof.
  intros Ho Hinv. unfold player_faction_query.
  destruct (left_join_covers
              (fun o p => (profile_id p =? profile_id0 o)
                          || (profile_id p =? profile_id1 o))
              (outcomes d) (players d) o Ho) as [ob Hob].
  set (keys := map (fun op => own_faction pid (fst op)) _).
  assert (Hk : keys <> []).
  { unfold keys. intros E.
    assert (H : In (own_faction pid o) (map (fun op => own_faction pid (fst op))
                 (filter (fun op => involves pid (fst op))
                    (left_join
                       (fun o p => (profile_id p =? profile_id0 o)
                                   || (profile_id p =? profile_id1 o))
                       (outcomes d) (players d))))).
    { apply in_map_iff. exists (o, ob). split; [reflexivity|].
      apply filter_In. split; [exact Hob|exact Hinv]. }
    rewrite E in H. destruct H. }
  pose proof (group_count_nonempty option_string_eqb option_string_eqb_spec
                keys Hk) as Hg.
  destruct (group_count option_string_eqb keys); [congruence|discriminate].
Qed.

Lemma get_player_ratings_Ok (dumps_strings : list string -> string)
    (dumps_ints : list Z -> string) (d : db) (pid : Z) :
  exists rs, _get_player_ratings dumps_strings dumps_ints d pid = Ok rs.
Proof.
  unfold _get_player_ratings.
  destruct (skipn _ (player_rating_sequence d pid)) as [|a0 rest].
  - now eexists.
  - rewrite scaled_unfold. simpl bind. now eexists.
Qed.

Section PageFacts.
Variable sql_avg_duration : list (Z * Z) -> option string.
Variable dumps_strings : list string -> string.
Variable dumps_ints : list Z -> string.
Variable games_url : Z -> string.

(** X26: the player page shows the no-such-player view exactly when no
    unbanned player has the id.  For an unbanned player it is rendered
    when at least one outcome involves them, and fails on the faction
    histogram when none does. *)
Theorem player_view_cases (d : db) (pid : Z) :
  ((forall p, In p (players d) -> profile_id p = pid -> banned p = true) ->
   player_view sql_avg_duration dumps_strings dumps_ints games_url d pid
   = Ok (NoPlayer pid))
  /\ (forall p, In p (players d) -> profile_id p = pid -> banned p = false ->
        ((forall o, In o (outcomes d) -> involves pid o = false) ->
         player_view sql_avg_duration dumps_strings dumps_ints games_url d pid
         = Raise ValueError)
        /\ ((exists o, In o (outcomes d) /\ involves pid o = true) ->
            exists info rs fs,
              player_view sql_avg_duration dumps_strings dumps_ints games_url d pid
              = Ok (Player info (games_url pid) rs fs
                           (_get_player_map_stats d pid))
              /\ profile_id (info_player info) = pid
              /\ banned (info_player info) = false)).
Proof.
  unfold player_view. split.
  - intros H. now rewrite (proj2 (get_player_info_None sql_avg_duration d pid) H).
  - intros p Hin Hid Hb.
    destruct (_get_player_info sql_avg_duration d pid) as [info|] eqn:E.
    2:{ pose proof (proj1 (get_player_info_None _ _ _) E p Hin Hid) as E'.
        rewrite E' in Hb. discriminate. }
    destruct (get_player_info_inv _ _ _ _ E) as [_ [Hid' [Hb' _]]].
    destruct (get_player_ratings_Ok dumps_strings dumps_ints d pid) as [rs Hrs].
    rewrite Hrs. simpl bind. split.
    + intros Hnone. unfold _get_player_faction_stats.
      now rewrite (player_faction_query_no_match d pid Hnone).
    + intros [o [Ho Hinv]].
      pose proof (player_faction_query_nonempty d pid o Ho Hinv) as Hq.
      unfold _get_player_faction_stats. rewrite (make_histogram_Ok _ Hq).
      simpl bind. eexists _, _, _. split; [reflexivity|]. split; assumption.
Qed.

(** X27: the global statistics page fails exactly when the activity timeline
    does: the ledger is not empty and every outcome is dated after today.
    When it is rendered, its number of games is the number of outcomes and
    equals the total of its map histogram; for an empty ledger both
    histograms are the empty triple and the timeline is the empty state. *)
Theorem globalstats_cases (today : Z) (d : db) :
  (globalstats sql_avg_duration today d = Raise ZeroDivisionError
   <-> outcomes d <> [] /\ forall k, In k (outcome_days d) -> today < k)
  /\ (forall e, globalstats sql_avg_duration today d = Raise e ->
                e = ZeroDivisionError)
  /\ (forall page,
        globalstats sql_avg_duration today d = Ok page ->
        g_nb_games page = len (outcomes d)
        /\ g_nb_players page = len (filter (fun p => negb (banned p)) (players d))
        /\ (forall h, g_map_stats page = Stats h -> total h = g_nb_games page)
        /\ (outcomes d = [] ->
            g_faction_stats page = EmptyTriple
            /\ g_map_stats page = EmptyTriple
            /\ Activity.dates (g_activity_stats page) = None
            /\ Activity.data (g_activity_stats page) = None)).
Proof.
  destruct (activity_stats_outcomes today d) as [Hempty [Hfail Honly]].
  destruct (global_map_stats_shape d) as [Hm0 Hm1].
  assert (Hf : exists fs, _get_global_faction_stats d = Ok fs
                          /\ (outcomes d = [] -> fs = EmptyTriple)).
  { unfold _get_global_faction_stats.
    destruct (global_faction_hist d) as [|r rows] eqn:E.
    - exists EmptyTriple. now split.
    - rewrite <- E, make_histogram_Ok by (rewrite E; discriminate).
      simpl bind. eexists. split; [reflexivity|].
      intros Hnil. rewrite global_faction_hist_unfold, Hnil in E. discriminate. }
  destruct Hf as [fs [Hfs Hfs0]].
  assert (Hm : exists ms, _get_global_map_stats d = Ok ms
                          /\ (outcomes d = [] -> ms = EmptyTriple)
                          /\ (forall h, ms = Stats h -> total h = len (outcomes d))).
  { destruct (outcomes d) as [|o os] eqn:Eo.
    - exists EmptyTriple. rewrite (Hm0 eq_refl). repeat split; discriminate.
    - destruct (Hm1 ltac:(discriminate)) as [h [Hh [_ [_ [_ [Ht _]]]]]].
      exists (Stats h). split; [exact Hh|]. split; [discriminate|].
      intros h' H. injection H as <-. exact Ht. }
  destruct Hm as [ms [Hms [Hms0 Hmst]]].
  unfold globalstats. rewrite Hfs, Hms. simpl bind.
  destruct (_get_activity_stats today d) as [a|e] eqn:Ea; simpl bind.
  - split; [|split; [discriminate|]].
    + split; [discriminate|]. intros H. apply Hfail in H. discriminate.
    + intros page H. injection H as <-. cbn.
      split; [reflexivity|]. split; [reflexivity|]. split; [exact Hmst|].
      intros Hnil. pose proof (Hempty Hnil) as Ha. injection Ha as ->.
      cbn. repeat split; auto.
  - pose proof (Honly e eq_refl) as He. subst e.
    split; [|split; [intros e H; congruence|discriminate]].
    split; [intros _; now apply Hfail|reflexivity].
Qed.
End PageFacts.

(** *** The properties on the sample ledgers *)

Lemma swapped_factions_unique : unique_ids swapped_factions_db.
Proof. repeat constructor; simpl; intuition discriminate. Qed.

Lemma banned_unique : unique_ids banned_db.
Proof. repeat constructor; simpl; intuition discriminate. Qed.

Lemma tied_unique : unique_ids tied_db.
Proof. repeat constructor; simpl; intuition discriminate. Qed.

Lemma season_unique : unique_ids season_db.
Proof. repeat constructor; simpl; intuition discriminate. Qed.

Lemma player_rating_sequence_chronological_witness :
  player_rating_sequence season_db 1
  = map (own_rating 1) (matches_of season_db 1).
Proof.
  apply (player_rating_sequence_chronological season_db 1 season_unique).
Defined.

Lemma player_ratings_warmup_witness :
  exists out,
    _get_player_ratings plain_dumps_strings plain_dumps_ints season_db 1
    = Ok (RatingCurve (plain_dumps_strings (repeat EmptyString 50))
                      (plain_dumps_ints out))
    /\ length out = 50%nat
    /\ hd_error out = Some (py_round (nth 10 (player_rating_sequence season_db 1) 0%Q))
    /\ Forall (fun v =>
                 py_round (py_min (skipn 10 (player_rating_sequence season_db 1)))
                 <= v
                 <= py_round (py_max (skipn 10 (player_rating_sequence season_db 1))))
              out.
Proof.
  apply (proj2 (player_ratings_warmup plain_dumps_strings plain_dumps_ints
                  season_db 1)).
  vm_compute. lia.
Defined.

Lemma player_info_rank_bounds_witness :
  exists info,
    _get_player_info plain_avg_duration tied_db 2 = Some info
    /\ 1 <= info_rank info
       <= len (filter (fun p => negb (banned p)) (players tied_db)).
Proof.
  eexists. split; [reflexivity|].
  apply (player_info_rank_bounds plain_avg_duration tied_db 2 _ tied_unique).
  reflexivity.
Defined.

Lemma leaderboard_row_id_le_rank_witness :
  exists rows,
    leaderboard_js plain_escape plain_player_url tied_db = Ok rows
    /\ forall k r, nth_error rows k = Some r ->
         exists p,
           nth_error (leaderboard_query tied_db) k = Some p
           /\ Leaderboard.url (Leaderboard.player r)
              = plain_player_url (profile_id p)
           /\ Leaderboard.row_id r <= rank_of tied_db (profile_id p)
           /\ ((forall j q, nth_error (leaderboard_query tied_db) j = Some q ->
                  j <> k -> ~ (rating q == rating p)%Q) ->
               rank_of tied_db (profile_id p) = Leaderboard.row_id r).
Proof.
  apply (leaderboard_row_id_le_rank plain_escape plain_player_url tied_db
           tied_unique).
  intros p [<-|[<-|[]]] _ _; discriminate.
Defined.

Lemma latest_games_redaction_witness :
  exists g o,
    In g (latest_games_js plain_escape plain_player_url plain_replay_url true
            banned_db)
    /\ In o (outcomes banned_db)
    /\ Latest.date g = end_time o
    /\ (Latest.p0 g = None <-> id_banned banned_db (profile_id0 o) = true)
    /\ (Latest.p1 g = None <-> id_banned banned_db (profile_id1 o) = true)
    /\ (Latest.replay g = None
        <-> id_banned banned_db (profile_id0 o) = true
            \/ id_banned banned_db (profile_id1 o) = true)
    /\ (forall c, Latest.p0 g = Some c ->
          Latest.url c = plain_player_url (profile_id0 o))
    /\ (forall c, Latest.p1 g = Some c ->
          Latest.url c = plain_player_url (profile_id1 o)).
Proof.
  assert (Hex : exists g,
             In g (latest_games_js plain_escape plain_player_url
                     plain_replay_url true banned_db)).
  { eexists. vm_compute. left. reflexivity. }
  destruct Hex as [g Hg].
  destruct (latest_games_redaction plain_escape plain_player_url
              plain_replay_url true banned_db g banned_unique Hg) as [o Ho].
  exists g, o. split; [exact Hg|exact Ho].
Defined.

Lemma player_games_all_or_nothing_witness :
  player_games_js plain_escape plain_player_url plain_replay_url true banned_db 1
  = []
  /\ length (player_games_js plain_escape plain_player_url plain_replay_url true
               banned_db 2)
     = length (filter (involves 2) (outcomes banned_db)).
Proof.
  pose proof (fun pid =>
                player_games_all_or_nothing plain_escape plain_player_url
                  plain_replay_url true banned_db pid banned_unique) as H.
  split.
  - apply (proj1 (H 1)). reflexivity.
  - apply (proj2 (H 2)). reflexivity.
Defined.

Lemma player_games_redaction_witness :
  exists g o,
    In g (player_games_js plain_escape plain_player_url plain_replay_url true
            banned_db 2)
    /\ In o (outcomes banned_db) /\ involves 2 o = true
    /\ Games.date g = end_time o
    /\ Games.map g = _stripped_map_name (map_title o)
    /\ (Games.opponent g = None <-> Games.replay g = None)
    /\ (Games.opponent g = None
        <-> id_banned banned_db (if profile_id0 o =? 2 then profile_id1 o
                                 else profile_id0 o) = true)
    /\ (forall c, Games.opponent g = Some c ->
          Games.url c = plain_player_url (if profile_id0 o =? 2
                                          then profile_id1 o
                                          else profile_id0 o))
    /\ (Games.desc (Games.outcome g) = "Won"%string <-> profile_id0 o = 2).
Proof.
  assert (Hex : exists g,
             In g (player_games_js plain_escape plain_player_url
                     plain_replay_url true banned_db 2)).
  { eexists. vm_compute. left. reflexivity. }
  destruct Hex as [g Hg].
  destruct (player_games_redaction plain_escape plain_player_url
              plain_replay_url true banned_db 2 g banned_unique Hg) as [o Ho].
  exists g, o. split; [exact Hg|exact Ho].
Defined.

Lemma latest_games_complete_witness :
  length (latest_games_js plain_escape plain_player_url plain_replay_url true
            banned_db)
  = length (outcomes banned_db).
Proof.
  apply (proj2 (latest_games_complete plain_escape plain_player_url
                  plain_replay_url true banned_db) banned_unique).
Defined.

Lemma global_faction_stats_names_witness :
  exists h,
    _get_global_faction_stats season_db = Ok (Stats h)
    /\ data h
       = map (fun f =>
                occurrences String.eqb f (map selected_faction_0 (outcomes season_db))
                + occurrences String.eqb f
                    (map selected_faction_1 (outcomes season_db)))
             (names h).
Proof.
  destruct (proj2 (global_faction_stats_names season_db) ltac:(discriminate))
    as [h [Hh [_ [_ [_ Hd]]]]].
  exists h. split; [exact Hh|]. apply Hd.
  intros f H0 H1. vm_compute in H0, H1.
  repeat (destruct H0 as [H0|H0]; [subst f; intuition discriminate|]).
  exact H0.
Defined.

Lemma player_faction_stats_registered_witness :
  exists h,
    _get_player_faction_stats swapped_factions_db 1 = Ok h
    /\ NoDup (names h)
    /\ (forall f, In f (names h) <-> In f (own_factions swapped_factions_db 1))
    /\ data h
       = map (fun f => occurrences option_string_eqb f
                         (own_factions swapped_factions_db 1))
             (names h)
    /\ total h = len (filter (involves 1) (outcomes swapped_factions_db))
    /\ length (colors h) = length (names h).
Proof.
  apply (player_faction_stats_registered swapped_factions_db 1
           swapped_factions_unique).
  - intros o [<-|[<-|[]]] _; repeat split; discriminate.
  - eexists. split; [left; reflexivity|reflexivity].
Defined.

Lemma player_faction_stats_halved_witness :
  exists h,
    _get_player_faction_stats guest_db 1 = Ok h
    /\ (forall f, In f (names h) <-> In f (own_factions guest_db 1))
    /\ data h
       = map (fun f =>
                Z.quot (occurrences option_string_eqb f (own_factions guest_db 1)) 2)
             (names h)
    /\ total h = sum (data h).
Proof.
  apply (player_faction_stats_halved guest_db 1).
  - intros o [<-|[]] _. vm_compute. lia.
  - eexists. split; [left; reflexivity|reflexivity].
Defined.

Lemma activity_stats_failure_witness :
  _get_activity_stats (_ymd2ord 2023 12 31) swapped_factions_db
  = Raise ZeroDivisionError.
Proof.
  apply (proj1 (proj2 (activity_stats_failure (_ymd2ord 2023 12 31)
                         swapped_factions_db))).
  split; [discriminate|].
  intros k [<-|[<-|[]]]; vm_compute; reflexivity.
Defined.

Lemma activity_stats_until_today_witness :
  exists start,
    In start (outcome_days swapped_factions_db)
    /\ (forall k, In k (outcome_days swapped_factions_db) -> start <= k)
    /\ (start <= _ymd2ord 2024 1 2 ->
        _get_activity_stats (_ymd2ord 2024 1 2) swapped_factions_db
        = Ok {| Activity.dates :=
                  Some (map (fun n => start + n)
                            (range (_ymd2ord 2024 1 2 - start + 1)));
                Activity.data :=
                  Some (map (fun day =>
                               occurrences Z.eqb day
                                 (outcome_days swapped_factions_db))
                            (map (fun n => start + n)
                                 (range (_ymd2ord 2024 1 2 - start + 1))));
                Activity.games_per_day :=
                  (inject_Z (len (filter (fun k => k <=? _ymd2ord 2024 1 2)
                                         (outcome_days swapped_factions_db)))
                   / inject_Z (_ymd2ord 2024 1 2 - start + 1))%Q |}).
Proof.
  apply (activity_stats_until_today (_ymd2ord 2024 1 2) swapped_factions_db).
  discriminate.
Defined.

Lemma current_period_contains_today_witness :
  exists p,
    _get_current_period
      {| Calendar.year := 2024; Calendar.month := 2; Calendar.day := 29 |} = Ok p
    /\ Calendar.month (Period.start p) = 1
    /\ Calendar.month (Period.stop p) = 2
    /\ Calendar.day (Period.stop p) = 29.
Proof.
  destruct (current_period_contains_today
              {| Calendar.year := 2024; Calendar.month := 2; Calendar.day := 29 |}
              ltac:(unfold valid_date; vm_compute; intuition discriminate))
    as [p [Hp H]].
  exists p. split; [exact Hp|].
  vm_compute in Hp. injection Hp as <-. repeat split.
Defined.

Lemma args_url_carries_witness :
  PyDict.get String.eqb
    (_args_dict {| endpoint := "leaderboard"%string;
                   args := [("period"%string, "all"%string); ("mod"%string, "ra"%string)] |}
                [("mod"%string, "td"%string)]) "mod"%string
  = Some "td"%string.
Proof.
  apply (proj1 (proj2 (args_url_carries
                         {| endpoint := "leaderboard"%string;
                            args := [("period"%string, "all"%string); ("mod"%string, "ra"%string)] |}
                         [("mod"%string, "td"%string)]
                         ltac:(repeat constructor; simpl; intuition)))).
  left. reflexivity.
Defined.

Lemma player_view_cases_witness :
  player_view plain_avg_duration plain_dumps_strings plain_dumps_ints
    plain_player_url newcomer_db 2
  = Raise ValueError.
Proof.
  apply (proj1 (proj2 (player_view_cases plain_avg_duration plain_dumps_strings
                         plain_dumps_ints plain_player_url newcomer_db 2)
                  (mk_player 2 "new"%string 0 0 1000 false)
                  ltac:(right; left; reflexivity) eq_refl eq_refl)).
  intros o [].
Defined.

Lemma globalstats_cases_witness :
  globalstats plain_avg_duration (_ymd2ord 2023 12 31) swapped_factions_db
  = Raise ZeroDivisionError.
Proof.
  apply (proj1 (globalstats_cases plain_avg_duration (_ymd2ord 2023 12 31)
                  swapped_factions_db)).
  split; [discriminate|].
  intros k [<-|[<-|[]]]; vm_compute; reflexivity.
Defined.
